(** * ZRTP cache, SQLite backend (src/zrtp/zrtpCacheSqliteBackend.cpp)

    A shallow embedding of the persistent ZRTP cache backend: the three
    tables [zrtpIdOwn], [zrtpIdRemote] and [zrtpNames], the SQL statements
    the backend prepares against them, and the C functions that bind, step
    and decode those statements.

    The storage engine (SQLite) is modelled as far as these statements
    use it.  A database is its three tables, each missing or a list of
    rows in rowid order; a row holds what the backend's INSERT and UPDATE
    statements can store in it.  The engine is deterministic here: a
    statement fails to compile exactly when the table it names is missing
    (or, for CREATE, already there), and a DROP is refused while another
    statement of the connection is active; I/O faults, locks held by
    other connections and memory exhaustion are outside the model.  The
    clock and the random generator are explicit arguments of the
    functions that use them.

    The first part holds the definitions, the second part the properties
    proved about them. *)

From Stdlib Require Import ZArith NArith List String Ascii Bool Lia.
From Stdlib Require Import Strings.Byte.
From Stdlib Require Import Permutation Sorted.
Import ListNotations.

Local Open Scope Z_scope.

(* ------------------------------------------------------------------ *)
(** ** Constants of libzrtpcpp/zrtpCacheDbBackend.h *)

(** Modelled from the spec: [IDENTIFIER_LEN] of zrtpCacheDbBackend.h, the
    fixed identifier length of 12 bytes. *)
Definition IDENTIFIER_LEN : nat := 12.

(** Modelled from the spec: [RS_LENGTH] of zrtpCacheDbBackend.h, the
    32 bytes of a retained secret. *)
Definition RS_LENGTH : nat := 32.

(** Result codes of sqlite3.h. *)
Definition SQLITE_OK : Z := 0.
Definition SQLITE_ERROR : Z := 1.
Definition SQLITE_LOCKED : Z := 6.
Definition SQLITE_MISUSE : Z := 21.
Definition SQLITE_ROW : Z := 100.
Definition SQLITE_DONE : Z := 101.

Definition localZidStandard : Z := 1.
Definition localZidWithAccount : Z := 2.
Definition defaultAccountString : string := "_STANDARD_".

(* ------------------------------------------------------------------ *)
(** ** Encoding layer: [b64Encode] and [b64Decode] *)

Module Base64.

Local Open Scope N_scope.

Definition BIN_TO_BASE64 : string :=
  "ABCDEFGHIJKLMNOPQRSTUVWXYZabcdefghijklmnopqrstuvwxyz0123456789+/".

Definition lookup_base64_char (x : N) : ascii :=
  match String.get (N.to_nat x) BIN_TO_BASE64 with
  | Some c => c
  | None => "="%char
  end.

(** The six-bit value of an alphabet character; [None] for every other
    character, the padding character included. *)
Definition lookup_binary_value (c : ascii) : option N :=
  let n := N_of_ascii c in
  if (65 <=? n) && (n <=? 90) then Some (n - 65)
  else if (97 <=? n) && (n <=? 122) then Some (n - 71)
  else if (48 <=? n) && (n <=? 57) then Some (n + 4)
  else if n =? 43 then Some 62
  else if n =? 47 then Some 63
  else None.

Definition uint8 (n : N) : byte :=
  match Byte.of_N (n mod 256) with
  | Some b => b
  | None => x00
  end.

(** Three input bytes to four six-bit groups. *)
Definition sextets (i0 i1 i2 : N) : N * N * N * N :=
  (N.shiftr (N.land i0 252) 2,
   N.lor (N.shiftl (N.land i0 3) 4) (N.shiftr i1 4),
   N.lor (N.shiftl (N.land i1 15) 2) (N.shiftr i2 6),
   N.land i2 63).

(** Four six-bit groups to three output bytes, each truncated to
    eight bits. *)
Definition octets (d0 d1 d2 d3 : N) : N * N * N :=
  ((N.lor (N.shiftl d0 2) (N.shiftr d1 4)) mod 256,
   (N.lor (N.shiftl d1 4) (N.shiftr d2 2)) mod 256,
   (N.lor (N.shiftl d2 6) d3) mod 256).

Definition pad : ascii := "="%char.

(** Modelled from the spec: [Botan::base64_encode] of botan_all.h, the
    reversible printable transcoding of the encoding layer, as RFC 4648
    base64: three bytes become four alphabet characters, and a final
    group of one or two bytes is zero-filled and padded with '='. *)
Fixpoint base64_encode (input : list byte) : string :=
  match input with
  | [] => EmptyString
  | [a] =>
      let '(b0, b1, _, _) := sextets (Byte.to_N a) 0 0 in
      String (lookup_base64_char b0) (String (lookup_base64_char b1)
        (String pad (String pad EmptyString)))
  | [a; b] =>
      let '(b0, b1, b2, _) := sextets (Byte.to_N a) (Byte.to_N b) 0 in
      String (lookup_base64_char b0) (String (lookup_base64_char b1)
        (String (lookup_base64_char b2) (String pad EmptyString)))
  | a :: b :: c :: rest =>
      let '(b0, b1, b2, b3) :=
        sextets (Byte.to_N a) (Byte.to_N b) (Byte.to_N c) in
      String (lookup_base64_char b0) (String (lookup_base64_char b1)
        (String (lookup_base64_char b2) (String (lookup_base64_char b3)
          (base64_encode rest))))
  end.

(** Modelled from the spec: [Botan::base64_decode] of botan_all.h, the
    inverse transcoding.  [None] stands for the exception the decoder
    raises on text that is not a whole number of four-character groups
    of the alphabet (padding allowed in the last group only). *)
Fixpoint base64_decode (input : string) : option (list byte) :=
  match input with
  | EmptyString => Some []
  | String c0 (String c1 (String c2 (String c3 rest))) =>
      match lookup_binary_value c0, lookup_binary_value c1 with
      | Some d0, Some d1 =>
          match lookup_binary_value c2, lookup_binary_value c3 with
          | Some d2, Some d3 =>
              let '(o0, o1, o2) := octets d0 d1 d2 d3 in
              match base64_decode rest with
              | Some tl => Some (uint8 o0 :: uint8 o1 :: uint8 o2 :: tl)
              | None => None
              end
          | Some d2, None =>
              if Ascii.eqb c3 pad && String.eqb rest EmptyString then
                let '(o0, o1, _) := octets d0 d1 d2 0 in
                Some [uint8 o0; uint8 o1]
              else None
          | None, _ =>
              if Ascii.eqb c2 pad && Ascii.eqb c3 pad
                 && String.eqb rest EmptyString then
                let '(o0, _, _) := octets d0 d1 0 0 in
                Some [uint8 o0]
              else None
          end
      | _, _ => None
      end
  | _ => None
  end.

End Base64.

(** [b64Encode(binData, binLength, b64Data, b64Length)]: the text written
    to the zero-filled buffer [b64Data], which the callers then measure
    with [strlen]. *)
Definition b64Encode (binData : list byte) (binLength : nat) : string :=
  Base64.base64_encode (firstn binLength binData).

(** [b64Decode(b64Data, b64length, binData, binLength)]: the bytes written
    to [binData]; [None] when the decoder raises. *)
Definition b64Decode (b64Data : string) : option (list byte) :=
  Base64.base64_decode b64Data.

(* ------------------------------------------------------------------ *)
(** ** Records handed across the interface *)

(** Modelled from the spec: [remoteZidRecord_t] of zrtpCacheDbBackend.h,
    the peer-secret record: the peer's identifier, a 32-bit flag word, two
    generations of retained secret with last-used and time-to-live
    timestamps (64-bit epoch seconds), the MITM key with its last-used
    timestamp, the secure-since timestamp and the 32-bit presentation
    counter. *)
Record remoteZidRecord_t := {
  identifier : list byte;
  flags : Z;
  rs1 : list byte;
  rs1LastUse : Z;
  rs1Ttl : Z;
  rs2 : list byte;
  rs2LastUse : Z;
  rs2Ttl : Z;
  mitmKey : list byte;
  mitmLastUse : Z;
  secureSince : Z;
  preshCounter : Z
}.

(** Modelled from the spec: [zidNameRecord_t] of zrtpCacheDbBackend.h, the
    peer-name record: a display name (a possibly null C string), the size
    of its buffer and a 32-bit flag word.  It has no timestamp field. *)
Record zidNameRecord_t := {
  name : option string;
  nameLength : Z;
  nameFlags : Z
}.

(** Conversion of a value to C [int] and to [uint32_t]. *)
Definition to_int (z : Z) : Z := (z + 2 ^ 31) mod 2 ^ 32 - 2 ^ 31.
Definition to_uint32 (z : Z) : Z := z mod 2 ^ 32.

(** What the [ERRMSG] macro and the consistency checks print into
    [errString]; the constructor stands for the format, its arguments for
    the values formatted into it.  The engine's own diagnostic text and
    the cut at [DB_CACHE_ERR_BUFF_SIZE] characters are left out. *)
Inductive message :=
| SQLite3_error (rc : Z)
    (* "SQLite3 error: %s, line: %d, error message: %s\n" *)
| More_than_one_remote_ZID (found : Z)
    (* "ZRTP cache inconsistent. More than one remote ZID found: %d\n" *)
| Matching_local_ZID (found : Z) (accountInfo : string)
    (* "ZRTP cache inconsistent. Found %d matching local ZID for account: %s\n" *)
| More_than_one_ZID_name (found : Z).
    (* "ZRTP name cache inconsistent. More than one ZID name found: %d\n" *)

(** [errString] is a buffer the caller may leave out: the flag says whether
    there is one, the result is the message written to it, if any. *)
Definition snprintf (errString : bool) (m : message) : option message :=
  if errString then Some m else None.

Definition ERRMSG (errString : bool) (rc : Z) : option message :=
  snprintf errString (SQLite3_error rc).

(* ------------------------------------------------------------------ *)
(** ** The storage engine: tables *)

(** A row of [zrtpIdOwn(localZid CHAR(18), type INTEGER,
    accountInfo VARCHAR(1000))]. *)
Record zrtpIdOwn_row := {
  own_localZid : string;
  own_type : Z;
  own_accountInfo : string
}.

(** A row of [zrtpIdRemote], as the backend's INSERT and UPDATE store it:
    text identifiers, INTEGER flags and counter, BLOB secrets, and the
    TIMESTAMP columns, whose NUMERIC affinity holds either NULL ([None])
    or an INTEGER. *)
Record zrtpIdRemote_row := {
  col_remoteZid : string;
  col_localZid : string;
  col_flags : Z;
  col_rs1 : list byte;
  col_rs1LastUsed : option Z;
  col_rs1TimeToLive : option Z;
  col_rs2 : list byte;
  col_rs2LastUsed : option Z;
  col_rs2TimeToLive : option Z;
  col_mitmKey : list byte;
  col_mitmLastUsed : option Z;
  col_secureSince : option Z;
  col_preshCounter : Z
}.

(** A row of [zrtpNames(remoteZid, localZid, flags, lastUpdate,
    accountInfo, name)]. *)
Record zrtpNames_row := {
  nm_remoteZid : string;
  nm_localZid : string;
  nm_flags : Z;
  nm_lastUpdate : option Z;
  nm_accountInfo : string;
  nm_name : string
}.

(** The database behind a [sqlite3*] handle: each table is missing
    ([None]) or holds its rows in rowid order. *)
Record sqlite3 := {
  zrtpIdOwn : option (list zrtpIdOwn_row);
  zrtpIdRemote : option (list zrtpIdRemote_row);
  zrtpNames : option (list zrtpNames_row)
}.

(** The SQL texts of the backend. *)
Inductive sql :=
| lookupTables
| dropZrtpIdOwn | createZrtpIdOwn | selectZrtpIdOwn | insertZrtpIdOwn
| dropZrtpIdRemote | createZrtpIdRemote | selectZrtpIdRemoteAll
| insertZrtpIdRemote | updateZrtpIdRemote
| selectZrtpIdRemoteAllNoCondition
| dropZrtpNames | createZrtpNames | selectZrtpNames
| insertZrtpNames | updateZrtpNames.

Definition is_some {A} (o : option A) : bool :=
  match o with Some _ => true | None => false end.

(** [sqlite3_prepare_v2]: compiling a statement fails with [SQLITE_ERROR]
    when the table it reads, writes or drops is missing, and when the
    table it creates is there already.  On failure the statement handle
    is null. *)
Definition SQLITE_PREPARE (db : sqlite3) (s : sql) : Z * option sql :=
  let ok (b : bool) := if b then (SQLITE_OK, Some s) else (SQLITE_ERROR, None) in
  match s with
  | lookupTables => ok true
  | dropZrtpIdOwn | selectZrtpIdOwn | insertZrtpIdOwn =>
      ok (is_some (zrtpIdOwn db))
  | createZrtpIdOwn => ok (negb (is_some (zrtpIdOwn db)))
  | dropZrtpIdRemote | selectZrtpIdRemoteAll | insertZrtpIdRemote
  | updateZrtpIdRemote | selectZrtpIdRemoteAllNoCondition =>
      ok (is_some (zrtpIdRemote db))
  | createZrtpIdRemote => ok (negb (is_some (zrtpIdRemote db)))
  | dropZrtpNames | selectZrtpNames | insertZrtpNames | updateZrtpNames =>
      ok (is_some (zrtpNames db))
  | createZrtpNames => ok (negb (is_some (zrtpNames db)))
  end.

(** [sqlite3_step] on a statement without parameters.  A null handle is
    a misuse and changes nothing; DROP and CREATE act on the schema and
    are done in one step; [lookupTables] yields a row when [zrtpIdOwn]
    is listed in sqlite_master.  [busy] says whether another statement of
    the connection is active, that is, was stepped to a row and has
    neither reached its end nor been finalized: the engine then refuses
    to drop any table, with [SQLITE_LOCKED], and changes nothing.  The
    statements with parameters have step functions of their own below,
    which take the bound values. *)
Definition sqlite3_step (db : sqlite3) (busy : bool) (stmt : option sql)
  : Z * sqlite3 :=
  match stmt with
  | None => (SQLITE_MISUSE, db)
  | Some lookupTables =>
      (if is_some (zrtpIdOwn db) then SQLITE_ROW else SQLITE_DONE, db)
  | Some dropZrtpIdOwn =>
      if busy then (SQLITE_LOCKED, db) else
      (SQLITE_DONE,
       {| zrtpIdOwn := None; zrtpIdRemote := zrtpIdRemote db;
          zrtpNames := zrtpNames db |})
  | Some createZrtpIdOwn =>
      (SQLITE_DONE,
       {| zrtpIdOwn := Some []; zrtpIdRemote := zrtpIdRemote db;
          zrtpNames := zrtpNames db |})
  | Some dropZrtpIdRemote =>
      if busy then (SQLITE_LOCKED, db) else
      (SQLITE_DONE,
       {| zrtpIdOwn := zrtpIdOwn db; zrtpIdRemote := None;
          zrtpNames := zrtpNames db |})
  | Some createZrtpIdRemote =>
      (SQLITE_DONE,
       {| zrtpIdOwn := zrtpIdOwn db; zrtpIdRemote := Some [];
          zrtpNames := zrtpNames db |})
  | Some dropZrtpNames =>
      if busy then (SQLITE_LOCKED, db) else
      (SQLITE_DONE,
       {| zrtpIdOwn := zrtpIdOwn db; zrtpIdRemote := zrtpIdRemote db;
          zrtpNames := None |})
  | Some createZrtpNames =>
      (SQLITE_DONE,
       {| zrtpIdOwn := zrtpIdOwn db; zrtpIdRemote := zrtpIdRemote db;
          zrtpNames := Some [] |})
  | Some _ => (SQLITE_MISUSE, db)
  end.

(** The epoch seconds the engine's date functions cover.  They compute
    with the Julian day in milliseconds, which has to lie between 0 and
    464269060799999: from -4713-11-24 12:00:00 to 9999-12-31 23:59:59. *)
Definition unixepoch_min : Z := -210866760000.
Definition unixepoch_max : Z := 253402300799.

Definition unixepoch_valid (s : Z) : bool :=
  (unixepoch_min <=? s) && (s <=? unixepoch_max).

(** The SQL expression [strftime('%s', X, 'unixepoch')] on a NULL or
    INTEGER argument.  NULL gives NULL; an INTEGER outside the dates the
    engine covers gives NULL as well; otherwise the result is the decimal
    text of the seconds since 1970, which is X again.  The text is kept
    as the integer it spells: a TIMESTAMP column (NUMERIC affinity) stores
    it as that INTEGER, and [sqlite3_column_int64] reads it as that
    integer. *)
Definition strftime_s_unixepoch (X : option Z) : option Z :=
  match X with
  | None => None
  | Some s => if unixepoch_valid s then Some s else None
  end.

(** [sqlite3_column_int64] and [sqlite3_column_int] on such a result
    column: NULL reads as 0, [sqlite3_column_int] keeps the low 32 bits. *)
Definition sqlite3_column_int64 (v : option Z) : Z :=
  match v with
  | None => 0
  | Some i => i
  end.

Definition sqlite3_column_int (v : Z) : Z := to_int v.

(** [memcpy(dst, sqlite3_column_blob(stmt, i), RS_LENGTH)]; the stored
    blobs hold [RS_LENGTH] bytes. *)
Definition memcpy (src : list byte) (n : nat) : list byte := firstn n src.

(** [WHERE remoteZid=?1 AND localZid=?2] *)
Definition remote_key (p1 p2 : string) (row : zrtpIdRemote_row) : bool :=
  String.eqb (col_remoteZid row) p1 && String.eqb (col_localZid row) p2.

Definition table {A} (t : option (list A)) : list A :=
  match t with Some rows => rows | None => [] end.

(** Rows stepped through by [selectZrtpIdRemoteAll] with ?1 and ?2 bound. *)
Definition step_selectZrtpIdRemoteAll (db : sqlite3) (p1 p2 : string)
  : list zrtpIdRemote_row :=
  filter (remote_key p1 p2) (table (zrtpIdRemote db)).

(** The column values [insertZrtpIdRemote] and [updateZrtpIdRemote]
    compute from their thirteen parameters: both pass ?4, ?5, ?7, ?8, ?10
    and ?11 through [strftime('%s', ?, 'unixepoch')]. *)
Definition values_zrtpIdRemote
    (p1 : string) (p2 : Z) (p3 : list byte) (p4 p5 : Z) (p6 : list byte)
    (p7 p8 : Z) (p9 : list byte) (p10 p11 : Z) (p12 : string) (p13 : Z)
  : zrtpIdRemote_row :=
  {| col_remoteZid := p1;
     col_localZid := p12;
     col_flags := p2;
     col_rs1 := p3;
     col_rs1LastUsed := strftime_s_unixepoch (Some p4);
     col_rs1TimeToLive := strftime_s_unixepoch (Some p5);
     col_rs2 := p6;
     col_rs2LastUsed := strftime_s_unixepoch (Some p7);
     col_rs2TimeToLive := strftime_s_unixepoch (Some p8);
     col_mitmKey := p9;
     col_mitmLastUsed := strftime_s_unixepoch (Some p10);
     col_secureSince := strftime_s_unixepoch (Some p11);
     col_preshCounter := p13 |}.

(** One step of the compiled [insertZrtpIdRemote]: the row is appended
    (the statement compiled, so the table is there). *)
Definition step_insertZrtpIdRemote (db : sqlite3) (row : zrtpIdRemote_row)
  : Z * sqlite3 :=
  (SQLITE_DONE,
   {| zrtpIdOwn := zrtpIdOwn db;
      zrtpIdRemote := Some (table (zrtpIdRemote db) ++ [row]);
      zrtpNames := zrtpNames db |}).

(** What [updateZrtpIdRemote] does to one row: a row matching
    [WHERE remoteZid=?1 AND localZid=?12] gets the new column values and
    keeps its key columns, any other row stays as it is. *)
Definition set_zrtpIdRemote (new row : zrtpIdRemote_row) : zrtpIdRemote_row :=
  if remote_key (col_remoteZid new) (col_localZid new) row then
    {| col_remoteZid := col_remoteZid row;
       col_localZid := col_localZid row;
       col_flags := col_flags new;
       col_rs1 := col_rs1 new;
       col_rs1LastUsed := col_rs1LastUsed new;
       col_rs1TimeToLive := col_rs1TimeToLive new;
       col_rs2 := col_rs2 new;
       col_rs2LastUsed := col_rs2LastUsed new;
       col_rs2TimeToLive := col_rs2TimeToLive new;
       col_mitmKey := col_mitmKey new;
       col_mitmLastUsed := col_mitmLastUsed new;
       col_secureSince := col_secureSince new;
       col_preshCounter := col_preshCounter new |}
  else row.

(** One step of the compiled [updateZrtpIdRemote]; no matching row is not
    an error. *)
Definition step_updateZrtpIdRemote (db : sqlite3) (new : zrtpIdRemote_row)
  : Z * sqlite3 :=
  (SQLITE_DONE,
   {| zrtpIdOwn := zrtpIdOwn db;
      zrtpIdRemote :=
        Some (map (set_zrtpIdRemote new) (table (zrtpIdRemote db)));
      zrtpNames := zrtpNames db |}).

(** [ORDER BY secureSince DESC] compares the stored column: integers by
    value, NULL below every integer.  Rows with equal keys stay in rowid
    order here (the engine leaves their order open). *)
Definition secureSince_le (a b : option Z) : bool :=
  match a, b with
  | None, _ => true
  | Some _, None => false
  | Some x, Some y => x <=? y
  end.

(** [a] may stand before [b] in the sorted result. *)
Definition sorts_before (a b : zrtpIdRemote_row) : Prop :=
  secureSince_le (col_secureSince b) (col_secureSince a) = true.

Fixpoint insert_desc (row : zrtpIdRemote_row) (sorted : list zrtpIdRemote_row)
  : list zrtpIdRemote_row :=
  match sorted with
  | [] => [row]
  | h :: t =>
      if secureSince_le (col_secureSince h) (col_secureSince row)
      then row :: h :: t
      else h :: insert_desc row t
  end.

Definition ORDER_BY_secureSince_DESC (rows : list zrtpIdRemote_row)
  : list zrtpIdRemote_row :=
  fold_right insert_desc [] rows.

(** The compiled [selectZrtpIdRemoteAllNoCondition]: before its first
    step it holds no rows; the first step sorts the table and the
    statement then hands out the sorted rows one by one. *)
Record sqlite3_stmt := { pending : option (list zrtpIdRemote_row) }.

(** Whether the statement behind a handle is active: the handle is not
    null and the statement was stepped to a row.  (A statement that
    reaches its end is finalized by [readNextZidRecord], which then
    returns the null handle.) *)
Definition sqlite3_stmt_busy (vstmt : option sqlite3_stmt) : bool :=
  match vstmt with
  | Some stmt => is_some (pending stmt)
  | None => false
  end.

Definition step_selectZrtpIdRemoteAllNoCondition
    (db : sqlite3) (stmt : sqlite3_stmt)
  : Z * sqlite3_stmt * option zrtpIdRemote_row :=
  let next (sorted : list zrtpIdRemote_row) :=
    match sorted with
    | row :: rest => (SQLITE_ROW, {| pending := Some rest |}, Some row)
    | [] => (SQLITE_DONE, {| pending := Some [] |}, None)
    end in
  match pending stmt with
  | Some sorted => next sorted
  | None =>
      match zrtpIdRemote db with
      | Some rows => next (ORDER_BY_secureSince_DESC rows)
      | None => (SQLITE_ERROR, stmt, None)
      end
  end.

(** [WHERE type = ?1 AND accountInfo = ?2], result column [localZid]. *)
Definition step_selectZrtpIdOwn (db : sqlite3) (p1 : Z) (p2 : string)
  : list string :=
  map own_localZid
    (filter (fun row => (own_type row =? p1)
                        && String.eqb (own_accountInfo row) p2)
            (table (zrtpIdOwn db))).

Definition step_insertZrtpIdOwn (db : sqlite3) (p1 : string) (p2 : Z)
    (p3 : string) : Z * sqlite3 :=
  (SQLITE_DONE,
   {| zrtpIdOwn :=
        Some (table (zrtpIdOwn db)
              ++ [{| own_localZid := p1; own_type := p2;
                     own_accountInfo := p3 |}]);
      zrtpIdRemote := zrtpIdRemote db;
      zrtpNames := zrtpNames db |}).

(** [WHERE remoteZid=?1 AND localZid=?2 AND accountInfo=?3] *)
Definition names_key (p1 p2 p3 : string) (row : zrtpNames_row) : bool :=
  String.eqb (nm_remoteZid row) p1 && String.eqb (nm_localZid row) p2
  && String.eqb (nm_accountInfo row) p3.

(** The column values [insertZrtpNames] and [updateZrtpNames] compute
    from their six parameters. *)
Definition values_zrtpNames (p1 p2 p3 : string) (p4 p5 : Z) (p6 : string)
  : zrtpNames_row :=
  {| nm_remoteZid := p1;
     nm_localZid := p2;
     nm_flags := p4;
     nm_lastUpdate := strftime_s_unixepoch (Some p5);
     nm_accountInfo := p3;
     nm_name := p6 |}.

Definition step_insertZrtpNames (db : sqlite3) (row : zrtpNames_row)
  : Z * sqlite3 :=
  (SQLITE_DONE,
   {| zrtpIdOwn := zrtpIdOwn db;
      zrtpIdRemote := zrtpIdRemote db;
      zrtpNames := Some (table (zrtpNames db) ++ [row]) |}).

(** What [updateZrtpNames] does to one row: flags, lastUpdate and name of
    a row that matches the WHERE clause are set. *)
Definition set_zrtpNames (new row : zrtpNames_row) : zrtpNames_row :=
  if names_key (nm_remoteZid new) (nm_localZid new) (nm_accountInfo new) row
  then
    {| nm_remoteZid := nm_remoteZid row;
       nm_localZid := nm_localZid row;
       nm_flags := nm_flags new;
       nm_lastUpdate := nm_lastUpdate new;
       nm_accountInfo := nm_accountInfo row;
       nm_name := nm_name new |}
  else row.

Definition step_updateZrtpNames (db : sqlite3) (new : zrtpNames_row)
  : Z * sqlite3 :=
  (SQLITE_DONE,
   {| zrtpIdOwn := zrtpIdOwn db;
      zrtpIdRemote := zrtpIdRemote db;
      zrtpNames := Some (map (set_zrtpNames new) (table (zrtpNames db))) |}).

(** Rows stepped through by [selectZrtpNames] with ?1, ?2 and ?3 bound.
    Its result columns are flags, strftime('%s', lastUpdate, 'unixepoch')
    and name. *)
Definition step_selectZrtpNames (db : sqlite3) (p1 p2 p3 : string)
  : list zrtpNames_row :=
  filter (names_key p1 p2 p3) (table (zrtpNames db)).

(** [sqlite3_column_bytes] on a text column: the number of bytes of the
    text. *)
Definition sqlite3_column_bytes (text : string) : Z :=
  Z.of_nat (String.length text).

(* ------------------------------------------------------------------ *)
(** ** Schema manager *)

(** The three functions below run on the caller's connection; [busy]
    says whether a statement of that connection is active (an
    enumeration cursor that has returned a row and was neither drained
    nor closed). *)
Definition initializeRemoteTables (db : sqlite3) (busy : bool)
    (errString : bool) : Z * sqlite3 * option message :=
  (* First drop them; errors are ignored. *)
  let '(_, stmt) := SQLITE_PREPARE db dropZrtpIdRemote in
  let '(_, db) := sqlite3_step db busy stmt in
  let '(_, stmt) := SQLITE_PREPARE db dropZrtpNames in
  let '(_, db) := sqlite3_step db busy stmt in
  let '(rc, stmt) := SQLITE_PREPARE db createZrtpIdRemote in
  if negb (rc =? SQLITE_OK) then (rc, db, ERRMSG errString rc) else
  let '(rc, db) := sqlite3_step db busy stmt in
  if negb (rc =? SQLITE_DONE) then (rc, db, ERRMSG errString rc) else
  let '(rc, stmt) := SQLITE_PREPARE db createZrtpNames in
  if negb (rc =? SQLITE_OK) then (rc, db, ERRMSG errString rc) else
  let '(rc, db) := sqlite3_step db busy stmt in
  if negb (rc =? SQLITE_DONE) then (rc, db, ERRMSG errString rc) else
  (0, db, None).

Definition createTables (db : sqlite3) (busy : bool) (errString : bool)
  : Z * sqlite3 * option message :=
  let '(rc, stmt) := SQLITE_PREPARE db createZrtpIdOwn in
  if negb (rc =? SQLITE_OK) then (rc, db, ERRMSG errString rc) else
  let '(rc, db) := sqlite3_step db busy stmt in
  if negb (rc =? SQLITE_DONE) then (rc, db, ERRMSG errString rc) else
  initializeRemoteTables db busy errString.

(** [openCache]: [db] is the database the named file holds.  The
    connection is the one [sqlite3_open_v2] has just made, so no
    statement of it is active. *)
Definition openCache (db : sqlite3) (errString : bool)
  : Z * sqlite3 * option message :=
  let '(rc, stmt) := SQLITE_PREPARE db lookupTables in
  if negb (rc =? SQLITE_OK) then (rc, db, ERRMSG errString rc) else
  let '(rc, db) := sqlite3_step db false stmt in
  let found := if rc =? SQLITE_ROW then 1 else 0 in
  if negb (rc =? SQLITE_ROW) && negb (rc =? SQLITE_DONE)
  then (rc, db, ERRMSG errString rc) else
  (* table zrtpIdOwn not found: an empty cache *)
  if found =? 0 then
    let '(rc, db, msg) := createTables db false errString in
    if negb (rc =? 0) then (rc, db, msg) else (SQLITE_OK, db, msg)
  else (SQLITE_OK, db, None).

Definition closeCache (db : sqlite3) : Z := SQLITE_OK.

Definition clearCache (db : sqlite3) (busy : bool) (errString : bool)
  : Z * sqlite3 * option message :=
  let '(_, stmt) := SQLITE_PREPARE db dropZrtpIdOwn in
  let '(_, db) := sqlite3_step db busy stmt in
  let '(rc, db, msg) := createTables db busy errString in
  if negb (rc =? 0) then (rc, db, msg) else (SQLITE_OK, db, msg).

(* ------------------------------------------------------------------ *)
(** ** Peer-secret store *)

(** The parameters both [insertRemoteZidRecord] and
    [updateRemoteZidRecord] bind: [sqlite3_bind_text] for the two keys,
    [sqlite3_bind_int] for flags and counter, [sqlite3_bind_blob] with
    [RS_LENGTH] bytes for the secrets, [sqlite3_bind_int64] for the
    timestamps. *)
Definition bind_remoteZidRecord (b64RemoteZid b64LocalZid : string)
    (remZid : remoteZidRecord_t) : zrtpIdRemote_row :=
  values_zrtpIdRemote
    b64RemoteZid
    (to_int (flags remZid))
    (firstn RS_LENGTH (rs1 remZid))
    (rs1LastUse remZid)
    (rs1Ttl remZid)
    (firstn RS_LENGTH (rs2 remZid))
    (rs2LastUse remZid)
    (rs2Ttl remZid)
    (firstn RS_LENGTH (mitmKey remZid))
    (mitmLastUse remZid)
    (secureSince remZid)
    b64LocalZid
    (to_int (preshCounter remZid)).

Definition insertRemoteZidRecord (db : sqlite3)
    (remoteZid localZid : list byte) (remZid : remoteZidRecord_t)
    (errString : bool) : Z * sqlite3 * option message :=
  let b64RemoteZid := b64Encode remoteZid IDENTIFIER_LEN in
  let b64LocalZid := b64Encode localZid IDENTIFIER_LEN in
  let '(rc, stmt) := SQLITE_PREPARE db insertZrtpIdRemote in
  if negb (rc =? SQLITE_OK) then (rc, db, ERRMSG errString rc) else
  let '(rc, db') :=
    step_insertZrtpIdRemote db
      (bind_remoteZidRecord b64RemoteZid b64LocalZid remZid) in
  if negb (rc =? SQLITE_DONE) then (rc, db', ERRMSG errString rc) else
  (SQLITE_OK, db', None).

Definition updateRemoteZidRecord (db : sqlite3)
    (remoteZid localZid : list byte) (remZid : remoteZidRecord_t)
    (errString : bool) : Z * sqlite3 * option message :=
  let b64RemoteZid := b64Encode remoteZid IDENTIFIER_LEN in
  let b64LocalZid := b64Encode localZid IDENTIFIER_LEN in
  let '(rc, stmt) := SQLITE_PREPARE db updateZrtpIdRemote in
  if negb (rc =? SQLITE_OK) then (rc, db, ERRMSG errString rc) else
  let '(rc, db') :=
    step_updateZrtpIdRemote db
      (bind_remoteZidRecord b64RemoteZid b64LocalZid remZid) in
  if negb (rc =? SQLITE_DONE) then (rc, db', ERRMSG errString rc) else
  (SQLITE_OK, db', None).

(** The assignments made for one result row: columns 0 to 10 of
    [selectZrtpIdRemoteAll], the timestamps read through
    [strftime('%s', column, 'unixepoch')].  The identifier is not
    assigned. *)
Definition column_remoteZidRecord (row : zrtpIdRemote_row)
    (remZid : remoteZidRecord_t) : remoteZidRecord_t :=
  {| identifier := identifier remZid;
     flags := to_uint32 (sqlite3_column_int (col_flags row));
     rs1 := memcpy (col_rs1 row) RS_LENGTH;
     rs1LastUse :=
       sqlite3_column_int64 (strftime_s_unixepoch (col_rs1LastUsed row));
     rs1Ttl :=
       sqlite3_column_int64 (strftime_s_unixepoch (col_rs1TimeToLive row));
     rs2 := memcpy (col_rs2 row) RS_LENGTH;
     rs2LastUse :=
       sqlite3_column_int64 (strftime_s_unixepoch (col_rs2LastUsed row));
     rs2Ttl :=
       sqlite3_column_int64 (strftime_s_unixepoch (col_rs2TimeToLive row));
     mitmKey := memcpy (col_mitmKey row) RS_LENGTH;
     mitmLastUse :=
       sqlite3_column_int64 (strftime_s_unixepoch (col_mitmLastUsed row));
     secureSince :=
       sqlite3_column_int64 (strftime_s_unixepoch (col_secureSince row));
     preshCounter := to_uint32 (sqlite3_column_int (col_preshCounter row)) |}.

(** [remZid->flags = f] *)
Definition set_flags (remZid : remoteZidRecord_t) (f : Z)
  : remoteZidRecord_t :=
  {| identifier := identifier remZid;
     flags := f;
     rs1 := rs1 remZid;
     rs1LastUse := rs1LastUse remZid;
     rs1Ttl := rs1Ttl remZid;
     rs2 := rs2 remZid;
     rs2LastUse := rs2LastUse remZid;
     rs2Ttl := rs2Ttl remZid;
     mitmKey := mitmKey remZid;
     mitmLastUse := mitmLastUse remZid;
     secureSince := secureSince remZid;
     preshCounter := preshCounter remZid |}.

(** The [while] loop over the result rows: every row overwrites the
    caller's record and is counted.  The row count is kept as an
    unbounded integer. *)
Definition scan_remoteZidRecord (rows : list zrtpIdRemote_row)
    (remZid : remoteZidRecord_t) : remoteZidRecord_t * Z :=
  fold_left
    (fun (st : remoteZidRecord_t * Z) row =>
       (column_remoteZidRecord row (fst st), snd st + 1))
    rows (remZid, 0).

(** [readRemoteZidRecord]: the result code, the caller's record as the
    call leaves it, and the message written.  The loop ends on
    [SQLITE_DONE]. *)
Definition readRemoteZidRecord (db : sqlite3)
    (remoteZid localZid : list byte) (remZid : remoteZidRecord_t)
    (errString : bool) : Z * remoteZidRecord_t * option message :=
  let b64RemoteZid := b64Encode remoteZid IDENTIFIER_LEN in
  let b64LocalZid := b64Encode localZid IDENTIFIER_LEN in
  let '(rc, stmt) := SQLITE_PREPARE db selectZrtpIdRemoteAll in
  if negb (rc =? SQLITE_OK) then (rc, remZid, ERRMSG errString rc) else
  let '(remZid, found) :=
    scan_remoteZidRecord
      (step_selectZrtpIdRemoteAll db b64RemoteZid b64LocalZid) remZid in
  if found =? 0 then (SQLITE_OK, set_flags remZid 0, None)
  else if 1 <? found then
    (1, remZid, snprintf errString (More_than_one_remote_ZID found))
  else (SQLITE_OK, remZid, None).

(* ------------------------------------------------------------------ *)
(** ** Own-identity store *)

(** Modelled from the spec: [randomZRTP] of crypto/zrtpDH.h, the external
    random generator.  Its state is the sequence of bytes it is going to
    deliver and the number delivered so far. *)
Record random_state := {
  entropy : nat -> byte;
  drawn : nat
}.

Definition randomZRTP (g : random_state) (length : nat)
  : list byte * random_state :=
  (map (entropy g) (seq (drawn g) length),
   {| entropy := entropy g; drawn := (drawn g + length)%nat |}).

(** Writing [data] to the start of the buffer [buf], an array of the
    caller.  Data longer than the array is written past its end, for
    which C defines no behaviour: [None]. *)
Definition store (data buf : list byte) : option (list byte) :=
  if (List.length data <=? List.length buf)%nat
  then Some (data ++ skipn (List.length data) buf)
  else None.

(** The loop of [readLocalZid]: only the first row is decoded into
    [localZid], every row is counted.  [None] when the decoder raises or
    writes past the end of [localZid] ([b64Decode] does not look at the
    size it is given). *)
Definition scan_localZid (rows : list string) (localZid : list byte)
  : option (list byte * Z) :=
  fold_left
    (fun (st : option (list byte * Z)) zidBase64Text =>
       match st with
       | None => None
       | Some (localZid, found) =>
           if found =? 0 then
             match b64Decode zidBase64Text with
             | Some bin =>
                 match store bin localZid with
                 | Some localZid => Some (localZid, found + 1)
                 | None => None
                 end
             | None => None
             end
           else Some (localZid, found + 1)
       end)
    rows (Some (localZid, 0)).

(** [readLocalZid]: result code, database, generator, the [localZid]
    buffer and the message written; [None] when the base64 decoder
    raises or a write leaves the [localZid] buffer. *)
Definition readLocalZid (db : sqlite3) (g : random_state)
    (localZid : list byte) (accountInfo : option string) (errString : bool)
  : option (Z * sqlite3 * random_state * list byte * option message) :=
  let '(accountInfo, type) :=
    match accountInfo with
    | None => (defaultAccountString, localZidStandard)
    | Some a =>
        if String.eqb a defaultAccountString
        then (defaultAccountString, localZidStandard)
        else (a, localZidWithAccount)
    end in
  let '(rc, stmt) := SQLITE_PREPARE db selectZrtpIdOwn in
  if negb (rc =? SQLITE_OK)
  then Some (rc, db, g, localZid, ERRMSG errString rc) else
  match scan_localZid (step_selectZrtpIdOwn db type accountInfo) localZid with
  | None => None
  | Some (localZid, found) =>
      if found =? 0 then
        (* create a 12 byte random value, convert to base 64, insert *)
        let '(rnd, g) := randomZRTP g IDENTIFIER_LEN in
        match store rnd localZid with
        | None => None
        | Some localZid =>
            let b64zid := b64Encode localZid IDENTIFIER_LEN in
            let '(rc, stmt) := SQLITE_PREPARE db insertZrtpIdOwn in
            if negb (rc =? SQLITE_OK)
            then Some (rc, db, g, localZid, ERRMSG errString rc) else
            let '(rc, db) :=
              step_insertZrtpIdOwn db b64zid type accountInfo in
            if negb (rc =? SQLITE_DONE)
            then Some (rc, db, g, localZid, ERRMSG errString rc)
            else Some (SQLITE_OK, db, g, localZid, None)
        end
      else if 1 <? found then
        Some (1, db, g, localZid,
              snprintf errString (Matching_local_ZID found accountInfo))
      else Some (SQLITE_OK, db, g, localZid, None)
  end.

(* ------------------------------------------------------------------ *)
(** ** Peer-name store *)

(** The parameters [insertZidNameRecord] and [updateZidNameRecord] bind;
    [now] is what [time(nullptr)] returns during the call. *)
Definition bind_zidNameRecord (b64RemoteZid b64LocalZid : string)
    (accountInfo : string) (zidName : zidNameRecord_t) (now : Z)
  : zrtpNames_row :=
  values_zrtpNames b64RemoteZid b64LocalZid accountInfo
    (to_int (nameFlags zidName))
    now
    (match name zidName with
     | Some n => n
     | None => "_NO_NAME_"%string
     end).

Definition insertZidNameRecord (db : sqlite3) (now : Z)
    (remoteZid localZid : list byte) (accountInfo : option string)
    (zidName : zidNameRecord_t) (errString : bool)
  : Z * sqlite3 * option message :=
  let accountInfo :=
    match accountInfo with
    | None => defaultAccountString
    | Some a => a
    end in
  let b64RemoteZid := b64Encode remoteZid IDENTIFIER_LEN in
  let b64LocalZid := b64Encode localZid IDENTIFIER_LEN in
  let '(rc, stmt) := SQLITE_PREPARE db insertZrtpNames in
  if negb (rc =? SQLITE_OK) then (rc, db, ERRMSG errString rc) else
  let '(rc, db') :=
    step_insertZrtpNames db
      (bind_zidNameRecord b64RemoteZid b64LocalZid accountInfo zidName now) in
  if negb (rc =? SQLITE_DONE) then (rc, db', ERRMSG errString rc) else
  (SQLITE_OK, db', None).

Definition updateZidNameRecord (db : sqlite3) (now : Z)
    (remoteZid localZid : list byte) (accountInfo : option string)
    (zidName : zidNameRecord_t) (errString : bool)
  : Z * sqlite3 * option message :=
  let accountInfo :=
    match accountInfo with
    | None => defaultAccountString
    | Some a => a
    end in
  let b64RemoteZid := b64Encode remoteZid IDENTIFIER_LEN in
  let b64LocalZid := b64Encode localZid IDENTIFIER_LEN in
  let '(rc, stmt) := SQLITE_PREPARE db updateZrtpNames in
  if negb (rc =? SQLITE_OK) then (rc, db, ERRMSG errString rc) else
  let '(rc, db') :=
    step_updateZrtpNames db
      (bind_zidNameRecord b64RemoteZid b64LocalZid accountInfo zidName now) in
  if negb (rc =? SQLITE_DONE) then (rc, db', ERRMSG errString rc) else
  (SQLITE_OK, db', None).

(** A char array in memory is the list of its bytes.  What C reads from
    it as a string are the characters before the first NUL. *)
Fixpoint c_str (mem : list ascii) : list ascii :=
  match mem with
  | [] => []
  | c :: rest => if Ascii.eqb c zero then [] else c :: c_str rest
  end.

(** [strncpy(dst, src, n)] writes exactly [n] chars to [dst]: the
    characters of [src] up to its end, then NUL chars; when [src] has [n]
    or more characters, the first [n] of them and no NUL.  The result is
    the array afterwards.  A count the array cannot take (a negative
    [int] is a huge [size_t]) is a write outside it, for which C defines
    no behaviour: [None]. *)
Definition strncpy (dst : list ascii) (src : string) (n : Z)
  : option (list ascii) :=
  if (0 <=? n) && (n <=? Z.of_nat (List.length dst)) then
    let k := Z.to_nat n in
    Some (firstn k (c_str (list_ascii_of_string src) ++ repeat zero k)
          ++ skipn k dst)
  else None.

(** Modelled from the spec: [zidNameRecord_t] of zrtpCacheDbBackend.h as
    [readZidNameRecord] fills it in.  [out_name] is the char array the
    caller's [name] pointer refers to (no bytes for a null pointer),
    [out_nameLength] the [nameLength] field, which the caller sets to the
    size of that array, and [out_flags] the 32-bit flag word. *)
Record zidNameRecord_out := {
  out_name : list ascii;
  out_nameLength : Z;
  out_flags : Z
}.

(** The [while] loop of [readZidNameRecord] over the result rows, with
    the caller's record and the row count so far: every row sets the
    flags, copies [nameLength] chars of the stored name and then sets
    [nameLength] to the length of the stored name; column 1, the
    timestamp, is not read.  [None] when a copy leaves the array. *)
Fixpoint scan_zidNameRecord (rows : list zrtpNames_row)
    (zidName : zidNameRecord_out) (found : Z)
  : option (zidNameRecord_out * Z) :=
  match rows with
  | [] => Some (zidName, found)
  | row :: rows =>
      let flags := to_uint32 (sqlite3_column_int (nm_flags row)) in
      match strncpy (out_name zidName) (nm_name row)
              (out_nameLength zidName) with
      | Some name =>
          scan_zidNameRecord rows
            {| out_name := name;
               out_nameLength := sqlite3_column_bytes (nm_name row);
               out_flags := flags |}
            (found + 1)
      | None => None
      end
  end.

(** [readZidNameRecord]: the result code, the caller's record as the
    call leaves it and the message written; [None] when a copy leaves the
    caller's array. *)
Definition readZidNameRecord (db : sqlite3)
    (remoteZid localZid : list byte) (accountInfo : option string)
    (zidName : zidNameRecord_out) (errString : bool)
  : option (Z * zidNameRecord_out * option message) :=
  let accountInfo :=
    match accountInfo with
    | None => defaultAccountString
    | Some a => a
    end in
  let b64RemoteZid := b64Encode remoteZid IDENTIFIER_LEN in
  let b64LocalZid := b64Encode localZid IDENTIFIER_LEN in
  let '(rc, stmt) := SQLITE_PREPARE db selectZrtpNames in
  if negb (rc =? SQLITE_OK) then Some (rc, zidName, ERRMSG errString rc) else
  match scan_zidNameRecord
          (step_selectZrtpNames db b64RemoteZid b64LocalZid accountInfo)
          zidName 0 with
  | None => None
  | Some (zidName, found) =>
      if found =? 0 then
        Some (SQLITE_OK,
              {| out_name := out_name zidName;
                 out_nameLength := out_nameLength zidName;
                 out_flags := 0 |},
              None)
      else if 1 <? found then
        Some (1, zidName, snprintf errString (More_than_one_ZID_name found))
      else Some (SQLITE_OK, zidName, None)
  end.

(* ------------------------------------------------------------------ *)
(** ** Enumeration cursor *)

Definition prepareReadAllZid (db : sqlite3) (errString : bool)
  : option sqlite3_stmt * option message :=
  let '(rc, stmt) := SQLITE_PREPARE db selectZrtpIdRemoteAllNoCondition in
  if negb (rc =? SQLITE_OK) then (None, ERRMSG errString rc) else
  (Some {| pending := None |}, None).

(** [readNextZidRecord]: the statement handle returned (null at the end
    of the sequence, after the statement was finalized), the caller's
    record and the message written; [None] when the base64 decoder
    raises or writes past the end of the record's identifier array. *)
Definition readNextZidRecord (db : sqlite3) (vstmt : option sqlite3_stmt)
    (remZid : remoteZidRecord_t) (errString : bool)
  : option (option sqlite3_stmt * remoteZidRecord_t * option message) :=
  match vstmt with
  | None => Some (None, remZid, None)
  | Some stmt =>
      match step_selectZrtpIdRemoteAllNoCondition db stmt with
      | (rc, stmt, Some row) =>
          let remZid := column_remoteZidRecord row remZid in
          let zidBase64Text := col_remoteZid row in
          match
            match b64Decode zidBase64Text with
            | Some bin => store bin (identifier remZid)
            | None => None
            end
          with
          | Some id =>
              Some (Some stmt,
                    {| identifier := id;
                       flags := flags remZid;
                       rs1 := rs1 remZid;
                       rs1LastUse := rs1LastUse remZid;
                       rs1Ttl := rs1Ttl remZid;
                       rs2 := rs2 remZid;
                       rs2LastUse := rs2LastUse remZid;
                       rs2Ttl := rs2Ttl remZid;
                       mitmKey := mitmKey remZid;
                       mitmLastUse := mitmLastUse remZid;
                       secureSince := secureSince remZid;
                       preshCounter := preshCounter remZid |},
                    None)
          | None => None
          end
      | (rc, _, None) =>
          Some (None, remZid,
                if negb (rc =? SQLITE_DONE) then ERRMSG errString rc
                else None)
      end
  end.

Definition closeStatement (vstmt : option sqlite3_stmt) : unit := tt.

(* ------------------------------------------------------------------ *)
(** ** Callers' data and cache states *)

(** A record as its C type holds it: 32-bit flags and counter, secrets of
    [RS_LENGTH] bytes. *)
Definition uint32_range (z : Z) : bool := (0 <=? z) && (z <? 2 ^ 32).

Definition wf_remoteZidRecord (r : remoteZidRecord_t) : bool :=
  uint32_range (flags r) && uint32_range (preshCounter r)
  && (List.length (rs1 r) =? RS_LENGTH)%nat
  && (List.length (rs2 r) =? RS_LENGTH)%nat
  && (List.length (mitmKey r) =? RS_LENGTH)%nat.

(** All six timestamps of a record are dates the engine covers. *)
Definition timestamps_valid (r : remoteZidRecord_t) : bool :=
  unixepoch_valid (rs1LastUse r) && unixepoch_valid (rs1Ttl r)
  && unixepoch_valid (rs2LastUse r) && unixepoch_valid (rs2Ttl r)
  && unixepoch_valid (mitmLastUse r) && unixepoch_valid (secureSince r).

(** The record [r] in a buffer whose identifier bytes are [id]. *)
Definition with_identifier (r : remoteZidRecord_t) (id : list byte)
  : remoteZidRecord_t :=
  {| identifier := id;
     flags := flags r;
     rs1 := rs1 r;
     rs1LastUse := rs1LastUse r;
     rs1Ttl := rs1Ttl r;
     rs2 := rs2 r;
     rs2LastUse := rs2LastUse r;
     rs2Ttl := rs2Ttl r;
     mitmKey := mitmKey r;
     mitmLastUse := mitmLastUse r;
     secureSince := secureSince r;
     preshCounter := preshCounter r |}.

(** Most recently secured first. *)
Definition secureSince_desc (a b : remoteZidRecord_t) : Prop :=
  secureSince b <= secureSince a.

(** A keyed record as a caller inserts it: remote identifier, local
    identifier, record. *)
Definition entry : Type := list byte * list byte * remoteZidRecord_t.

(** Identifiers of [IDENTIFIER_LEN] bytes, a record as its C type holds
    it, timestamps the engine covers. *)
Definition entry_ok (en : entry) : bool :=
  let '(remoteZid, localZid, r) := en in
  (List.length remoteZid =? IDENTIFIER_LEN)%nat
  && (List.length localZid =? IDENTIFIER_LEN)%nat
  && wf_remoteZidRecord r && timestamps_valid r.

(** The row an insert stores for an entry, and the record the cursor is
    to give back for it: the record with the remote identifier in its
    identifier field. *)
Definition entry_row (en : entry) : zrtpIdRemote_row :=
  let '(remoteZid, localZid, r) := en in
  bind_remoteZidRecord (b64Encode remoteZid IDENTIFIER_LEN)
    (b64Encode localZid IDENTIFIER_LEN) r.

Definition entry_record (en : entry) : remoteZidRecord_t :=
  let '(remoteZid, _, r) := en in with_identifier r remoteZid.

(** The peer-secret rows a key selects. *)
Definition matching (db : sqlite3) (remoteZid localZid : list byte)
  : list zrtpIdRemote_row :=
  step_selectZrtpIdRemoteAll db
    (b64Encode remoteZid IDENTIFIER_LEN) (b64Encode localZid IDENTIFIER_LEN).

(** The peer-name rows a key selects. *)
Definition names_matching (db : sqlite3) (remoteZid localZid : list byte)
    (accountInfo : option string) : list zrtpNames_row :=
  filter
    (names_key (b64Encode remoteZid IDENTIFIER_LEN)
       (b64Encode localZid IDENTIFIER_LEN)
       (match accountInfo with
        | None => defaultAccountString
        | Some a => a
        end))
    (table (zrtpNames db)).

(** A caller draining the cursor: [readNextZidRecord] is called until it
    returns null, at most [fuel] times, and the records it fills in are
    collected.  [None] when the fuel runs out or the decoder raises. *)
Fixpoint readAllZid (fuel : nat) (db : sqlite3) (vstmt : option sqlite3_stmt)
    (remZid : remoteZidRecord_t) : option (list remoteZidRecord_t) :=
  match fuel with
  | O => None
  | S fuel =>
      match readNextZidRecord db vstmt remZid false with
      | None => None
      | Some (None, _, _) => Some []
      | Some (Some stmt, remZid, _) =>
          match readAllZid fuel db (Some stmt) remZid with
          | Some l => Some (remZid :: l)
          | None => None
          end
      end
  end.

(** A caller inserting a list of keyed records one after the other. *)
Definition insertAll (db : sqlite3) (l : list entry) : sqlite3 :=
  fold_left
    (fun db (en : entry) =>
       let '(remoteZid, localZid, remZid) := en in
       snd (fst (insertRemoteZidRecord db remoteZid localZid remZid false)))
    l db.

(** A database file without tables, and the database of a cache that was
    just created: three empty tables. *)
Definition blank_database : sqlite3 :=
  {| zrtpIdOwn := None; zrtpIdRemote := None; zrtpNames := None |}.

Definition empty_cache : sqlite3 :=
  {| zrtpIdOwn := Some []; zrtpIdRemote := Some []; zrtpNames := Some [] |}.

(** The (accountInfo, type) pair [readLocalZid] looks a label up under:
    a null label and the default label are the standalone identity. *)
Definition own_key (accountInfo : option string) : string * Z :=
  match accountInfo with
  | None => (defaultAccountString, localZidStandard)
  | Some a =>
      if String.eqb a defaultAccountString
      then (defaultAccountString, localZidStandard)
      else (a, localZidWithAccount)
  end.

(** The identifiers stored for a label, and all identifiers stored. *)
Definition own_matching (db : sqlite3) (accountInfo : option string)
  : list string :=
  step_selectZrtpIdOwn db (snd (own_key accountInfo))
    (fst (own_key accountInfo)).

Definition own_ids (db : sqlite3) : list string :=
  map own_localZid (table (zrtpIdOwn db)).

(** The cache after the identifier [zid] was stored for a label. *)
Definition with_localZid (db : sqlite3) (accountInfo : option string)
    (zid : list byte) : sqlite3 :=
  snd (step_insertZrtpIdOwn db (b64Encode zid IDENTIFIER_LEN)
         (snd (own_key accountInfo)) (fst (own_key accountInfo))).

(** The text of an identifier of [IDENTIFIER_LEN] bytes. *)
Definition zid_text (t : string) : Prop :=
  exists zid,
    List.length zid = IDENTIFIER_LEN /\ t = b64Encode zid IDENTIFIER_LEN.

(** The own-identity table as the backend keeps it: the table is there,
    no label has more than one identifier, and every stored text encodes
    an identifier. *)
Definition own_wf (db : sqlite3) : Prop :=
  is_some (zrtpIdOwn db) = true
  /\ (forall accountInfo,
        (List.length (own_matching db accountInfo) <= 1)%nat)
  /\ Forall zid_text (own_ids db).

(** The next identifier, and the next [n] identifiers, the generator is
    going to deliver. *)
Definition next_draw (g : random_state) : list byte :=
  fst (randomZRTP g IDENTIFIER_LEN).

Fixpoint draws (g : random_state) (n : nat) : list (list byte) :=
  match n with
  | O => []
  | S n => next_draw g :: draws (snd (randomZRTP g IDENTIFIER_LEN)) n
  end.

(** The generator is fresh for a cache: the identifiers the cache holds
    and the next [n] identifiers the generator delivers are pairwise
    distinct.  The backend does not check this: it never compares an
    identifier it has drawn with another one. *)
Definition fresh (db : sqlite3) (g : random_state) (n : nat) : Prop :=
  NoDup (own_ids db
         ++ map (fun zid => b64Encode zid IDENTIFIER_LEN) (draws g n)).

(* ------------------------------------------------------------------ *)
(** ** Callers' data: any timestamps, names *)

(** What a keyed read returns for a timestamp that was written: the
    timestamp when the engine's dates cover it, 0 otherwise. *)
Definition read_back (t : Z) : Z := if unixepoch_valid t then t else 0.

(** The record [r] with each of its six timestamps as it is read
    back. *)
Definition read_back_record (r : remoteZidRecord_t) : remoteZidRecord_t :=
  {| identifier := identifier r;
     flags := flags r;
     rs1 := rs1 r;
     rs1LastUse := read_back (rs1LastUse r);
     rs1Ttl := read_back (rs1Ttl r);
     rs2 := rs2 r;
     rs2LastUse := read_back (rs2LastUse r);
     rs2Ttl := read_back (rs2Ttl r);
     mitmKey := mitmKey r;
     mitmLastUse := read_back (mitmLastUse r);
     secureSince := read_back (secureSince r);
     preshCounter := preshCounter r |}.

(** A keyed record as the C types hold it: identifiers of
    [IDENTIFIER_LEN] bytes and a record with 32-bit flags and counter
    and secrets of [RS_LENGTH] bytes; its timestamps are any 64-bit
    values. *)
Definition entry_wf (en : entry) : bool :=
  let '(remoteZid, localZid, r) := en in
  (List.length remoteZid =? IDENTIFIER_LEN)%nat
  && (List.length localZid =? IDENTIFIER_LEN)%nat
  && wf_remoteZidRecord r.

(** The record the cursor gives back for an entry: its timestamps as
    they are read back, the remote identifier in its identifier field. *)
Definition entry_read_back (en : entry) : remoteZidRecord_t :=
  let '(remoteZid, _, r) := en in
  with_identifier (read_back_record r) remoteZid.

(** The order of the cursor on entries: an entry whose secure-since
    timestamp the engine's dates cover stands before every entry with a
    smaller or equal such timestamp and before every entry whose
    timestamp they do not cover. *)
Definition cursor_order (a b : entry) : Prop :=
  if unixepoch_valid (secureSince (snd a))
  then if unixepoch_valid (secureSince (snd b))
       then secureSince (snd b) <= secureSince (snd a)
       else True
  else unixepoch_valid (secureSince (snd b)) = false.

(** The name an insert or update stores for a record: the caller's
    string, or "_NO_NAME_" for a null pointer. *)
Definition name_text (zidName : zidNameRecord_t) : string :=
  match name zidName with
  | Some n => n
  | None => "_NO_NAME_"%string
  end.

(** The account label the name store keys by: "_STANDARD_" for a null
    pointer. *)
Definition names_account (accountInfo : option string) : string :=
  match accountInfo with
  | None => defaultAccountString
  | Some a => a
  end.

(* ------------------------------------------------------------------ *)
(** ** Sample data *)

Definition zid_alice : list byte :=
  [x00; x01; x02; x03; xff; xfe; x10; x20; x30; x40; x50; x61].
Definition zid_bob : list byte :=
  [x42; x6f; x62; x27; x73; x20; x5a; x49; x44; x00; x00; x01].
Definition zid_carol : list byte :=
  [x43; x61; x72; x6f; x6c; x20; x5a; x49; x44; x00; x00; x02].
Definition zid_local : list byte :=
  [x4c; x6f; x63; x61; x6c; x20; x5a; x49; x44; x99; x98; x97].

(** A record with flags [f] whose six timestamps are all [t]. *)
Definition sample_record (f t : Z) : remoteZidRecord_t :=
  {| identifier := repeat x00 IDENTIFIER_LEN;
     flags := f;
     rs1 := repeat x11 RS_LENGTH;
     rs1LastUse := t;
     rs1Ttl := t;
     rs2 := repeat x22 RS_LENGTH;
     rs2LastUse := t;
     rs2Ttl := t;
     mitmKey := repeat x33 RS_LENGTH;
     mitmLastUse := t;
     secureSince := t;
     preshCounter := 7 |}.

(** Three entries under distinct keys, secured at 1600000000, 1700000000
    and 1800000000. *)
Definition entry_alice : entry :=
  (zid_alice, zid_local, sample_record 1 1600000000).
Definition entry_bob : entry :=
  (zid_bob, zid_local, sample_record 2 1700000000).
Definition entry_carol : entry :=
  (zid_carol, zid_local, sample_record 3 1800000000).

(** An entry secured one second past 9999-12-31 23:59:59. *)
Definition entry_far : entry :=
  (zid_carol, zid_local, sample_record 3 253402300800).

(** A cache in which one key was inserted twice. *)
Definition cache_with_duplicate : sqlite3 :=
  insertAll empty_cache
    [(zid_alice, zid_local, sample_record 1 1700000000);
     (zid_alice, zid_local, sample_record 3 1700000500)].

(** A cache holding one record for alice and one for bob. *)
Definition cache_alice_bob : sqlite3 :=
  insertAll empty_cache
    [(zid_alice, zid_local, sample_record 1 1700000000);
     (zid_bob, zid_local, sample_record 3 1700000500)].

Definition sample_name : zidNameRecord_t :=
  {| name := Some "Alice"%string; nameLength := 5; nameFlags := 1 |}.

Definition sample_no_name : zidNameRecord_t :=
  {| name := None; nameLength := 0; nameFlags := 0 |}.

(** A generator whose n-th identifier is twelve times the byte n. *)
Definition counting_generator : random_state :=
  {| entropy := fun i => Base64.uint8 (N.of_nat (i / IDENTIFIER_LEN));
     drawn := O |}.

(** A generator that delivers the byte 0 forever. *)
Definition constant_generator : random_state :=
  {| entropy := fun _ => x00; drawn := O |}.

(** A record whose last-used timestamps are dates the engine covers and
    whose time-to-live and secure-since timestamps are not. *)
Definition record_never_expires : remoteZidRecord_t :=
  {| identifier := repeat x00 IDENTIFIER_LEN;
     flags := 4294967295;
     rs1 := repeat x11 RS_LENGTH;
     rs1LastUse := 1700000000;
     rs1Ttl := 9223372036854775807;
     rs2 := repeat x22 RS_LENGTH;
     rs2LastUse := 1700000000;
     rs2Ttl := 9223372036854775807;
     mitmKey := repeat x33 RS_LENGTH;
     mitmLastUse := 0;
     secureSince := -210866760001;
     preshCounter := 7 |}.

(** A cache in which two identifiers are stored for the standalone
    label, as two processes leave it that both found none. *)
Definition cache_two_identities : sqlite3 :=
  with_localZid (with_localZid empty_cache None zid_alice) None zid_bob.

(** A database that has the own-identity table and the name table but
    no peer-secret table. *)
Definition cache_without_peer_tables : sqlite3 :=
  {| zrtpIdOwn := Some []; zrtpIdRemote := None; zrtpNames := Some [] |}.

(** A caller's name record over an array of [n] chars all set to 'x',
    with [nameLength] set to [n] and flags 0. *)
Definition name_buffer (n : nat) : zidNameRecord_out :=
  {| out_name := repeat "x"%char n;
     out_nameLength := Z.of_nat n;
     out_flags := 0 |}.

(** A name cache holding "Alice" for (alice, local) under the default
    label, and one holding two rows for that key. *)
Definition cache_with_name : sqlite3 :=
  snd (fst (insertZidNameRecord empty_cache 1700000000 zid_alice zid_local
              None sample_name false)).

(** A cache holding the records of alice and bob and the name "Alice"
    for (alice, local). *)
Definition cache_peers_and_name : sqlite3 :=
  snd (fst (insertZidNameRecord cache_alice_bob 1700000000 zid_alice zid_local
              None sample_name false)).

Definition cache_with_two_names : sqlite3 :=
  snd (fst (insertZidNameRecord cache_with_name 1700000100 zid_alice
              zid_local None
              {| name := Some "Alice Liddell"%string; nameLength := 13;
                 nameFlags := 2 |}
              false)).

(* ------------------------------------------------------------------ *)
(** ** Checking a property on every number below a bound *)

Fixpoint all_below (n : nat) (P : N -> bool) : bool :=
  match n with
  | O => true
  | S k => P (N.of_nat k) && all_below k P
  end.

Definition all_below2 (n m : nat) (P : N -> N -> bool) : bool :=
  all_below n (fun x => all_below m (P x)).

(* ================================================================== *)
(** * Properties *)

(** ** Encoding layer *)

Module Base64Facts.
Import Base64.
Local Open Scope N_scope.

Lemma all_below_spec (n : nat) (P : N -> bool) :
  all_below n P = true -> forall x, x < N.of_nat n -> P x = true.
Proof.
  induction n as [|k IH]; intros H x Hx.
  - lia.
  - cbn [all_below] in H. apply andb_true_iff in H as [Hk Hrest].
    destruct (N.eq_dec x (N.of_nat k)) as [->|Hne]; [exact Hk|].
    apply IH; [exact Hrest|lia].
Qed.

Lemma all_below2_spec (n m : nat) (P : N -> N -> bool) :
  all_below2 n m P = true ->
  forall x y, x < N.of_nat n -> y < N.of_nat m -> P x y = true.
Proof.
  intros H x y Hx Hy. unfold all_below2 in H.
  apply (all_below_spec m (P x)); [|exact Hy].
  apply (all_below_spec n (fun x => all_below m (P x))); assumption.
Qed.

Lemma lookup_roundtrip x :
  x < 64 -> lookup_binary_value (lookup_base64_char x) = Some x.
Proof.
  intros Hx.
  pose (P := fun x => match lookup_binary_value (lookup_base64_char x) with
                      | Some y => N.eqb y x
                      | None => false
                      end).
  assert (HP : P x = true).
  { apply (all_below_spec 64); [vm_compute; reflexivity|exact Hx]. }
  unfold P in HP.
  destruct (lookup_binary_value (lookup_base64_char x)); [|discriminate].
  apply N.eqb_eq in HP. now subst.
Qed.

Lemma lookup_pad : lookup_binary_value pad = None.
Proof. reflexivity. Qed.

Lemma sextets_bounded i0 i1 i2 :
  i0 < 256 -> i1 < 256 -> i2 < 256 ->
  let '(b0, b1, b2, b3) := sextets i0 i1 i2 in
  b0 < 64 /\ b1 < 64 /\ b2 < 64 /\ b3 < 64.
Proof.
  intros H0 H1 H2. unfold sextets. repeat split.
  - apply N.ltb_lt.
    apply (all_below_spec 256
             (fun i => N.shiftr (N.land i 252) 2 <? 64));
      [vm_compute; reflexivity|exact H0].
  - apply N.ltb_lt.
    apply (all_below2_spec 256 256
             (fun i j => N.lor (N.shiftl (N.land i 3) 4) (N.shiftr j 4)
                         <? 64));
      [vm_compute; reflexivity|exact H0|exact H1].
  - apply N.ltb_lt.
    apply (all_below2_spec 256 256
             (fun i j => N.lor (N.shiftl (N.land i 15) 2) (N.shiftr j 6)
                         <? 64));
      [vm_compute; reflexivity|exact H1|exact H2].
  - apply N.ltb_lt.
    apply (all_below_spec 256 (fun i => N.land i 63 <? 64));
      [vm_compute; reflexivity|exact H2].
Qed.

(** Re-assembling the six-bit groups gives the three bytes back; a
    missing third (or second and third) byte is read as zero by the
    encoder and the decoder alike. *)
Lemma octet0 i0 i1 :
  i0 < 256 -> i1 < 256 ->
  (N.lor (N.shiftl (N.shiftr (N.land i0 252) 2) 2)
         (N.shiftr (N.lor (N.shiftl (N.land i0 3) 4) (N.shiftr i1 4)) 4))
    mod 256 = i0.
Proof.
  intros H0 H1. apply N.eqb_eq.
  apply (all_below2_spec 256 256
    (fun i0 i1 =>
       (N.lor (N.shiftl (N.shiftr (N.land i0 252) 2) 2)
          (N.shiftr (N.lor (N.shiftl (N.land i0 3) 4) (N.shiftr i1 4)) 4))
         mod 256 =? i0));
    [vm_compute; reflexivity|exact H0|exact H1].
Qed.

Lemma octet1_arith d1 d2 :
  d1 < 64 -> d2 < 64 ->
  (N.lor (N.shiftl d1 4) (N.shiftr d2 2)) mod 256
  = (d1 mod 16) * 16 + d2 / 4.
Proof.
  intros H1 H2. apply N.eqb_eq.
  apply (all_below2_spec 64 64
    (fun d1 d2 => (N.lor (N.shiftl d1 4) (N.shiftr d2 2)) mod 256
                  =? (d1 mod 16) * 16 + d2 / 4));
    [vm_compute; reflexivity|exact H1|exact H2].
Qed.

Lemma octet2_arith d2 d3 :
  d2 < 64 -> d3 < 64 ->
  (N.lor (N.shiftl d2 6) d3) mod 256 = (d2 mod 4) * 64 + d3.
Proof.
  intros H2 H3. apply N.eqb_eq.
  apply (all_below2_spec 64 64
    (fun d2 d3 => (N.lor (N.shiftl d2 6) d3) mod 256
                  =? (d2 mod 4) * 64 + d3));
    [vm_compute; reflexivity|exact H2|exact H3].
Qed.

Lemma sextet1_arith i0 i1 :
  i0 < 256 -> i1 < 256 ->
  (N.lor (N.shiftl (N.land i0 3) 4) (N.shiftr i1 4)) mod 16 = i1 / 16.
Proof.
  intros H0 H1. apply N.eqb_eq.
  apply (all_below2_spec 256 256
    (fun i0 i1 =>
       (N.lor (N.shiftl (N.land i0 3) 4) (N.shiftr i1 4)) mod 16
       =? i1 / 16));
    [vm_compute; reflexivity|exact H0|exact H1].
Qed.

Lemma sextet2_arith i1 i2 :
  i1 < 256 -> i2 < 256 ->
  (N.lor (N.shiftl (N.land i1 15) 2) (N.shiftr i2 6)) / 4 = i1 mod 16
  /\ (N.lor (N.shiftl (N.land i1 15) 2) (N.shiftr i2 6)) mod 4 = i2 / 64.
Proof.
  intros H1 H2. split; apply N.eqb_eq.
  - apply (all_below2_spec 256 256
      (fun i1 i2 =>
         (N.lor (N.shiftl (N.land i1 15) 2) (N.shiftr i2 6)) / 4
         =? i1 mod 16));
      [vm_compute; reflexivity|exact H1|exact H2].
  - apply (all_below2_spec 256 256
      (fun i1 i2 =>
         (N.lor (N.shiftl (N.land i1 15) 2) (N.shiftr i2 6)) mod 4
         =? i2 / 64));
      [vm_compute; reflexivity|exact H1|exact H2].
Qed.

Lemma sextet3_arith i2 : i2 < 256 -> N.land i2 63 = i2 mod 64.
Proof.
  intros H2. apply N.eqb_eq.
  apply (all_below_spec 256 (fun i2 => N.land i2 63 =? i2 mod 64));
    [vm_compute; reflexivity|exact H2].
Qed.

Lemma octets_sextets i0 i1 i2 :
  i0 < 256 -> i1 < 256 -> i2 < 256 ->
  let '(b0, b1, b2, b3) := sextets i0 i1 i2 in
  octets b0 b1 b2 b3 = (i0, i1, i2).
Proof.
  intros H0 H1 H2.
  pose proof (sextets_bounded i0 i1 i2 H0 H1 H2) as Hb.
  unfold sextets in *. destruct Hb as (B0 & B1 & B2 & B3).
  unfold octets.
  rewrite (octet0 i0 i1 H0 H1).
  rewrite (octet1_arith _ _ B1 B2), (octet2_arith _ _ B2 B3).
  rewrite (sextet1_arith i0 i1 H0 H1).
  destruct (sextet2_arith i1 i2 H1 H2) as [-> ->].
  rewrite (sextet3_arith i2 H2).
  f_equal; [f_equal|].
  - symmetry. rewrite N.mul_comm. apply N.div_mod. discriminate.
  - symmetry. rewrite N.mul_comm. apply N.div_mod. discriminate.
Qed.

Lemma to_N_lt (b : byte) : Byte.to_N b < 256.
Proof. pose proof (Byte.to_N_bounded b). lia. Qed.

Lemma uint8_to_N (b : byte) : uint8 (Byte.to_N b) = b.
Proof.
  unfold uint8. rewrite N.mod_small by apply to_N_lt.
  now rewrite Byte.of_to_N.
Qed.

Lemma list_ind3 {A} (P : list A -> Prop) :
  P [] -> (forall a, P [a]) -> (forall a b, P [a; b]) ->
  (forall a b c l, P l -> P (a :: b :: c :: l)) ->
  forall l, P l.
Proof.
  intros H0 H1 H2 H3.
  fix IH 1.
  intros [|a [|b [|c l]]];
    [apply H0 | apply H1 | apply H2 | apply H3, IH].
Qed.

Theorem base64_roundtrip (l : list byte) :
  base64_decode (base64_encode l) = Some l.
Proof.
  pattern l. apply list_ind3; clear l;
    [ | intros a | intros a b | intros a b c l IH ].
  - reflexivity.
  - pose proof (sextets_bounded _ 0 0 (to_N_lt a) eq_refl eq_refl) as Hb.
    pose proof (octets_sextets _ 0 0 (to_N_lt a) eq_refl eq_refl) as Ho.
    cbn [base64_encode]. unfold sextets, octets in *.
    destruct Hb as (B0 & B1 & _ & _).
    cbn [base64_decode].
    rewrite (lookup_roundtrip _ B0), (lookup_roundtrip _ B1), lookup_pad.
    cbn [Ascii.eqb pad Bool.eqb andb String.eqb].
    apply (f_equal (fun t => fst (fst t))) in Ho. cbn [fst] in Ho.
    unfold octets. rewrite Ho.
    now rewrite uint8_to_N.
  - pose proof (sextets_bounded _ _ 0 (to_N_lt a) (to_N_lt b) eq_refl)
      as Hb.
    pose proof (octets_sextets _ _ 0 (to_N_lt a) (to_N_lt b) eq_refl)
      as Ho.
    cbn [base64_encode]. unfold sextets, octets in *.
    destruct Hb as (B0 & B1 & B2 & _).
    cbn [base64_decode].
    rewrite (lookup_roundtrip _ B0), (lookup_roundtrip _ B1),
      (lookup_roundtrip _ B2), lookup_pad.
    cbn [Ascii.eqb pad Bool.eqb andb String.eqb].
    pose proof (f_equal (fun t => fst (fst t)) Ho) as E0.
    pose proof (f_equal (fun t => snd (fst t)) Ho) as E1.
    cbn [fst snd] in E0, E1.
    unfold octets. rewrite E0, E1.
    now rewrite !uint8_to_N.
  - pose proof (sextets_bounded _ _ _ (to_N_lt a) (to_N_lt b) (to_N_lt c))
      as Hb.
    pose proof (octets_sextets _ _ _ (to_N_lt a) (to_N_lt b) (to_N_lt c))
      as Ho.
    cbn [base64_encode]. unfold sextets in *.
    destruct Hb as (B0 & B1 & B2 & B3).
    cbn [base64_decode].
    rewrite (lookup_roundtrip _ B0), (lookup_roundtrip _ B1),
      (lookup_roundtrip _ B2), (lookup_roundtrip _ B3).
    rewrite Ho, IH. now rewrite !uint8_to_N.
Qed.

Corollary base64_encode_inj (l l' : list byte) :
  base64_encode l = base64_encode l' -> l = l'.
Proof.
  intros H. apply (f_equal base64_decode) in H.
  rewrite !base64_roundtrip in H. congruence.
Qed.

End Base64Facts.

Lemma b64Encode_full (b : list byte) :
  List.length b = IDENTIFIER_LEN -> b64Encode b IDENTIFIER_LEN
                                    = Base64.base64_encode b.
Proof.
  intros H. unfold b64Encode. rewrite <- H. now rewrite firstn_all.
Qed.

Lemma b64Encode_inj (a b : list byte) :
  List.length a = IDENTIFIER_LEN -> List.length b = IDENTIFIER_LEN ->
  b64Encode a IDENTIFIER_LEN = b64Encode b IDENTIFIER_LEN -> a = b.
Proof.
  intros Ha Hb. rewrite !b64Encode_full by assumption.
  apply Base64Facts.base64_encode_inj.
Qed.


(** C3: for every byte sequence of the identifier length (12 bytes),
    decoding the text that encoding produced gives the sequence back. *)
Theorem b64Decode_b64Encode (b : list byte) :
  List.length b = IDENTIFIER_LEN ->
  b64Decode (b64Encode b IDENTIFIER_LEN) = Some b.
Proof.
  intros H. rewrite b64Encode_full by exact H.
  apply Base64Facts.base64_roundtrip.
Qed.

Lemma b64Decode_b64Encode_witness :
  List.length zid_alice = IDENTIFIER_LEN
  /\ b64Encode zid_alice IDENTIFIER_LEN = "AAECA//+ECAwQFBh"%string
  /\ b64Decode (b64Encode zid_alice IDENTIFIER_LEN) = Some zid_alice.
Proof.
  split; [reflexivity|]. split; [reflexivity|].
  apply (b64Decode_b64Encode zid_alice). reflexivity.
Defined.

(* ------------------------------------------------------------------ *)
(** ** Peer-secret store: one row *)

Lemma to_uint32_column_int (f : Z) :
  uint32_range f = true ->
  to_uint32 (sqlite3_column_int (to_int f)) = f.
Proof.
  unfold uint32_range, to_uint32, sqlite3_column_int, to_int.
  intros H. apply andb_true_iff in H as [H0 H1].
  apply Z.leb_le in H0. apply Z.ltb_lt in H1.
  change (2 ^ 32) with 4294967296 in *. change (2 ^ 31) with 2147483648.
  Z.div_mod_to_equations. lia.
Qed.

Lemma column_strftime_strftime (s : Z) :
  unixepoch_valid s = true ->
  sqlite3_column_int64
    (strftime_s_unixepoch (strftime_s_unixepoch (Some s))) = s.
Proof.
  intros H. cbn [strftime_s_unixepoch]. rewrite H.
  cbn [strftime_s_unixepoch]. now rewrite H.
Qed.

Lemma column_strftime_invalid (s : Z) :
  unixepoch_valid s = false ->
  sqlite3_column_int64
    (strftime_s_unixepoch (strftime_s_unixepoch (Some s))) = 0.
Proof. intros H. cbn [strftime_s_unixepoch]. now rewrite H. Qed.

Lemma memcpy_firstn (b : list byte) :
  List.length b = RS_LENGTH -> memcpy (firstn RS_LENGTH b) RS_LENGTH = b.
Proof.
  intros H. unfold memcpy. rewrite <- H. now rewrite !firstn_all.
Qed.

Lemma wf_remoteZidRecord_spec (r : remoteZidRecord_t) :
  wf_remoteZidRecord r = true ->
  uint32_range (flags r) = true /\ uint32_range (preshCounter r) = true
  /\ List.length (rs1 r) = RS_LENGTH /\ List.length (rs2 r) = RS_LENGTH
  /\ List.length (mitmKey r) = RS_LENGTH.
Proof.
  unfold wf_remoteZidRecord. intros H.
  apply andb_true_iff in H as [H Hm]. apply andb_true_iff in H as [H H2].
  apply andb_true_iff in H as [H H1]. apply andb_true_iff in H as [Hf Hp].
  repeat split; try assumption; now apply Nat.eqb_eq.
Qed.

Lemma timestamps_valid_spec (r : remoteZidRecord_t) :
  timestamps_valid r = true ->
  unixepoch_valid (rs1LastUse r) = true
  /\ unixepoch_valid (rs1Ttl r) = true
  /\ unixepoch_valid (rs2LastUse r) = true
  /\ unixepoch_valid (rs2Ttl r) = true
  /\ unixepoch_valid (mitmLastUse r) = true
  /\ unixepoch_valid (secureSince r) = true.
Proof.
  unfold timestamps_valid. intros H.
  apply andb_true_iff in H as [H T6]. apply andb_true_iff in H as [H T5].
  apply andb_true_iff in H as [H T4]. apply andb_true_iff in H as [H T3].
  apply andb_true_iff in H as [T1 T2].
  repeat split; assumption.
Qed.

(** What is read from the row a record was bound into is the record,
    in the caller's buffer. *)
Lemma column_bind (k1 k2 : string) (r out : remoteZidRecord_t) :
  wf_remoteZidRecord r = true -> timestamps_valid r = true ->
  column_remoteZidRecord (bind_remoteZidRecord k1 k2 r) out
  = with_identifier r (identifier out).
Proof.
  intros Hwf Hts.
  apply wf_remoteZidRecord_spec in Hwf as (Hf & Hp & H1 & H2 & Hm).
  apply timestamps_valid_spec in Hts as (T1 & T2 & T3 & T4 & T5 & T6).
  unfold column_remoteZidRecord, bind_remoteZidRecord, values_zrtpIdRemote,
    with_identifier.
  cbn [col_flags col_rs1 col_rs1LastUsed col_rs1TimeToLive col_rs2
       col_rs2LastUsed col_rs2TimeToLive col_mitmKey col_mitmLastUsed
       col_secureSince col_preshCounter].
  rewrite !to_uint32_column_int by assumption.
  rewrite !memcpy_firstn by assumption.
  rewrite !column_strftime_strftime by assumption.
  reflexivity.
Qed.

Lemma column_buffer (row : zrtpIdRemote_row) (a b : remoteZidRecord_t) :
  identifier a = identifier b ->
  column_remoteZidRecord row a = column_remoteZidRecord row b.
Proof. intros H. unfold column_remoteZidRecord. now rewrite H. Qed.

(** The loop leaves the last row in the caller's record and counts
    them all. *)
Lemma scan_remoteZidRecord_acc rows : forall (st : remoteZidRecord_t * Z),
  let st' :=
    fold_left
      (fun (st : remoteZidRecord_t * Z) row =>
         (column_remoteZidRecord row (fst st), snd st + 1))
      rows st in
  identifier (fst st') = identifier (fst st)
  /\ snd st' = snd st + Z.of_nat (List.length rows).
Proof.
  induction rows as [|row rows IH]; intros st.
  - cbn. split; [reflexivity|lia].
  - cbn [fold_left].
    destruct (IH (column_remoteZidRecord row (fst st), snd st + 1))
      as [Hid Hn].
    cbn zeta in *. rewrite Hid, Hn. cbn [fst snd List.length].
    split; [reflexivity|lia].
Qed.

Lemma scan_remoteZidRecord_last rows row out :
  scan_remoteZidRecord (rows ++ [row]) out
  = (column_remoteZidRecord row out, Z.of_nat (List.length rows) + 1).
Proof.
  unfold scan_remoteZidRecord. rewrite fold_left_app. cbn [fold_left].
  destruct (scan_remoteZidRecord_acc rows (out, 0)) as [Hid Hn].
  cbn zeta in *. cbn [fst snd] in *. rewrite Hn. f_equal.
  apply column_buffer. exact Hid.
Qed.

(* ------------------------------------------------------------------ *)
(** ** Peer-secret store: read, insert, update *)

Section RemoteStore.

Variables (db : sqlite3) (remoteZid localZid : list byte).

Lemma prepare_remote (s : sql) :
  is_some (zrtpIdRemote db) = true ->
  s = selectZrtpIdRemoteAll \/ s = insertZrtpIdRemote
  \/ s = updateZrtpIdRemote \/ s = selectZrtpIdRemoteAllNoCondition ->
  SQLITE_PREPARE db s = (SQLITE_OK, Some s).
Proof.
  intros H [-> | [-> | [-> | ->]]]; cbn; now rewrite H.
Qed.

Lemma readRemoteZidRecord_scan out e :
  is_some (zrtpIdRemote db) = true ->
  readRemoteZidRecord db remoteZid localZid out e
  = let '(remZid, found) :=
      scan_remoteZidRecord (matching db remoteZid localZid) out in
    if found =? 0 then (SQLITE_OK, set_flags remZid 0, None)
    else if 1 <? found then
      (1, remZid, snprintf e (More_than_one_remote_ZID found))
    else (SQLITE_OK, remZid, None).
Proof.
  intros H. unfold readRemoteZidRecord.
  rewrite prepare_remote by auto.
  reflexivity.
Qed.

Lemma readRemoteZidRecord_none out e :
  is_some (zrtpIdRemote db) = true ->
  matching db remoteZid localZid = [] ->
  readRemoteZidRecord db remoteZid localZid out e
  = (SQLITE_OK, set_flags out 0, None).
Proof.
  intros H Hm. rewrite readRemoteZidRecord_scan by exact H.
  rewrite Hm. reflexivity.
Qed.

Lemma readRemoteZidRecord_one row out e :
  is_some (zrtpIdRemote db) = true ->
  matching db remoteZid localZid = [row] ->
  readRemoteZidRecord db remoteZid localZid out e
  = (SQLITE_OK, column_remoteZidRecord row out, None).
Proof.
  intros H Hm. rewrite readRemoteZidRecord_scan by exact H.
  rewrite Hm. reflexivity.
Qed.

Lemma readRemoteZidRecord_many rows row out e :
  is_some (zrtpIdRemote db) = true ->
  matching db remoteZid localZid = rows ++ [row] ->
  rows <> [] ->
  readRemoteZidRecord db remoteZid localZid out e
  = (1, column_remoteZidRecord row out,
     snprintf e (More_than_one_remote_ZID
                   (Z.of_nat (List.length (rows ++ [row]))))).
Proof.
  intros H Hm Hne. rewrite readRemoteZidRecord_scan by exact H.
  rewrite Hm, scan_remoteZidRecord_last.
  assert (0 < Z.of_nat (List.length rows)).
  { destruct rows; [congruence|cbn [List.length]; lia]. }
  rewrite length_app. cbn [List.length].
  replace (Z.of_nat (List.length rows + 1))
    with (Z.of_nat (List.length rows) + 1) by lia.
  destruct (Z.eqb_spec (Z.of_nat (List.length rows) + 1) 0); [lia|].
  destruct (Z.ltb_spec 1 (Z.of_nat (List.length rows) + 1)); [|lia].
  reflexivity.
Qed.

Lemma insertRemoteZidRecord_ok r e :
  is_some (zrtpIdRemote db) = true ->
  insertRemoteZidRecord db remoteZid localZid r e
  = (SQLITE_OK,
     {| zrtpIdOwn := zrtpIdOwn db;
        zrtpIdRemote :=
          Some (table (zrtpIdRemote db)
                ++ [bind_remoteZidRecord
                      (b64Encode remoteZid IDENTIFIER_LEN)
                      (b64Encode localZid IDENTIFIER_LEN) r]);
        zrtpNames := zrtpNames db |},
     None).
Proof.
  intros H. unfold insertRemoteZidRecord.
  rewrite prepare_remote by auto. reflexivity.
Qed.

Lemma updateRemoteZidRecord_ok r e :
  is_some (zrtpIdRemote db) = true ->
  updateRemoteZidRecord db remoteZid localZid r e
  = (SQLITE_OK,
     snd (step_updateZrtpIdRemote db
            (bind_remoteZidRecord
               (b64Encode remoteZid IDENTIFIER_LEN)
               (b64Encode localZid IDENTIFIER_LEN) r)),
     None).
Proof.
  intros H. unfold updateRemoteZidRecord.
  rewrite prepare_remote by auto. reflexivity.
Qed.

End RemoteStore.

Lemma remote_key_bind k1 k2 r :
  remote_key k1 k2 (bind_remoteZidRecord k1 k2 r) = true.
Proof.
  unfold remote_key. cbn. now rewrite !String.eqb_refl.
Qed.

Lemma matching_insert db remoteZid localZid r e rz lz :
  is_some (zrtpIdRemote db) = true ->
  matching (snd (fst (insertRemoteZidRecord db remoteZid localZid r e)))
    rz lz
  = matching db rz lz
    ++ filter (remote_key (b64Encode rz IDENTIFIER_LEN)
                          (b64Encode lz IDENTIFIER_LEN))
         [bind_remoteZidRecord (b64Encode remoteZid IDENTIFIER_LEN)
            (b64Encode localZid IDENTIFIER_LEN) r].
Proof.
  intros H. rewrite insertRemoteZidRecord_ok by exact H.
  unfold matching, step_selectZrtpIdRemoteAll. cbn [fst snd zrtpIdRemote table].
  now rewrite filter_app.
Qed.

Lemma matching_insert_same db remoteZid localZid r e :
  is_some (zrtpIdRemote db) = true ->
  matching (snd (fst (insertRemoteZidRecord db remoteZid localZid r e)))
    remoteZid localZid
  = matching db remoteZid localZid
    ++ [bind_remoteZidRecord (b64Encode remoteZid IDENTIFIER_LEN)
          (b64Encode localZid IDENTIFIER_LEN) r].
Proof.
  intros H. rewrite matching_insert by exact H.
  cbn [filter]. now rewrite remote_key_bind.
Qed.

Lemma insert_keeps_table db remoteZid localZid r e :
  is_some (zrtpIdRemote db) = true ->
  is_some (zrtpIdRemote
             (snd (fst (insertRemoteZidRecord db remoteZid localZid r e))))
  = true.
Proof.
  intros H. now rewrite insertRemoteZidRecord_ok by exact H.
Qed.

Lemma entry_ok_spec (en : entry) :
  entry_ok en = true ->
  List.length (fst (fst en)) = IDENTIFIER_LEN
  /\ List.length (snd (fst en)) = IDENTIFIER_LEN
  /\ wf_remoteZidRecord (snd en) = true
  /\ timestamps_valid (snd en) = true.
Proof.
  destruct en as [[rz lz] r]. unfold entry_ok. intros H. cbn [fst snd].
  apply andb_true_iff in H as [H Ht]. apply andb_true_iff in H as [H Hw].
  apply andb_true_iff in H as [H1 H2].
  apply Nat.eqb_eq in H1, H2. auto.
Qed.

Lemma insertAll_table (l : list entry) : forall db,
  is_some (zrtpIdRemote db) = true ->
  zrtpIdRemote (insertAll db l)
  = Some (table (zrtpIdRemote db) ++ map entry_row l).
Proof.
  induction l as [|[[rz lz] r] l IH]; intros db H.
  - cbn. destruct (zrtpIdRemote db); [now rewrite app_nil_r|discriminate].
  - unfold insertAll. cbn [fold_left]. fold (insertAll
      (snd (fst (insertRemoteZidRecord db rz lz r false))) l).
    rewrite IH by now apply insert_keeps_table.
    rewrite insertRemoteZidRecord_ok by exact H.
    cbn [fst snd zrtpIdRemote table map entry_row].
    now rewrite <- app_assoc.
Qed.

(** Keys never written. *)

Lemma matching_insertAll (l : list entry) db remoteZid localZid :
  is_some (zrtpIdRemote db) = true ->
  matching (insertAll db l) remoteZid localZid
  = matching db remoteZid localZid
    ++ filter (remote_key (b64Encode remoteZid IDENTIFIER_LEN)
                          (b64Encode localZid IDENTIFIER_LEN))
         (map entry_row l).
Proof.
  intros H. unfold matching, step_selectZrtpIdRemoteAll.
  rewrite insertAll_table by exact H. cbn [table]. apply filter_app.
Qed.

Lemma remote_key_other (en : entry) remoteZid localZid :
  List.length remoteZid = IDENTIFIER_LEN ->
  List.length localZid = IDENTIFIER_LEN ->
  List.length (fst (fst en)) = IDENTIFIER_LEN ->
  List.length (snd (fst en)) = IDENTIFIER_LEN ->
  fst en <> (remoteZid, localZid) ->
  remote_key (b64Encode remoteZid IDENTIFIER_LEN)
    (b64Encode localZid IDENTIFIER_LEN) (entry_row en) = false.
Proof.
  destruct en as [[rz lz] r]. cbn [fst snd]. intros L1 L2 L3 L4 Hne.
  unfold remote_key, entry_row, bind_remoteZidRecord, values_zrtpIdRemote.
  cbn [col_remoteZid col_localZid].
  destruct (String.eqb_spec (b64Encode rz IDENTIFIER_LEN)
              (b64Encode remoteZid IDENTIFIER_LEN)) as [E1|]; [|reflexivity].
  destruct (String.eqb_spec (b64Encode lz IDENTIFIER_LEN)
              (b64Encode localZid IDENTIFIER_LEN)) as [E2|]; [|reflexivity].
  apply b64Encode_inj in E1, E2; try assumption. congruence.
Qed.

(** The entries of [l] are keyed by identifiers of [IDENTIFIER_LEN] bytes
    and none of them is keyed by [(remoteZid, localZid)]. *)
Lemma other_keys_match_nothing (l : list entry) remoteZid localZid :
  List.length remoteZid = IDENTIFIER_LEN ->
  List.length localZid = IDENTIFIER_LEN ->
  Forall (fun en : entry =>
            List.length (fst (fst en)) = IDENTIFIER_LEN
            /\ List.length (snd (fst en)) = IDENTIFIER_LEN
            /\ fst en <> (remoteZid, localZid)) l ->
  filter (remote_key (b64Encode remoteZid IDENTIFIER_LEN)
                     (b64Encode localZid IDENTIFIER_LEN))
    (map entry_row l) = [].
Proof.
  intros L1 L2. induction 1 as [|en l (L3 & L4 & Hne) _ IH]; [reflexivity|].
  cbn [map filter]. now rewrite remote_key_other.
Qed.

(** C4: on an opened cache, a read on a key that selects no row returns
    [SQLITE_OK], writes no message, and hands back the caller's record
    with its flags set to 0; and the key still selects no row, and reads
    that way, after any number of inserts under other keys -- as long as
    no row was ever written for it. *)
Theorem readRemoteZidRecord_absent
    (db : sqlite3) (remoteZid localZid : list byte)
    (remZid : remoteZidRecord_t) (errString : bool) :
  is_some (zrtpIdRemote db) = true ->
  matching db remoteZid localZid = [] ->
  List.length remoteZid = IDENTIFIER_LEN ->
  List.length localZid = IDENTIFIER_LEN ->
  readRemoteZidRecord db remoteZid localZid remZid errString
  = (SQLITE_OK, set_flags remZid 0, None)
  /\ flags (set_flags remZid 0) = 0
  /\ (forall l : list entry,
        Forall (fun en : entry =>
                  List.length (fst (fst en)) = IDENTIFIER_LEN
                  /\ List.length (snd (fst en)) = IDENTIFIER_LEN
                  /\ fst en <> (remoteZid, localZid)) l ->
        readRemoteZidRecord (insertAll db l) remoteZid localZid remZid
          errString
        = (SQLITE_OK, set_flags remZid 0, None)).
Proof.
  intros H Hm L1 L2. split; [|split].
  - now apply readRemoteZidRecord_none.
  - reflexivity.
  - intros l Hl. apply readRemoteZidRecord_none.
    + now rewrite insertAll_table.
    + rewrite matching_insertAll by exact H.
      rewrite Hm, other_keys_match_nothing by assumption. reflexivity.
Qed.

Lemma readRemoteZidRecord_absent_witness :
  (is_some (zrtpIdRemote empty_cache) = true
   /\ matching empty_cache zid_alice zid_local = []
   /\ List.length zid_alice = IDENTIFIER_LEN
   /\ List.length zid_local = IDENTIFIER_LEN)
  /\ readRemoteZidRecord empty_cache zid_alice zid_local
       (sample_record 5 1700000000) true
     = (SQLITE_OK, set_flags (sample_record 5 1700000000) 0, None)
  /\ readRemoteZidRecord (insertAll empty_cache [entry_bob; entry_carol])
       zid_alice zid_local (sample_record 5 1700000000) true
     = (SQLITE_OK, set_flags (sample_record 5 1700000000) 0, None).
Proof.
  destruct (readRemoteZidRecord_absent empty_cache zid_alice zid_local
              (sample_record 5 1700000000) true eq_refl eq_refl eq_refl
              eq_refl)
    as (Hread & _ & Hlater).
  split; [repeat split; reflexivity|]. split; [exact Hread|].
  apply Hlater.
  repeat constructor; discriminate.
Defined.

(** C2: when more than one row matches the key, the read returns the error
    code 1 and, when the caller passed an error buffer, writes into it
    the consistency message that carries the number of matching rows; in
    particular two inserts under one key both succeed, and the read that
    follows fails that way, with the count of the rows then stored. *)
Theorem readRemoteZidRecord_inconsistent
    (db : sqlite3) (remoteZid localZid : list byte)
    (remZid : remoteZidRecord_t) (errString : bool) :
  is_some (zrtpIdRemote db) = true ->
  (1 < Z.of_nat (List.length (matching db remoteZid localZid)) ->
   let res := readRemoteZidRecord db remoteZid localZid remZid errString in
   fst (fst res) = 1
   /\ snd res
      = if errString
        then Some (More_than_one_remote_ZID
                     (Z.of_nat
                        (List.length (matching db remoteZid localZid))))
        else None)
  /\ (forall (r r' : remoteZidRecord_t) (e e' : bool),
        let ins1 := insertRemoteZidRecord db remoteZid localZid r e in
        let ins2 :=
          insertRemoteZidRecord (snd (fst ins1)) remoteZid localZid r' e' in
        let res :=
          readRemoteZidRecord (snd (fst ins2)) remoteZid localZid remZid
            errString in
        fst (fst ins1) = SQLITE_OK /\ fst (fst ins2) = SQLITE_OK
        /\ fst (fst res) = 1
        /\ snd res
           = if errString
             then Some (More_than_one_remote_ZID
                          (Z.of_nat
                             (List.length (matching db remoteZid localZid))
                           + 2))
             else None).
Proof.
  intros H. split.
  - intros Hn res. subst res.
    destruct (exists_last (l := matching db remoteZid localZid))
      as (rows & row & Hm).
    { intros E. rewrite E in Hn. cbn in Hn. lia. }
    assert (Hne : rows <> []).
    { intros ->. rewrite Hm in Hn. cbn in Hn. lia. }
    rewrite (readRemoteZidRecord_many _ _ _ rows row) by assumption.
    rewrite Hm. split; [reflexivity|]. destruct errString; reflexivity.
  - intros r r' e e' ins1 ins2 res.
    pose proof (insert_keeps_table db remoteZid localZid r e H) as H1.
    fold ins1 in H1.
    pose proof (insert_keeps_table _ remoteZid localZid r' e' H1) as H2.
    fold ins2 in H2.
    assert (Hm : matching (snd (fst ins2)) remoteZid localZid
                 = (matching db remoteZid localZid
                    ++ [bind_remoteZidRecord
                          (b64Encode remoteZid IDENTIFIER_LEN)
                          (b64Encode localZid IDENTIFIER_LEN) r])
                   ++ [bind_remoteZidRecord
                         (b64Encode remoteZid IDENTIFIER_LEN)
                         (b64Encode localZid IDENTIFIER_LEN) r']).
    { subst ins2. rewrite matching_insert_same by exact H1.
      subst ins1. now rewrite matching_insert_same by exact H. }
    split; [|split].
    + subst ins1. now rewrite insertRemoteZidRecord_ok by exact H.
    + subst ins2. now rewrite insertRemoteZidRecord_ok by exact H1.
    + subst res.
      rewrite (readRemoteZidRecord_many _ _ _ _ _ _ _ H2 Hm).
      * split; [reflexivity|]. cbn [snd].
        replace (Z.of_nat
                   (List.length
                      ((matching db remoteZid localZid
                        ++ [bind_remoteZidRecord
                              (b64Encode remoteZid IDENTIFIER_LEN)
                              (b64Encode localZid IDENTIFIER_LEN) r])
                       ++ [bind_remoteZidRecord
                             (b64Encode remoteZid IDENTIFIER_LEN)
                             (b64Encode localZid IDENTIFIER_LEN) r'])))
          with (Z.of_nat (List.length (matching db remoteZid localZid)) + 2)
          by (rewrite !length_app; cbn [List.length]; lia).
        destruct errString; reflexivity.
      * intros E. apply app_eq_nil in E as [_ E]. discriminate.
Qed.

Lemma readRemoteZidRecord_inconsistent_witness :
  is_some (zrtpIdRemote cache_with_duplicate) = true
  /\ 1 < Z.of_nat
           (List.length (matching cache_with_duplicate zid_alice zid_local))
  /\ readRemoteZidRecord cache_with_duplicate zid_alice zid_local
       (sample_record 0 0) true
     = (1, with_identifier (sample_record 3 1700000500)
             (identifier (sample_record 0 0)),
        Some (More_than_one_remote_ZID 2))
  /\ snd (readRemoteZidRecord cache_with_duplicate zid_alice zid_local
            (sample_record 0 0) false)
     = None.
Proof.
  assert (Hn : 1 < Z.of_nat
                     (List.length
                        (matching cache_with_duplicate zid_alice zid_local)))
    by reflexivity.
  split; [reflexivity|]. split; [exact Hn|].
  destruct (proj1 (readRemoteZidRecord_inconsistent cache_with_duplicate
                     zid_alice zid_local (sample_record 0 0) true eq_refl)
              Hn) as (Hrc & Hmsg).
  destruct (proj1 (readRemoteZidRecord_inconsistent cache_with_duplicate
                     zid_alice zid_local (sample_record 0 0) false eq_refl)
              Hn) as (_ & Hnone).
  split; [|exact Hnone].
  destruct (readRemoteZidRecord cache_with_duplicate zid_alice zid_local
              (sample_record 0 0) true) as [[rc out] msg] eqn:E.
  cbn [fst snd] in Hrc, Hmsg. subst rc msg.
  assert (Hout : snd (fst (readRemoteZidRecord cache_with_duplicate zid_alice
                             zid_local (sample_record 0 0) true))
                 = with_identifier (sample_record 3 1700000500)
                     (identifier (sample_record 0 0)))
    by (vm_compute; reflexivity).
  rewrite E in Hout. cbn [fst snd] in Hout. subst out. reflexivity.
Defined.

(** C10: when the read finds more than one matching row and returns the
    error, the caller's record is not what it was before the call: it
    holds the fields decoded from the last matching row.  When that row
    was written for the record [r] (by an insert or an update), these
    are the flags, secrets, timestamps and counter of [r]; so after two
    inserts under one key the failing read leaves the fields of the
    second record in the caller's record. *)
Theorem readRemoteZidRecord_inconsistent_output
    (db : sqlite3) (remoteZid localZid : list byte)
    (remZid : remoteZidRecord_t) (errString : bool)
    (rows : list zrtpIdRemote_row) (row : zrtpIdRemote_row) :
  is_some (zrtpIdRemote db) = true ->
  matching db remoteZid localZid = rows ++ [row] ->
  rows <> [] ->
  let res := readRemoteZidRecord db remoteZid localZid remZid errString in
  fst (fst res) = 1
  /\ snd (fst res) = column_remoteZidRecord row remZid
  /\ (forall r,
        wf_remoteZidRecord r = true -> timestamps_valid r = true ->
        row = bind_remoteZidRecord (b64Encode remoteZid IDENTIFIER_LEN)
                (b64Encode localZid IDENTIFIER_LEN) r ->
        snd (fst res) = with_identifier r (identifier remZid))
  /\ (forall r r' e e',
        wf_remoteZidRecord r' = true -> timestamps_valid r' = true ->
        let ins1 := insertRemoteZidRecord db remoteZid localZid r e in
        let ins2 :=
          insertRemoteZidRecord (snd (fst ins1)) remoteZid localZid r' e' in
        fst (readRemoteZidRecord (snd (fst ins2)) remoteZid localZid remZid
               errString)
        = (1, with_identifier r' (identifier remZid))).
Proof.
  intros H Hm Hne res. subst res.
  rewrite (readRemoteZidRecord_many _ _ _ rows row) by assumption.
  cbn [fst snd].
  split; [reflexivity|]. split; [reflexivity|]. split.
  - intros r Hwf Hts Hrow. rewrite Hrow. now apply column_bind.
  - intros r r' e e' Hwf Hts.
    set (ins1 := insertRemoteZidRecord db remoteZid localZid r e).
    set (ins2 :=
           insertRemoteZidRecord (snd (fst ins1)) remoteZid localZid r' e').
    pose proof (insert_keeps_table db remoteZid localZid r e H) as H1.
    fold ins1 in H1.
    pose proof (insert_keeps_table _ remoteZid localZid r' e' H1) as H2.
    fold ins2 in H2.
    assert (Hm2 : matching (snd (fst ins2)) remoteZid localZid
                  = (matching db remoteZid localZid
                     ++ [bind_remoteZidRecord
                           (b64Encode remoteZid IDENTIFIER_LEN)
                           (b64Encode localZid IDENTIFIER_LEN) r])
                    ++ [bind_remoteZidRecord
                          (b64Encode remoteZid IDENTIFIER_LEN)
                          (b64Encode localZid IDENTIFIER_LEN) r']).
    { subst ins2. rewrite matching_insert_same by exact H1.
      subst ins1. now rewrite matching_insert_same by exact H. }
    rewrite (readRemoteZidRecord_many _ _ _ _ _ _ _ H2 Hm2).
    + cbn [fst]. now rewrite column_bind.
    + intros E. apply app_eq_nil in E as [_ E]. discriminate.
Qed.

Lemma readRemoteZidRecord_inconsistent_output_witness :
  let row1 :=
    bind_remoteZidRecord (b64Encode zid_alice IDENTIFIER_LEN)
      (b64Encode zid_local IDENTIFIER_LEN) (sample_record 1 1700000000) in
  let row2 :=
    bind_remoteZidRecord (b64Encode zid_alice IDENTIFIER_LEN)
      (b64Encode zid_local IDENTIFIER_LEN) (sample_record 3 1700000500) in
  let res :=
    readRemoteZidRecord cache_with_duplicate zid_alice zid_local
      (sample_record 0 0) false in
  (is_some (zrtpIdRemote cache_with_duplicate) = true
   /\ matching cache_with_duplicate zid_alice zid_local = [row1] ++ [row2]
   /\ [row1] <> [])
  /\ fst (fst res) = 1
  /\ snd (fst res)
     = with_identifier (sample_record 3 1700000500)
         (identifier (sample_record 0 0))
  /\ flags (snd (fst res)) = 3
  /\ secureSince (snd (fst res)) = 1700000500
  /\ snd (fst res) <> sample_record 0 0.
Proof.
  cbv zeta.
  assert (Hne : [bind_remoteZidRecord (b64Encode zid_alice IDENTIFIER_LEN)
                   (b64Encode zid_local IDENTIFIER_LEN)
                   (sample_record 1 1700000000)] <> [])
    by discriminate.
  split; [split; [reflexivity|split; [reflexivity|exact Hne]]|].
  destruct (readRemoteZidRecord_inconsistent_output cache_with_duplicate
              zid_alice zid_local (sample_record 0 0) false
              [bind_remoteZidRecord (b64Encode zid_alice IDENTIFIER_LEN)
                 (b64Encode zid_local IDENTIFIER_LEN)
                 (sample_record 1 1700000000)]
              (bind_remoteZidRecord (b64Encode zid_alice IDENTIFIER_LEN)
                 (b64Encode zid_local IDENTIFIER_LEN)
                 (sample_record 3 1700000500))
              eq_refl eq_refl Hne) as (Hrc & _ & Hrow & _).
  specialize (Hrow (sample_record 3 1700000500) eq_refl eq_refl eq_refl).
  split; [exact Hrc|]. split; [exact Hrow|].
  rewrite Hrow. split; [reflexivity|]. split; [reflexivity|].
  intros E. apply (f_equal flags) in E. discriminate E.
Defined.

(** C1, amended: for a key that selects no row, after inserting a record
    whose six timestamps are dates the storage engine covers, the read
    under the same key returns [SQLITE_OK] and every stored field of the
    record -- flags, both retained secrets with their timestamps, the MITM
    key and its timestamp, secure-since and the counter -- as the caller
    supplied it; the identifier bytes of the caller's buffer are left as
    they were. *)
Theorem insert_then_read
    (db : sqlite3) (remoteZid localZid : list byte)
    (r remZid : remoteZidRecord_t) (e e' : bool) :
  is_some (zrtpIdRemote db) = true ->
  matching db remoteZid localZid = [] ->
  wf_remoteZidRecord r = true ->
  timestamps_valid r = true ->
  let ins := insertRemoteZidRecord db remoteZid localZid r e in
  fst (fst ins) = SQLITE_OK
  /\ readRemoteZidRecord (snd (fst ins)) remoteZid localZid remZid e'
     = (SQLITE_OK, with_identifier r (identifier remZid), None).
Proof.
  intros H Hm Hwf Hts ins.
  pose proof (insert_keeps_table db remoteZid localZid r e H) as H1.
  pose proof (matching_insert_same db remoteZid localZid r e H) as Hm1.
  fold ins in H1, Hm1. rewrite Hm in Hm1. cbn [app] in Hm1.
  split.
  - subst ins. now rewrite insertRemoteZidRecord_ok by exact H.
  - rewrite (readRemoteZidRecord_one _ _ _ _ _ _ H1 Hm1).
    now rewrite column_bind.
Qed.

Lemma insert_then_read_witness :
  (is_some (zrtpIdRemote cache_alice_bob) = true
   /\ matching cache_alice_bob zid_carol zid_local = []
   /\ wf_remoteZidRecord (sample_record 4294967295 (-1)) = true
   /\ timestamps_valid (sample_record 4294967295 (-1)) = true)
  /\ (let ins :=
        insertRemoteZidRecord cache_alice_bob zid_carol zid_local
          (sample_record 4294967295 (-1)) true in
      fst (fst ins) = SQLITE_OK
      /\ readRemoteZidRecord (snd (fst ins)) zid_carol zid_local
           (sample_record 0 0) true
         = (SQLITE_OK,
            with_identifier (sample_record 4294967295 (-1))
              (identifier (sample_record 0 0)),
            None)).
Proof.
  split.
  - repeat split; reflexivity.
  - apply (insert_then_read cache_alice_bob zid_carol zid_local
             (sample_record 4294967295 (-1)) (sample_record 0 0) true true);
      reflexivity.
Defined.

(** C1 as stated fails: a time-to-live one second past 9999-12-31 23:59:59
    is stored as NULL and read back as 0. *)
Lemma insert_then_read_loses_timestamp :
  let r := sample_record 1 253402300800 in
  let ins := insertRemoteZidRecord empty_cache zid_alice zid_local r true in
  let res :=
    readRemoteZidRecord (snd (fst ins)) zid_alice zid_local r true in
  matching empty_cache zid_alice zid_local = []
  /\ wf_remoteZidRecord r = true
  /\ fst (fst ins) = SQLITE_OK
  /\ fst (fst res) = SQLITE_OK
  /\ rs1Ttl r = 253402300800
  /\ rs1Ttl (snd (fst res)) = 0
  /\ snd (fst res) <> with_identifier r (identifier r).
Proof.
  cbv zeta. repeat split; try reflexivity.
  vm_compute. discriminate.
Qed.

(* ------------------------------------------------------------------ *)
(** ** Peer-secret store: update *)

Section UpdateRows.

(** The column values an UPDATE sets, with the key it selects by. *)
Variable new : zrtpIdRemote_row.

Lemma set_keeps_key p1 p2 row :
  remote_key p1 p2 (set_zrtpIdRemote new row) = remote_key p1 p2 row.
Proof.
  unfold set_zrtpIdRemote. destruct (remote_key _ _ row); reflexivity.
Qed.


Lemma filter_map_set p1 p2 rows :
  filter (remote_key p1 p2) (map (set_zrtpIdRemote new) rows)
  = map (set_zrtpIdRemote new) (filter (remote_key p1 p2) rows).
Proof.
  induction rows as [|row rows IH]; [reflexivity|].
  cbn [map filter]. rewrite set_keeps_key.
  destruct (remote_key p1 p2 row); cbn [map]; now rewrite IH.
Qed.



End UpdateRows.

Section Update.

Variables (db : sqlite3) (remoteZid localZid : list byte).
Variable r : remoteZidRecord_t.

Lemma matching_update rz lz e :
  matching (snd (fst (updateRemoteZidRecord db remoteZid localZid r e)))
    rz lz
  = map (set_zrtpIdRemote
           (bind_remoteZidRecord (b64Encode remoteZid IDENTIFIER_LEN)
              (b64Encode localZid IDENTIFIER_LEN) r))
      (matching db rz lz).
Proof.
  destruct (zrtpIdRemote db) as [rows|] eqn:E.
  - rewrite updateRemoteZidRecord_ok by (rewrite E; reflexivity).
    unfold matching, step_selectZrtpIdRemoteAll, step_updateZrtpIdRemote.
    cbn [fst snd zrtpIdRemote]. rewrite E. cbn [table].
    apply filter_map_set.
  - unfold updateRemoteZidRecord, matching, step_selectZrtpIdRemoteAll.
    cbn [SQLITE_PREPARE]. rewrite E. cbn [is_some].
    change (negb (SQLITE_ERROR =? SQLITE_OK)) with true.
    cbn [fst snd]. rewrite E. reflexivity.
Qed.

Lemma update_keeps_table e :
  is_some (zrtpIdRemote
             (snd (fst (updateRemoteZidRecord db remoteZid localZid r e))))
  = is_some (zrtpIdRemote db).
Proof.
  destruct (zrtpIdRemote db) as [rows|] eqn:E.
  - rewrite updateRemoteZidRecord_ok by (rewrite E; reflexivity).
    reflexivity.
  - unfold updateRemoteZidRecord. cbn [SQLITE_PREPARE]. rewrite E.
    cbn [is_some]. change (negb (SQLITE_ERROR =? SQLITE_OK)) with true.
    cbn [fst snd]. now rewrite E.
Qed.

(** A read under a key depends on the database through the rows the
    key selects and the presence of the table only. *)
Lemma readRemoteZidRecord_ext db' rz lz out e :
  is_some (zrtpIdRemote db') = is_some (zrtpIdRemote db) ->
  matching db' rz lz = matching db rz lz ->
  readRemoteZidRecord db' rz lz out e = readRemoteZidRecord db rz lz out e.
Proof.
  intros Ht Hm. unfold readRemoteZidRecord. fold (matching db' rz lz).
  fold (matching db rz lz). rewrite Hm.
  cbn [SQLITE_PREPARE]. rewrite Ht. reflexivity.
Qed.



End Update.




(* ------------------------------------------------------------------ *)
(** ** Enumeration cursor *)

Lemma secureSince_le_total a b :
  secureSince_le a b = false -> secureSince_le b a = true.
Proof.
  destruct a as [x|], b as [y|]; cbn; try congruence.
  intros H. apply Z.leb_gt in H. apply Z.leb_le. lia.
Qed.

Lemma secureSince_le_trans a b c :
  secureSince_le a b = true -> secureSince_le b c = true ->
  secureSince_le a c = true.
Proof.
  destruct a as [x|], b as [y|], c as [z|]; cbn; try congruence.
  intros H1 H2. apply Z.leb_le in H1, H2. apply Z.leb_le. lia.
Qed.

Lemma insert_desc_perm row sorted :
  Permutation (insert_desc row sorted) (row :: sorted).
Proof.
  induction sorted as [|h t IH]; [reflexivity|].
  cbn [insert_desc].
  destruct (secureSince_le (col_secureSince h) (col_secureSince row));
    [reflexivity|].
  rewrite IH. apply perm_swap.
Qed.

Lemma ORDER_BY_perm rows :
  Permutation (ORDER_BY_secureSince_DESC rows) rows.
Proof.
  induction rows as [|row rows IH]; [reflexivity|].
  cbn [ORDER_BY_secureSince_DESC fold_right].
  rewrite insert_desc_perm. now constructor.
Qed.

Lemma insert_desc_sorted row sorted :
  StronglySorted sorts_before sorted ->
  StronglySorted sorts_before (insert_desc row sorted).
Proof.
  induction 1 as [|h t Hs IH Hh]; cbn [insert_desc].
  - repeat constructor.
  - destruct (secureSince_le (col_secureSince h) (col_secureSince row))
      eqn:E.
    + constructor; [now constructor|].
      constructor; [exact E|].
      eapply Forall_impl; [|exact Hh]. intros x Hx. unfold sorts_before in *.
      now apply (secureSince_le_trans _ (col_secureSince h)).
    + constructor; [exact IH|].
      rewrite insert_desc_perm.
      constructor; [|exact Hh]. now apply secureSince_le_total.
Qed.

Lemma ORDER_BY_sorted rows :
  StronglySorted sorts_before (ORDER_BY_secureSince_DESC rows).
Proof.
  induction rows as [|row rows IH]; [constructor|].
  cbn [ORDER_BY_secureSince_DESC fold_right]. now apply insert_desc_sorted.
Qed.

Lemma entry_row_secureSince (en : entry) :
  entry_ok en = true ->
  col_secureSince (entry_row en) = Some (secureSince (entry_record en)).
Proof.
  intros H. apply entry_ok_spec in H as (_ & _ & _ & Ht).
  destruct en as [[rz lz] r]. cbn [fst snd] in Ht.
  apply timestamps_valid_spec in Ht as (_ & _ & _ & _ & _ & T).
  cbn. now rewrite T.
Qed.

(** Sorted rows give records sorted by their secure-since timestamps. *)
Lemma sorted_rows_records (es : list entry) :
  Forall (fun en => entry_ok en = true) es ->
  StronglySorted sorts_before (map entry_row es) ->
  StronglySorted secureSince_desc (map entry_record es).
Proof.
  induction es as [|en es IH]; intros Hok Hs; [constructor|].
  cbn [map] in *. inversion Hok as [|? ? Hen Hes]; subst.
  inversion Hs as [|? ? Hs' Hall]; subst.
  constructor; [now apply IH|].
  rewrite Forall_map in *. rewrite Forall_forall in *.
  intros x Hx. specialize (Hall x Hx). unfold sorts_before in Hall.
  rewrite !entry_row_secureSince in Hall by auto.
  cbn in Hall. apply Z.leb_le in Hall. exact Hall.
Qed.

Section Cursor.

Variable db : sqlite3.

Lemma store_identifier (id buf : list byte) :
  List.length id = IDENTIFIER_LEN -> List.length buf = IDENTIFIER_LEN ->
  store id buf = Some id.
Proof.
  intros H1 H2. unfold store. rewrite H1, H2, Nat.leb_refl.
  rewrite <- H2, skipn_all. now rewrite app_nil_r.
Qed.

(** One call on a statement whose next sorted row was stored for [en]. *)
Lemma readNextZidRecord_row (en : entry) rest out e :
  entry_ok en = true ->
  List.length (identifier out) = IDENTIFIER_LEN ->
  readNextZidRecord db (Some {| pending := Some (entry_row en :: rest) |})
    out e
  = Some (Some {| pending := Some rest |}, entry_record en, None).
Proof.
  intros Hok Hid. apply entry_ok_spec in Hok as (L1 & _ & Hwf & Hts).
  destruct en as [[rz lz] r]. cbn [fst snd] in *.
  unfold readNextZidRecord, step_selectZrtpIdRemoteAllNoCondition.
  cbn [pending entry_row]. rewrite column_bind by assumption.
  unfold bind_remoteZidRecord, values_zrtpIdRemote. cbn [col_remoteZid].
  unfold b64Decode. rewrite b64Encode_full by exact L1.
  rewrite Base64Facts.base64_roundtrip.
  cbn [with_identifier identifier flags rs1 rs1LastUse rs1Ttl rs2 rs2LastUse
       rs2Ttl mitmKey mitmLastUse secureSince preshCounter].
  rewrite store_identifier by assumption. reflexivity.
Qed.

(** The first step sorts the table. *)
Lemma readNextZidRecord_first rows out e :
  zrtpIdRemote db = Some rows ->
  readNextZidRecord db (Some {| pending := None |}) out e
  = readNextZidRecord db
      (Some {| pending := Some (ORDER_BY_secureSince_DESC rows) |}) out e.
Proof.
  intros H. unfold readNextZidRecord, step_selectZrtpIdRemoteAllNoCondition.
  cbn [pending]. now rewrite H.
Qed.

Lemma entry_record_identifier (en : entry) :
  entry_ok en = true ->
  List.length (identifier (entry_record en)) = IDENTIFIER_LEN.
Proof.
  intros H. apply entry_ok_spec in H as (L1 & _).
  destruct en as [[rz lz] r]. exact L1.
Qed.

(** Draining a statement whose sorted rows were stored for [es]. *)
Lemma readAllZid_rows (es : list entry) : forall fuel out,
  Forall (fun en => entry_ok en = true) es ->
  List.length (identifier out) = IDENTIFIER_LEN ->
  (List.length es < fuel)%nat ->
  readAllZid fuel db (Some {| pending := Some (map entry_row es) |}) out
  = Some (map entry_record es).
Proof.
  induction es as [|en es IH]; intros fuel out Hok Hid Hfuel.
  - destruct fuel as [|fuel]; [cbn in Hfuel; lia|]. reflexivity.
  - destruct fuel as [|fuel]; [cbn in Hfuel; lia|].
    inversion Hok as [|? ? Hen Hes]; subst.
    cbn [readAllZid map]. rewrite readNextZidRecord_row by assumption.
    rewrite IH; [reflexivity|assumption| |cbn in Hfuel; lia].
    now apply entry_record_identifier.
Qed.

Lemma readAllZid_first rows fuel out :
  zrtpIdRemote db = Some rows ->
  readAllZid fuel db (Some {| pending := None |}) out
  = readAllZid fuel db
      (Some {| pending := Some (ORDER_BY_secureSince_DESC rows) |}) out.
Proof.
  intros H. destruct fuel as [|fuel]; [reflexivity|].
  cbn [readAllZid]. now rewrite (readNextZidRecord_first rows).
Qed.

Lemma prepareReadAllZid_ok e :
  is_some (zrtpIdRemote db) = true ->
  prepareReadAllZid db e = (Some {| pending := None |}, None).
Proof.
  intros H. unfold prepareReadAllZid. now rewrite prepare_remote by auto.
Qed.

End Cursor.

(** The records a drained cursor yields, for a cache filled by inserts. *)
Lemma readAllZid_insertAll (l : list entry) fuel out e :
  Forall (fun en => entry_ok en = true) l ->
  List.length (identifier out) = IDENTIFIER_LEN ->
  (List.length l < fuel)%nat ->
  let db := insertAll empty_cache l in
  exists recs,
    readAllZid fuel db (fst (prepareReadAllZid db e)) out = Some recs
    /\ Permutation recs (map entry_record l)
    /\ StronglySorted secureSince_desc recs.
Proof.
  intros Hok Hid Hfuel db.
  assert (Ht : zrtpIdRemote db = Some (map entry_row l)).
  { subst db. now rewrite insertAll_table. }
  destruct (Permutation_map_inv entry_row l (ORDER_BY_perm (map entry_row l)))
    as (l' & Hl' & Hperm).
  assert (Hok' : Forall (fun en => entry_ok en = true) l')
    by now rewrite <- Hperm.
  exists (map entry_record l').
  rewrite prepareReadAllZid_ok by now rewrite Ht.
  cbn [fst]. rewrite (readAllZid_first db (map entry_row l)) by exact Ht.
  rewrite Hl'. split; [|split].
  - apply readAllZid_rows; try assumption.
    now rewrite <- (Permutation_length Hperm).
  - apply Permutation_map. now symmetry.
  - apply sorted_rows_records; [exact Hok'|].
    rewrite <- Hl'. apply ORDER_BY_sorted.
Qed.

(** A list sorted by descending key that rearranges three strictly
    ascending elements is their reversal. *)
Lemma sorted_desc_three (a b c : remoteZidRecord_t) recs :
  secureSince a < secureSince b -> secureSince b < secureSince c ->
  Permutation recs [a; b; c] ->
  StronglySorted secureSince_desc recs ->
  recs = [c; b; a].
Proof.
  intros Hab Hbc Hperm Hs.
  pose proof (Permutation_length Hperm) as Hlen.
  destruct recs as [|x [|y [|z [|? ?]]]]; try discriminate Hlen.
  assert (Hnd : NoDup [x; y; z]).
  { apply (Permutation_NoDup (l := [a; b; c])); [now symmetry|].
    repeat constructor; cbn; intuition (subst; lia). }
  inversion Hs as [|? ? Hs1 Hx]; subst.
  inversion Hs1 as [|? ? Hs2 Hy]; subst.
  inversion Hx as [|? ? Hxy Hx']; subst. inversion Hx' as [|? ? Hxz _]; subst.
  inversion Hy as [|? ? Hyz _]; subst.
  unfold secureSince_desc in *.
  inversion Hnd as [|? ? Nx Hnd1]; subst.
  inversion Hnd1 as [|? ? Ny _]; subst.
  assert (Ix : In x [a; b; c]) by (apply (Permutation_in _ Hperm); cbn; auto).
  assert (Iy : In y [a; b; c]) by (apply (Permutation_in _ Hperm); cbn; auto).
  assert (Iz : In z [a; b; c]) by (apply (Permutation_in _ Hperm); cbn; auto).
  cbn in Ix, Iy, Iz, Nx, Ny.
  destruct Ix as [<-|[<-|[<-|[]]]]; destruct Iy as [<-|[<-|[<-|[]]]];
    destruct Iz as [<-|[<-|[<-|[]]]];
    try reflexivity; try lia; exfalso; tauto.
Qed.

(** C7, amended: for records whose timestamps are dates the storage engine
    covers, the cursor yields all inserted records, each with its remote
    identifier, ordered by secure-since descending; inserted in any order,
    records with secure-since values t1 < t2 < t3 come out in the order
    t3, t2, t1 and then the sequence ends; over an empty peer table the
    first next call yields end-of-sequence. *)
Theorem cursor_yields_descending :
  (forall (l : list entry) (fuel : nat) (remZid : remoteZidRecord_t)
          (e : bool),
      Forall (fun en => entry_ok en = true) l ->
      List.length (identifier remZid) = IDENTIFIER_LEN ->
      (List.length l < fuel)%nat ->
      let db := insertAll empty_cache l in
      exists recs,
        readAllZid fuel db (fst (prepareReadAllZid db e)) remZid = Some recs
        /\ Permutation recs (map entry_record l)
        /\ StronglySorted secureSince_desc recs)
  /\ (forall (e1 e2 e3 : entry) (l : list entry) (fuel : nat)
             (remZid : remoteZidRecord_t) (e : bool),
        entry_ok e1 = true -> entry_ok e2 = true -> entry_ok e3 = true ->
        secureSince (snd e1) < secureSince (snd e2) ->
        secureSince (snd e2) < secureSince (snd e3) ->
        Permutation l [e1; e2; e3] ->
        List.length (identifier remZid) = IDENTIFIER_LEN ->
        (3 < fuel)%nat ->
        let db := insertAll empty_cache l in
        readAllZid fuel db (fst (prepareReadAllZid db e)) remZid
        = Some [entry_record e3; entry_record e2; entry_record e1])
  /\ (forall (db : sqlite3) (remZid : remoteZidRecord_t) (e e' : bool),
        zrtpIdRemote db = Some [] ->
        readNextZidRecord db (fst (prepareReadAllZid db e)) remZid e'
        = Some (None, remZid, None)).
Proof.
  split; [|split].
  - intros l fuel remZid e Hok Hid Hfuel db.
    now apply readAllZid_insertAll.
  - intros e1 e2 e3 l fuel remZid e H1 H2 H3 H12 H23 Hperm Hid Hfuel db.
    assert (Hok : Forall (fun en => entry_ok en = true) l).
    { rewrite Hperm. repeat constructor; assumption. }
    assert (Hlen : (List.length l < fuel)%nat).
    { rewrite (Permutation_length Hperm). exact Hfuel. }
    destruct (readAllZid_insertAll l fuel remZid e Hok Hid Hlen)
      as (recs & Hrecs & Hp & Hs).
    fold db in Hrecs. rewrite Hrecs. f_equal.
    apply sorted_desc_three; try assumption.
    + destruct e1 as [[? ?] ?], e2 as [[? ?] ?]. exact H12.
    + destruct e2 as [[? ?] ?], e3 as [[? ?] ?]. exact H23.
    + rewrite Hp. now apply (Permutation_map entry_record) in Hperm.
  - intros db remZid e e' Ht.
    rewrite prepareReadAllZid_ok by now rewrite Ht.
    cbn [fst]. rewrite (readNextZidRecord_first db []) by exact Ht.
    reflexivity.
Qed.

Lemma cursor_yields_descending_witness :
  let l := [entry_bob; entry_carol; entry_alice] in
  let db := insertAll empty_cache l in
  (entry_ok entry_alice = true /\ entry_ok entry_bob = true
   /\ entry_ok entry_carol = true
   /\ secureSince (snd entry_alice) < secureSince (snd entry_bob)
   /\ secureSince (snd entry_bob) < secureSince (snd entry_carol)
   /\ Permutation l [entry_alice; entry_bob; entry_carol]
   /\ List.length (identifier (sample_record 0 0)) = IDENTIFIER_LEN
   /\ (3 < 4)%nat)
  /\ readAllZid 4 db (fst (prepareReadAllZid db true)) (sample_record 0 0)
     = Some [entry_record entry_carol; entry_record entry_bob;
             entry_record entry_alice]
  /\ readNextZidRecord empty_cache
       (fst (prepareReadAllZid empty_cache true)) (sample_record 0 0) true
     = Some (None, sample_record 0 0, None).
Proof.
  cbv zeta.
  assert (Hperm : Permutation [entry_bob; entry_carol; entry_alice]
                    [entry_alice; entry_bob; entry_carol]).
  { apply (perm_trans (l' := [entry_bob; entry_alice; entry_carol])).
    - apply perm_skip. apply perm_swap.
    - apply perm_swap. }
  destruct cursor_yields_descending as (_ & Hthree & Hempty).
  split; [|split].
  - repeat split; try reflexivity; [exact Hperm|apply Nat.lt_succ_diag_r].
  - apply (Hthree entry_alice entry_bob entry_carol
             [entry_bob; entry_carol; entry_alice] 4%nat (sample_record 0 0)
             true);
      try reflexivity; [exact Hperm|apply Nat.lt_succ_diag_r].
  - apply (Hempty empty_cache (sample_record 0 0) true true). reflexivity.
Defined.

(** C7 as stated fails: a record secured one second past
    9999-12-31 23:59:59 has the largest secure-since value of the three,
    yet the cursor yields it last, with its timestamps read as 0. *)
Lemma cursor_yields_far_record_last :
  let l := [entry_alice; entry_bob; entry_far] in
  let db := insertAll empty_cache l in
  secureSince (snd entry_alice) < secureSince (snd entry_bob)
  /\ secureSince (snd entry_bob) < secureSince (snd entry_far)
  /\ readAllZid 4 db (fst (prepareReadAllZid db true)) (sample_record 0 0)
     = Some [entry_record entry_bob; entry_record entry_alice;
             with_identifier (sample_record 3 0) zid_carol]
  /\ readAllZid 4 db (fst (prepareReadAllZid db true)) (sample_record 0 0)
     <> Some [entry_record entry_far; entry_record entry_bob;
              entry_record entry_alice].
Proof.
  cbv zeta. split; [reflexivity|]. split; [reflexivity|].
  split; [vm_compute; reflexivity|].
  vm_compute. discriminate.
Qed.

(* ------------------------------------------------------------------ *)
(** ** Own-identity store *)

Section LocalZid.

Variables (db : sqlite3) (g : random_state).

Lemma next_draw_length : List.length (next_draw g) = IDENTIFIER_LEN.
Proof.
  unfold next_draw, randomZRTP. cbn [fst]. now rewrite length_map, length_seq.
Qed.

Lemma readLocalZid_own_key buf a e :
  readLocalZid db g buf a e
  = let accountInfo := fst (own_key a) in
    let type := snd (own_key a) in
    let '(rc, stmt) := SQLITE_PREPARE db selectZrtpIdOwn in
    if negb (rc =? SQLITE_OK)
    then Some (rc, db, g, buf, ERRMSG e rc) else
    match scan_localZid (own_matching db a) buf with
    | None => None
    | Some (localZid, found) =>
        if found =? 0 then
          let '(rnd, g) := randomZRTP g IDENTIFIER_LEN in
          match store rnd localZid with
          | None => None
          | Some localZid =>
              let b64zid := b64Encode localZid IDENTIFIER_LEN in
              let '(rc, stmt) := SQLITE_PREPARE db insertZrtpIdOwn in
              if negb (rc =? SQLITE_OK)
              then Some (rc, db, g, localZid, ERRMSG e rc) else
              let '(rc, db) :=
                step_insertZrtpIdOwn db b64zid type accountInfo in
              if negb (rc =? SQLITE_DONE)
              then Some (rc, db, g, localZid, ERRMSG e rc)
              else Some (SQLITE_OK, db, g, localZid, None)
          end
        else if 1 <? found then
          Some (1, db, g, localZid,
                snprintf e (Matching_local_ZID found accountInfo))
        else Some (SQLITE_OK, db, g, localZid, None)
    end.
Proof.
  unfold readLocalZid, own_matching, own_key.
  destruct a as [a|]; [destruct (String.eqb a defaultAccountString)|];
    reflexivity.
Qed.

(** A miss: the identifier is drawn, stored and returned. *)
Lemma readLocalZid_miss buf a e :
  is_some (zrtpIdOwn db) = true ->
  own_matching db a = [] ->
  List.length buf = IDENTIFIER_LEN ->
  readLocalZid db g buf a e
  = Some (SQLITE_OK, with_localZid db a (next_draw g),
          snd (randomZRTP g IDENTIFIER_LEN), next_draw g, None).
Proof.
  intros H Hm Hbuf. rewrite readLocalZid_own_key. cbv zeta.
  cbn [SQLITE_PREPARE]. rewrite H. rewrite Hm.
  cbn [scan_localZid fold_left].
  change (negb (SQLITE_OK =? SQLITE_OK)) with false.
  change (0 =? 0) with true. cbv iota.
  unfold with_localZid, next_draw.
  destruct (randomZRTP g IDENTIFIER_LEN) as [rnd g'] eqn:E.
  cbn [fst snd].
  assert (Hrnd : List.length rnd = IDENTIFIER_LEN).
  { pose proof next_draw_length as L. unfold next_draw in L.
    now rewrite E in L. }
  rewrite store_identifier by assumption.
  reflexivity.
Qed.

(** A hit on the one stored identifier: it is decoded and returned, and
    neither the database nor the generator changes. *)
Lemma readLocalZid_hit buf a e zid :
  is_some (zrtpIdOwn db) = true ->
  own_matching db a = [b64Encode zid IDENTIFIER_LEN] ->
  List.length zid = IDENTIFIER_LEN ->
  List.length buf = IDENTIFIER_LEN ->
  readLocalZid db g buf a e = Some (SQLITE_OK, db, g, zid, None).
Proof.
  intros H Hm Hzid Hbuf. rewrite readLocalZid_own_key. cbv zeta.
  cbn [SQLITE_PREPARE]. rewrite H. rewrite Hm.
  cbn [scan_localZid fold_left].
  change (negb (SQLITE_OK =? SQLITE_OK)) with false.
  change (0 =? 0) with true. cbv iota.
  unfold b64Decode. rewrite b64Encode_full by exact Hzid.
  rewrite Base64Facts.base64_roundtrip.
  rewrite store_identifier by assumption.
  reflexivity.
Qed.

Lemma with_localZid_table a zid :
  zrtpIdOwn (with_localZid db a zid)
  = Some (table (zrtpIdOwn db)
          ++ [{| own_localZid := b64Encode zid IDENTIFIER_LEN;
                 own_type := snd (own_key a);
                 own_accountInfo := fst (own_key a) |}]).
Proof. reflexivity. Qed.

Lemma own_matching_stored_same a zid :
  own_matching (with_localZid db a zid) a
  = own_matching db a ++ [b64Encode zid IDENTIFIER_LEN].
Proof.
  unfold own_matching, step_selectZrtpIdOwn. rewrite with_localZid_table.
  cbn [table]. rewrite filter_app, map_app. f_equal.
  cbn [filter own_type own_accountInfo].
  now rewrite Z.eqb_refl, String.eqb_refl.
Qed.

Lemma own_matching_stored_other a b zid :
  own_key a <> own_key b ->
  own_matching (with_localZid db a zid) b = own_matching db b.
Proof.
  intros Hne. unfold own_matching, step_selectZrtpIdOwn.
  rewrite with_localZid_table. cbn [table]. rewrite filter_app, map_app.
  cbn [filter own_type own_accountInfo].
  destruct (Z.eqb_spec (snd (own_key a)) (snd (own_key b))) as [Et|Et];
    [|cbn; apply app_nil_r].
  destruct (String.eqb_spec (fst (own_key a)) (fst (own_key b))) as [Ea|Ea];
    [|cbn; apply app_nil_r].
  exfalso. apply Hne.
  destruct (own_key a), (own_key b). cbn in *. congruence.
Qed.

End LocalZid.

Lemma readLocalZid_same_key db g buf a a' e :
  own_key a' = own_key a ->
  readLocalZid db g buf a' e = readLocalZid db g buf a e.
Proof.
  intros H. rewrite !readLocalZid_own_key. unfold own_matching.
  now rewrite H.
Qed.

Lemma own_matching_same_key db a a' :
  own_key a' = own_key a -> own_matching db a' = own_matching db a.
Proof. intros H. unfold own_matching. now rewrite H. Qed.

Lemma with_localZid_keeps_table db a zid :
  is_some (zrtpIdOwn (with_localZid db a zid)) = true.
Proof. reflexivity. Qed.

Lemma own_ids_with_localZid db a zid :
  own_ids (with_localZid db a zid)
  = own_ids db ++ [b64Encode zid IDENTIFIER_LEN].
Proof.
  unfold own_ids. rewrite with_localZid_table. cbn [table].
  now rewrite map_app.
Qed.

Lemma own_matching_incl db a t :
  In t (own_matching db a) -> In t (own_ids db).
Proof.
  unfold own_matching, step_selectZrtpIdOwn, own_ids. intros H.
  apply in_map_iff in H as (row & <- & Hin). apply filter_In in Hin as [Hin _].
  now apply in_map.
Qed.

Lemma own_key_eq_dec (a b : option string) :
  {own_key a = own_key b} + {own_key a <> own_key b}.
Proof.
  destruct (own_key a) as [la ta], (own_key b) as [lb tb].
  destruct (string_dec la lb) as [->|Hl]; [|right; congruence].
  destruct (Z.eq_dec ta tb) as [->|Ht]; [left; reflexivity|right; congruence].
Qed.

(** ** The generator's identifiers *)

Lemma draws_snoc n : forall g,
  exists d, draws g (S n) = draws g n ++ [d].
Proof.
  induction n as [|n IH]; intros g.
  - exists (next_draw g). reflexivity.
  - destruct (IH (snd (randomZRTP g IDENTIFIER_LEN))) as (d & Hd).
    exists d. change (draws g (S (S n)))
      with (next_draw g :: draws (snd (randomZRTP g IDENTIFIER_LEN)) (S n)).
    rewrite Hd. reflexivity.
Qed.

(** Freshness of [S n] identifiers gives freshness of [n]. *)
Lemma fresh_fewer db g n : fresh db g (S n) -> fresh db g n.
Proof.
  unfold fresh. destruct (draws_snoc n g) as (d & ->).
  rewrite map_app, app_assoc. apply NoDup_app_remove_r.
Qed.

(** After a miss stored the next identifier, the generator is as fresh
    for the new cache as it was for the old one. *)
Lemma fresh_stored db g a n :
  fresh db g (S n) ->
  fresh (with_localZid db a (next_draw g))
    (snd (randomZRTP g IDENTIFIER_LEN)) n.
Proof.
  unfold fresh. rewrite own_ids_with_localZid. cbn [draws map].
  now rewrite <- app_assoc.
Qed.

(** Rows that two distinct labels select hold distinct identifiers. *)
Lemma distinct_labels_distinct_texts db a b ta tb :
  NoDup (own_ids db) ->
  own_key a <> own_key b ->
  In ta (own_matching db a) -> In tb (own_matching db b) ->
  ta <> tb.
Proof.
  unfold own_ids, own_matching, step_selectZrtpIdOwn.
  induction (table (zrtpIdOwn db)) as [|row rows IH];
    intros Hnd Hne Ha Hb; [contradiction|].
  cbn [map] in Hnd. inversion Hnd as [|? ? Hnotin Hnd']; subst.
  assert (Hsub : forall p t,
             In t (map own_localZid (filter p rows)) ->
             In t (map own_localZid rows)).
  { intros p t Ht. apply in_map_iff in Ht as (r & <- & Hr).
    apply filter_In in Hr as [Hr _]. now apply in_map. }
  cbn [filter] in Ha, Hb.
  destruct ((own_type row =? snd (own_key a))
            && String.eqb (own_accountInfo row) (fst (own_key a))) eqn:Ka;
  destruct ((own_type row =? snd (own_key b))
            && String.eqb (own_accountInfo row) (fst (own_key b))) eqn:Kb.
  - exfalso. apply Hne.
    apply andb_true_iff in Ka as [Ta La]. apply andb_true_iff in Kb as [Tb Lb].
    apply Z.eqb_eq in Ta, Tb. apply String.eqb_eq in La, Lb.
    destruct (own_key a), (own_key b). cbn in *. congruence.
  - cbn [map] in Ha. destruct Ha as [Ea|Ha].
    + intros E. apply Hnotin. rewrite Ea, E. now apply (Hsub _ _ Hb).
    + now apply IH.
  - cbn [map] in Hb. destruct Hb as [Eb|Hb].
    + intros E. apply Hnotin. rewrite Eb, <- E. now apply (Hsub _ _ Ha).
    + now apply IH.
  - now apply IH.
Qed.

Section LocalZidStep.

Variables (db : sqlite3) (g : random_state) (n : nat).
Variables (buf : list byte) (a : option string) (e : bool).

Hypothesis Hwf : own_wf db.
Hypothesis Hbuf : List.length buf = IDENTIFIER_LEN.

(** One call on a well-kept cache: it succeeds, leaves exactly the
    returned identifier stored for the label, keeps what is stored for
    every other label, and keeps the cache well-kept; and it keeps a
    fresh generator fresh. *)
Lemma readLocalZid_step :
  exists db1 g1 zid,
    readLocalZid db g buf a e = Some (SQLITE_OK, db1, g1, zid, None)
    /\ List.length zid = IDENTIFIER_LEN
    /\ own_matching db1 a = [b64Encode zid IDENTIFIER_LEN]
    /\ (own_matching db a = [] -> zid = next_draw g)
    /\ own_wf db1 /\ (fresh db g (S n) -> fresh db1 g1 n)
    /\ (forall b, own_key b <> own_key a ->
                  own_matching db1 b = own_matching db b)
    /\ (forall t, In t (own_ids db) -> In t (own_ids db1)).
Proof.
  destruct Hwf as (Htab & Hone & Htexts).
  destruct (own_matching db a) as [|t [|t' rest]] eqn:Hm.
  - (* miss *)
    exists (with_localZid db a (next_draw g)),
      (snd (randomZRTP g IDENTIFIER_LEN)), (next_draw g).
    split; [now apply readLocalZid_miss|].
    split; [apply next_draw_length|].
    split; [now rewrite own_matching_stored_same, Hm|].
    split; [reflexivity|].
    split; [|split; [|split]].
    + split; [apply with_localZid_keeps_table|]. split.
      * intros b. destruct (own_key_eq_dec b a) as [Hk|Hk].
        -- rewrite (own_matching_same_key _ a b) by exact Hk.
           rewrite own_matching_stored_same, Hm. cbn. lia.
        -- rewrite own_matching_stored_other by congruence. apply Hone.
      * rewrite own_ids_with_localZid. apply Forall_app. split; [exact Htexts|].
        constructor; [|constructor].
        exists (next_draw g). split; [apply next_draw_length|reflexivity].
    + intros Hfresh. now apply fresh_stored.
    + intros b Hk. apply own_matching_stored_other. congruence.
    + intros t Ht. rewrite own_ids_with_localZid. apply in_or_app. now left.
  - (* hit *)
    assert (Ht : zid_text t).
    { rewrite Forall_forall in Htexts. apply Htexts.
      apply (own_matching_incl db a). rewrite Hm. now left. }
    destruct Ht as (zid & Hlen & ->).
    exists db, g, zid.
    split; [now apply readLocalZid_hit|].
    split; [exact Hlen|]. split; [exact Hm|].
    split; [discriminate|].
    split; [exact (conj Htab (conj Hone Htexts))|].
    split; [intros Hfresh; now apply fresh_fewer|].
    split; [reflexivity|auto].
  - (* more than one identifier for the label: excluded *)
    specialize (Hone a). rewrite Hm in Hone. cbn in Hone. lia.
Qed.

End LocalZidStep.

(** C6, amended: against an opened cache whose own-identity table was
    kept by this backend, two calls succeed; a first call for a label
    without an identifier draws it from the generator and stores it; a
    second call with the same label (null and the default label being
    one label) returns the same identifier and changes neither the cache
    nor the generator; a second call with a distinct label returns a
    distinct identifier when the generator is fresh for the cache, that
    is, when what it delivers next differs from what was delivered and
    stored before. *)
Theorem readLocalZid_same_and_distinct
    (db : sqlite3) (g : random_state) (a b : option string)
    (buf buf' : list byte) (e e' : bool) :
  own_wf db ->
  List.length buf = IDENTIFIER_LEN ->
  List.length buf' = IDENTIFIER_LEN ->
  exists db1 g1 za db2 g2 zb,
    readLocalZid db g buf a e = Some (SQLITE_OK, db1, g1, za, None)
    /\ readLocalZid db1 g1 buf' b e' = Some (SQLITE_OK, db2, g2, zb, None)
    /\ List.length za = IDENTIFIER_LEN
    /\ (own_matching db a = [] ->
        za = next_draw g
        /\ own_matching db1 a = [b64Encode za IDENTIFIER_LEN])
    /\ (own_key b = own_key a -> zb = za /\ db2 = db1 /\ g2 = g1)
    /\ (own_key b <> own_key a -> fresh db g 2 -> zb <> za).
Proof.
  intros Hwf Hbuf Hbuf'.
  destruct (readLocalZid_step db g 1 buf a e Hwf Hbuf)
    as (db1 & g1 & za & Hcall1 & Hlen & Hma & Hdraw & Hwf1 & Hfresh1 & _ & _).
  destruct (readLocalZid_step db1 g1 0 buf' b e' Hwf1 Hbuf')
    as (db2 & g2 & zb & Hcall2 & Hlenb & Hmb & _ & _ & Hfresh2 & Hkeep & _).
  destruct (own_key_eq_dec b a) as [Hk|Hk].
  - (* the same label: a hit on what the first call left *)
    exists db1, g1, za, db1, g1, za.
    split; [exact Hcall1|]. split.
    { rewrite (readLocalZid_same_key _ _ _ a) by exact Hk.
      apply readLocalZid_hit; try assumption. apply Hwf1. }
    split; [exact Hlen|]. split; [auto|].
    split; [auto|]. intros Hne. contradiction.
  - exists db1, g1, za, db2, g2, zb.
    split; [exact Hcall1|]. split; [exact Hcall2|].
    split; [exact Hlen|]. split; [auto|].
    split; [intros Heq; contradiction|].
    intros _ Hfresh Heq. subst zb.
    specialize (Hfresh2 (Hfresh1 Hfresh)).
    assert (Hnd : NoDup (own_ids db2)).
    { unfold fresh in Hfresh2. cbn [draws map] in Hfresh2.
      now rewrite app_nil_r in Hfresh2. }
    apply (distinct_labels_distinct_texts db2 a b
             (b64Encode za IDENTIFIER_LEN) (b64Encode za IDENTIFIER_LEN));
      [exact Hnd|congruence| | |reflexivity].
    + rewrite (Hkeep a) by congruence. rewrite Hma. now left.
    + rewrite Hmb. now left.
Qed.

(** A cache without identifiers is well kept. *)
Lemma own_wf_no_identity (db : sqlite3) :
  zrtpIdOwn db = Some [] -> own_wf db.
Proof.
  intros H. unfold own_wf, own_matching, step_selectZrtpIdOwn, own_ids.
  rewrite H. split; [reflexivity|].
  split; [intros a; cbn; lia|constructor].
Qed.

Lemma own_wf_empty_cache : own_wf empty_cache.
Proof. now apply own_wf_no_identity. Qed.

Lemma fresh_no_identity (db : sqlite3) :
  zrtpIdOwn db = Some [] -> fresh db counting_generator 2.
Proof.
  intros H. unfold fresh, own_ids. rewrite H. cbn [table map app].
  assert (E : map (fun zid => b64Encode zid IDENTIFIER_LEN)
                (draws counting_generator 2)
              = ["AAAAAAAAAAAAAAAA"%string; "AQEBAQEBAQEBAQEB"%string])
    by (vm_compute; reflexivity).
  rewrite E. constructor; [|constructor; [|constructor]].
  - cbn. intros [H0|[]]. discriminate H0.
  - cbn. intros [].
Qed.

Lemma fresh_counting_generator : fresh empty_cache counting_generator 2.
Proof. now apply fresh_no_identity. Qed.

Lemma readLocalZid_same_and_distinct_witness :
  (own_wf empty_cache /\ List.length zid_local = IDENTIFIER_LEN
   /\ fresh empty_cache counting_generator 2)
  /\ (exists db1 g1 za,
        readLocalZid empty_cache counting_generator zid_local None true
        = Some (SQLITE_OK, db1, g1, za, None)
        /\ readLocalZid db1 g1 zid_local (Some defaultAccountString) true
           = Some (SQLITE_OK, db1, g1, za, None))
  /\ (exists db1 g1 za db2 g2 zb,
        readLocalZid empty_cache counting_generator zid_local None true
        = Some (SQLITE_OK, db1, g1, za, None)
        /\ readLocalZid db1 g1 zid_local (Some "alice@example.org"%string)
             true
           = Some (SQLITE_OK, db2, g2, zb, None)
        /\ zb <> za).
Proof.
  split; [|split].
  - split; [exact own_wf_empty_cache|].
    split; [reflexivity|exact fresh_counting_generator].
  - destruct (readLocalZid_same_and_distinct empty_cache counting_generator
                None (Some defaultAccountString) zid_local zid_local true true
                own_wf_empty_cache eq_refl eq_refl)
      as (db1 & g1 & za & db2 & g2 & zb & H1 & H2 & _ & _ & Hsame & _).
    destruct (Hsame eq_refl) as (-> & -> & ->).
    exists db1, g1, za. split; assumption.
  - destruct (readLocalZid_same_and_distinct empty_cache counting_generator
                None (Some "alice@example.org"%string) zid_local zid_local
                true true own_wf_empty_cache eq_refl eq_refl)
      as (db1 & g1 & za & db2 & g2 & zb & H1 & H2 & _ & _ & _ & Hdiff).
    exists db1, g1, za, db2, g2, zb.
    split; [exact H1|]. split; [exact H2|].
    apply Hdiff; [discriminate|exact fresh_counting_generator].
Defined.

(** C6 as stated fails: the backend takes what the generator delivers
    and compares it with nothing.  From a generator that delivers the
    same bytes again, the calls for two distinct labels on an empty cache
    both succeed and return the same identifier, which is then stored
    under both labels. *)
Lemma readLocalZid_distinct_labels_same_identifier :
  own_wf empty_cache
  /\ own_key (Some "alice@example.org"%string) <> own_key None
  /\ exists db1 g1 za db2 g2 zb,
       readLocalZid empty_cache constant_generator zid_local None true
       = Some (SQLITE_OK, db1, g1, za, None)
       /\ readLocalZid db1 g1 zid_local (Some "alice@example.org"%string)
            true
          = Some (SQLITE_OK, db2, g2, zb, None)
       /\ zb = za
       /\ own_matching db2 None = [b64Encode za IDENTIFIER_LEN]
       /\ own_matching db2 (Some "alice@example.org"%string)
          = [b64Encode za IDENTIFIER_LEN].
Proof.
  split; [exact own_wf_empty_cache|]. split; [discriminate|].
  exists (with_localZid empty_cache None (next_draw constant_generator)),
    (snd (randomZRTP constant_generator IDENTIFIER_LEN)),
    (next_draw constant_generator),
    (with_localZid
       (with_localZid empty_cache None (next_draw constant_generator))
       (Some "alice@example.org"%string) (next_draw constant_generator)),
    (snd (randomZRTP (snd (randomZRTP constant_generator IDENTIFIER_LEN))
            IDENTIFIER_LEN)),
    (next_draw constant_generator).
  repeat split; reflexivity.
Qed.

(* ------------------------------------------------------------------ *)
(** ** Open and reset *)

(** Opening a file without tables creates the three tables; opening a
    file that has [zrtpIdOwn] leaves it as it is. *)
Lemma openCache_blank (e : bool) :
  openCache blank_database e = (SQLITE_OK, empty_cache, None).
Proof. reflexivity. Qed.

Lemma openCache_existing (db : sqlite3) (e : bool) :
  is_some (zrtpIdOwn db) = true -> openCache db e = (SQLITE_OK, db, None).
Proof.
  intros H. unfold openCache. cbn [SQLITE_PREPARE sqlite3_step].
  rewrite H. reflexivity.
Qed.

(** With no statement active a reset succeeds, on every database. *)
Lemma clearCache_empties (db : sqlite3) (e : bool) :
  clearCache db false e = (SQLITE_OK, empty_cache, None).
Proof.
  destruct db as [[own|] [remote|] [names|]]; reflexivity.
Qed.

(** A reset that succeeds leaves three empty tables. *)
Lemma clearCache_succeeds (db : sqlite3) (busy e : bool) :
  fst (fst (clearCache db busy e)) = SQLITE_OK ->
  clearCache db busy e = (SQLITE_OK, empty_cache, None).
Proof.
  destruct db as [[own|] [remote|] [names|]], busy; cbn;
    intros H; try reflexivity; discriminate H.
Qed.

(** While a statement is active a reset of a cache that has its
    own-identity table fails in [createTables] and changes nothing. *)
Lemma clearCache_busy (db : sqlite3) (e : bool) :
  is_some (zrtpIdOwn db) = true ->
  clearCache db true e = (SQLITE_ERROR, db, ERRMSG e SQLITE_ERROR).
Proof.
  destruct db as [[own|] remote names]; [reflexivity|discriminate].
Qed.

Lemma own_matching_empty_cache a : own_matching empty_cache a = [].
Proof. reflexivity. Qed.

(** After a reset that succeeded, a lookup draws the next identifier and
    stores it; it is another one than an identifier the cache held when
    the generator is fresh for that cache. *)
Lemma resolve_after_reset_is_new
    (db : sqlite3) (g : random_state) (a : option string) (zid : list byte)
    (buf : list byte) (busy e1 e2 : bool) :
  fst (fst (clearCache db busy e1)) = SQLITE_OK ->
  List.length buf = IDENTIFIER_LEN ->
  readLocalZid (snd (fst (clearCache db busy e1))) g buf a e2
  = Some (SQLITE_OK, with_localZid empty_cache a (next_draw g),
          snd (randomZRTP g IDENTIFIER_LEN), next_draw g, None)
  /\ (fresh db g 1 -> In (b64Encode zid IDENTIFIER_LEN) (own_ids db) ->
      next_draw g <> zid).
Proof.
  intros Hok Hbuf. rewrite clearCache_succeeds by exact Hok.
  cbn [fst snd]. split.
  - apply readLocalZid_miss;
      [reflexivity|apply own_matching_empty_cache|exact Hbuf].
  - intros Hfresh Hin Heq. unfold fresh in Hfresh. cbn [draws map] in Hfresh.
    apply NoDup_remove_2 in Hfresh. apply Hfresh.
    rewrite app_nil_r, Heq. exact Hin.
Qed.

(** C8, amended: after an identifier was resolved for a label, a reset
    succeeds when no statement of the connection is active.  After a
    reset that succeeded, the read for every peer key returns
    [SQLITE_OK] with flags 0, and resolving the label again succeeds: it
    draws the next identifier from the generator, stores it and returns
    it.  That identifier differs from the one returned before the reset
    when the generator is fresh for the cache, that is, when what it
    delivers next differs from what was delivered and stored before. *)
Theorem clearCache_forgets
    (db : sqlite3) (g : random_state) (a : option string)
    (buf buf' : list byte) (busy : bool) (e e1 e2 : bool) :
  own_wf db ->
  List.length buf = IDENTIFIER_LEN ->
  List.length buf' = IDENTIFIER_LEN ->
  exists db1 g1 za,
    readLocalZid db g buf a e = Some (SQLITE_OK, db1, g1, za, None)
    /\ (busy = false -> fst (fst (clearCache db1 busy e1)) = SQLITE_OK)
    /\ (fst (fst (clearCache db1 busy e1)) = SQLITE_OK ->
        (forall remoteZid localZid remZid e3,
            readRemoteZidRecord (snd (fst (clearCache db1 busy e1)))
              remoteZid localZid remZid e3
            = (SQLITE_OK, set_flags remZid 0, None))
        /\ readLocalZid (snd (fst (clearCache db1 busy e1))) g1 buf' a e2
           = Some (SQLITE_OK, with_localZid empty_cache a (next_draw g1),
                   snd (randomZRTP g1 IDENTIFIER_LEN), next_draw g1, None)
        /\ (fresh db g 2 -> next_draw g1 <> za)).
Proof.
  intros Hwf Hbuf Hbuf'.
  destruct (readLocalZid_step db g 1 buf a e Hwf Hbuf)
    as (db1 & g1 & za & Hcall1 & Hlen & Hma & _ & _ & Hfresh1 & _ & _).
  assert (Hin : In (b64Encode za IDENTIFIER_LEN) (own_ids db1)).
  { apply (own_matching_incl db1 a). rewrite Hma. now left. }
  exists db1, g1, za.
  split; [exact Hcall1|]. split.
  - intros ->. now rewrite clearCache_empties.
  - intros Hok.
    destruct (resolve_after_reset_is_new db1 g1 a za buf' busy e1 e2 Hok
                Hbuf') as (Hcall2 & Hnew).
    split; [|split; [exact Hcall2|]].
    + intros remoteZid localZid remZid e3.
      rewrite clearCache_succeeds by exact Hok.
      apply readRemoteZidRecord_none; reflexivity.
    + intros Hfresh. apply Hnew; [now apply Hfresh1|exact Hin].
Qed.

Lemma clearCache_forgets_witness :
  let db1 := with_localZid cache_alice_bob None (next_draw counting_generator)
  in
  let g1 := snd (randomZRTP counting_generator IDENTIFIER_LEN) in
  let reset := clearCache db1 false true in
  (own_wf cache_alice_bob /\ List.length zid_local = IDENTIFIER_LEN
   /\ fresh cache_alice_bob counting_generator 2)
  /\ readLocalZid cache_alice_bob counting_generator zid_local None true
     = Some (SQLITE_OK, db1, g1, next_draw counting_generator, None)
  /\ flags (snd (fst (readRemoteZidRecord db1 zid_alice zid_local
                        (sample_record 5 0) true))) = 1
  /\ fst (fst reset) = SQLITE_OK
  /\ readRemoteZidRecord (snd (fst reset)) zid_alice zid_local
       (sample_record 5 0) true
     = (SQLITE_OK, set_flags (sample_record 5 0) 0, None)
  /\ readLocalZid (snd (fst reset)) g1 zid_local None true
     = Some (SQLITE_OK, with_localZid empty_cache None (next_draw g1),
             snd (randomZRTP g1 IDENTIFIER_LEN), next_draw g1, None)
  /\ next_draw g1 <> next_draw counting_generator.
Proof.
  cbv zeta.
  assert (Hown : zrtpIdOwn cache_alice_bob = Some []) by reflexivity.
  pose proof (own_wf_no_identity cache_alice_bob Hown) as Hwf.
  pose proof (fresh_no_identity cache_alice_bob Hown) as Hfresh.
  split; [split; [exact Hwf|split; [reflexivity|exact Hfresh]]|].
  destruct (clearCache_forgets cache_alice_bob counting_generator None
              zid_local zid_local false true true true Hwf eq_refl eq_refl)
    as (db1 & g1 & za & Hcall & Hok & Hafter).
  assert (Hcall' : readLocalZid cache_alice_bob counting_generator zid_local
                     None true
                   = Some (SQLITE_OK,
                           with_localZid cache_alice_bob None
                             (next_draw counting_generator),
                           snd (randomZRTP counting_generator IDENTIFIER_LEN),
                           next_draw counting_generator, None))
    by reflexivity.
  rewrite Hcall' in Hcall. injection Hcall as <- <- <-.
  specialize (Hok eq_refl).
  destruct (Hafter Hok) as (Hread & Hcall2 & Hnew).
  split; [exact Hcall'|]. split; [reflexivity|]. split; [exact Hok|].
  split; [apply Hread|]. split; [exact Hcall2|].
  apply Hnew. exact Hfresh.
Defined.

(** C8 as stated fails for the identifier: after a reset the backend
    stores whatever the generator delivers next.  From a generator that
    delivers the same bytes again, the identifier resolved after a
    successful reset is the one resolved before it. *)
Lemma clearCache_then_same_identifier :
  own_wf cache_alice_bob
  /\ exists db1 g1 za db2 g2 zb,
       readLocalZid cache_alice_bob constant_generator zid_local None true
       = Some (SQLITE_OK, db1, g1, za, None)
       /\ fst (fst (clearCache db1 false true)) = SQLITE_OK
       /\ readLocalZid (snd (fst (clearCache db1 false true))) g1 zid_local
            None true
          = Some (SQLITE_OK, db2, g2, zb, None)
       /\ zb = za.
Proof.
  split; [now apply own_wf_no_identity|].
  exists (with_localZid cache_alice_bob None (next_draw constant_generator)),
    (snd (randomZRTP constant_generator IDENTIFIER_LEN)),
    (next_draw constant_generator),
    (with_localZid empty_cache None (next_draw constant_generator)),
    (snd (randomZRTP (snd (randomZRTP constant_generator IDENTIFIER_LEN))
            IDENTIFIER_LEN)),
    (next_draw constant_generator).
  repeat split; reflexivity.
Qed.

(* ------------------------------------------------------------------ *)
(** ** Peer-name store *)

Section NameRows.

(** The column values an insert or update of a name computes, with the
    key an update selects by. *)
Variable new : zrtpNames_row.

Lemma set_names_keeps_key p1 p2 p3 row :
  names_key p1 p2 p3 (set_zrtpNames new row) = names_key p1 p2 p3 row.
Proof.
  unfold set_zrtpNames. destruct (names_key _ _ _ row); reflexivity.
Qed.



End NameRows.

Section Names.

Variables (db : sqlite3) (now : Z) (remoteZid localZid : list byte).
Variables (accountInfo : option string) (zidName : zidNameRecord_t).



End Names.




(* ------------------------------------------------------------------ *)
(** ** Schema manager: every database state *)

(** X1: [openCache] looks for the table [zrtpIdOwn] only.  When it is
    there, the call returns [SQLITE_OK] and changes nothing, whatever
    state the two peer tables are in; when it is missing, the call
    returns [SQLITE_OK] and leaves three empty tables, whatever the peer
    tables held.  Opening what a first call left changes nothing. *)
Theorem openCache_looks_for_zrtpIdOwn (db : sqlite3) (e : bool) :
  openCache db e
  = (SQLITE_OK, if is_some (zrtpIdOwn db) then db else empty_cache, None)
  /\ openCache (snd (fst (openCache db e))) e = openCache db e.
Proof.
  destruct db as [[own|] [remote|] [names|]]; split; reflexivity.
Qed.

(** X2: [initializeRemoteTables] ignores what its two DROP statements
    report.  With no statement of the connection active it returns 0 on
    every database: the own-identity table is kept as it is and both
    peer tables are left empty.  While a statement is active the engine
    refuses the DROPs, and the function fails with [SQLITE_ERROR] at the
    first CREATE of a table that is still there, keeping the rows of
    that table.  [createTables] fails with [SQLITE_ERROR] from its first
    statement and changes nothing when [zrtpIdOwn] is there; when it is
    missing, the table is created and [initializeRemoteTables] decides
    the result. *)
Theorem createTables_and_initializeRemoteTables (db : sqlite3) (e : bool) :
  initializeRemoteTables db false e
  = (0,
     {| zrtpIdOwn := zrtpIdOwn db; zrtpIdRemote := Some [];
        zrtpNames := Some [] |},
     None)
  /\ initializeRemoteTables db true e
     = (if is_some (zrtpIdRemote db)
        then (SQLITE_ERROR, db, ERRMSG e SQLITE_ERROR)
        else if is_some (zrtpNames db)
        then (SQLITE_ERROR,
              {| zrtpIdOwn := zrtpIdOwn db; zrtpIdRemote := Some [];
                 zrtpNames := zrtpNames db |},
              ERRMSG e SQLITE_ERROR)
        else (0,
              {| zrtpIdOwn := zrtpIdOwn db; zrtpIdRemote := Some [];
                 zrtpNames := Some [] |},
              None))
  /\ (forall busy,
        createTables db busy e
        = if is_some (zrtpIdOwn db)
          then (SQLITE_ERROR, db, ERRMSG e SQLITE_ERROR)
          else initializeRemoteTables
                 {| zrtpIdOwn := Some []; zrtpIdRemote := zrtpIdRemote db;
                    zrtpNames := zrtpNames db |}
                 busy e).
Proof.
  destruct db as [[own|] [remote|] [names|]];
    (split; [reflexivity|]; split; [reflexivity|]; intros [|]; reflexivity).
Qed.

(* ------------------------------------------------------------------ *)
(** ** Missing tables *)

Lemma prepare_missing_remote (db : sqlite3) (s : sql) :
  zrtpIdRemote db = None ->
  s = selectZrtpIdRemoteAll \/ s = insertZrtpIdRemote
  \/ s = updateZrtpIdRemote \/ s = selectZrtpIdRemoteAllNoCondition ->
  SQLITE_PREPARE db s = (SQLITE_ERROR, None).
Proof.
  intros H [-> | [-> | [-> | ->]]]; cbn; now rewrite H.
Qed.

Lemma prepare_missing_names (db : sqlite3) (s : sql) :
  zrtpNames db = None ->
  s = selectZrtpNames \/ s = insertZrtpNames \/ s = updateZrtpNames ->
  SQLITE_PREPARE db s = (SQLITE_ERROR, None).
Proof.
  intros H [-> | [-> | ->]]; cbn; now rewrite H.
Qed.

(** X3: an operation whose table is missing returns [SQLITE_ERROR] from
    compiling its first statement.  The database, the caller's record or
    buffer and the random generator are as before the call, and the
    SQLite3 error message is written when the caller gave an error
    buffer.  For the cursor, [prepareReadAllZid] returns null. *)
Theorem missing_table_is_reported :
  (forall db remoteZid localZid r e,
      zrtpIdRemote db = None ->
      insertRemoteZidRecord db remoteZid localZid r e
      = (SQLITE_ERROR, db, ERRMSG e SQLITE_ERROR)
      /\ updateRemoteZidRecord db remoteZid localZid r e
         = (SQLITE_ERROR, db, ERRMSG e SQLITE_ERROR)
      /\ readRemoteZidRecord db remoteZid localZid r e
         = (SQLITE_ERROR, r, ERRMSG e SQLITE_ERROR)
      /\ prepareReadAllZid db e = (None, ERRMSG e SQLITE_ERROR))
  /\ (forall db g localZid accountInfo e,
        zrtpIdOwn db = None ->
        readLocalZid db g localZid accountInfo e
        = Some (SQLITE_ERROR, db, g, localZid, ERRMSG e SQLITE_ERROR))
  /\ (forall db now remoteZid localZid accountInfo zidName out e,
        zrtpNames db = None ->
        insertZidNameRecord db now remoteZid localZid accountInfo zidName e
        = (SQLITE_ERROR, db, ERRMSG e SQLITE_ERROR)
        /\ updateZidNameRecord db now remoteZid localZid accountInfo zidName e
           = (SQLITE_ERROR, db, ERRMSG e SQLITE_ERROR)
        /\ readZidNameRecord db remoteZid localZid accountInfo out e
           = Some (SQLITE_ERROR, out, ERRMSG e SQLITE_ERROR)).
Proof.
  split; [|split].
  - intros db remoteZid localZid r e H.
    unfold insertRemoteZidRecord, updateRemoteZidRecord, readRemoteZidRecord,
      prepareReadAllZid.
    rewrite !prepare_missing_remote by auto.
    repeat split; reflexivity.
  - intros db g localZid accountInfo e H. rewrite readLocalZid_own_key.
    cbv zeta. cbn [SQLITE_PREPARE]. rewrite H. reflexivity.
  - intros db now remoteZid localZid accountInfo zidName out e H.
    unfold insertZidNameRecord, updateZidNameRecord, readZidNameRecord.
    rewrite !prepare_missing_names by auto.
    repeat split; reflexivity.
Qed.

(** X4: a database that has [zrtpIdOwn] but no [zrtpIdRemote] (the
    state a run of [createTables] leaves when it is interrupted after its
    first statement, which runs outside a transaction) is opened with
    [SQLITE_OK] and left as it is; on the opened cache every peer-secret
    operation then fails with [SQLITE_ERROR], and the cursor cannot be
    prepared. *)
Theorem openCache_leaves_zrtpIdRemote_missing
    (db : sqlite3) (remoteZid localZid : list byte) (r : remoteZidRecord_t)
    (e : bool) :
  is_some (zrtpIdOwn db) = true ->
  zrtpIdRemote db = None ->
  let opened := openCache db e in
  opened = (SQLITE_OK, db, None)
  /\ fst (fst (insertRemoteZidRecord (snd (fst opened)) remoteZid localZid r e))
     = SQLITE_ERROR
  /\ fst (fst (updateRemoteZidRecord (snd (fst opened)) remoteZid localZid r e))
     = SQLITE_ERROR
  /\ readRemoteZidRecord (snd (fst opened)) remoteZid localZid r e
     = (SQLITE_ERROR, r, ERRMSG e SQLITE_ERROR)
  /\ fst (prepareReadAllZid (snd (fst opened)) e) = None.
Proof.
  intros Hown Hremote opened.
  assert (E : opened = (SQLITE_OK, db, None)).
  { subst opened. unfold openCache. cbn [SQLITE_PREPARE sqlite3_step].
    rewrite Hown. reflexivity. }
  rewrite E. cbn [fst snd].
  unfold insertRemoteZidRecord, updateRemoteZidRecord, readRemoteZidRecord,
    prepareReadAllZid.
  rewrite !prepare_missing_remote by auto.
  repeat split; reflexivity.
Qed.

Lemma openCache_leaves_zrtpIdRemote_missing_witness :
  let opened := openCache cache_without_peer_tables true in
  (is_some (zrtpIdOwn cache_without_peer_tables) = true
   /\ zrtpIdRemote cache_without_peer_tables = None)
  /\ opened = (SQLITE_OK, cache_without_peer_tables, None)
  /\ fst (fst (insertRemoteZidRecord (snd (fst opened)) zid_alice zid_local
                 (sample_record 1 1700000000) true))
     = SQLITE_ERROR
  /\ fst (fst (updateRemoteZidRecord (snd (fst opened)) zid_alice zid_local
                 (sample_record 1 1700000000) true))
     = SQLITE_ERROR
  /\ readRemoteZidRecord (snd (fst opened)) zid_alice zid_local
       (sample_record 1 1700000000) true
     = (SQLITE_ERROR, sample_record 1 1700000000,
        ERRMSG true SQLITE_ERROR)
  /\ fst (prepareReadAllZid (snd (fst opened)) true) = None.
Proof.
  cbv zeta. split; [split; reflexivity|].
  exact (openCache_leaves_zrtpIdRemote_missing cache_without_peer_tables
           zid_alice zid_local (sample_record 1 1700000000) true
           eq_refl eq_refl).
Defined.

(* ------------------------------------------------------------------ *)
(** ** The error buffer *)

Lemma scan_localZid_count rows : forall st zid found,
  fold_left
    (fun (st : option (list byte * Z)) zidBase64Text =>
       match st with
       | None => None
       | Some (localZid, found) =>
           if found =? 0 then
             match b64Decode zidBase64Text with
             | Some bin =>
                 match store bin localZid with
                 | Some localZid => Some (localZid, found + 1)
                 | None => None
                 end
             | None => None
             end
           else Some (localZid, found + 1)
       end)
    rows st = Some (zid, found) ->
  exists zid0 found0,
    st = Some (zid0, found0) /\ found = found0 + Z.of_nat (List.length rows).
Proof.
  induction rows as [|row rows IH]; intros st zid found H.
  - cbn in H. exists zid, found. split; [exact H|cbn; lia].
  - cbn [fold_left] in H. apply IH in H as (z1 & f1 & H & ->).
    destruct st as [[zid0 found0]|]; [|discriminate].
    exists zid0, found0. split; [reflexivity|].
    destruct (found0 =? 0).
    + destruct (b64Decode row) as [bin|]; [|discriminate].
      destruct (store bin zid0); [|discriminate].
      injection H as _ <-. cbn [List.length]. lia.
    + injection H as _ <-. cbn [List.length]. lia.
Qed.

(** X5: a call writes a message to the error buffer exactly when the
    caller passed a buffer and the call returns a code other than
    [SQLITE_OK]: nothing is written through a null [errString], nothing
    is written by a call that succeeds, and every failure is described.
    For [prepareReadAllZid] the failure is the null statement handle. *)
Theorem message_iff_failure_and_buffer :
  (forall db e,
      let res := openCache db e in
      is_some (snd res) = e && negb (fst (fst res) =? SQLITE_OK))
  /\ (forall db busy e,
        let res := clearCache db busy e in
        is_some (snd res) = e && negb (fst (fst res) =? SQLITE_OK))
  /\ (forall db remoteZid localZid r e,
        let res := insertRemoteZidRecord db remoteZid localZid r e in
        is_some (snd res) = e && negb (fst (fst res) =? SQLITE_OK))
  /\ (forall db remoteZid localZid r e,
        let res := updateRemoteZidRecord db remoteZid localZid r e in
        is_some (snd res) = e && negb (fst (fst res) =? SQLITE_OK))
  /\ (forall db remoteZid localZid r e,
        let res := readRemoteZidRecord db remoteZid localZid r e in
        is_some (snd res) = e && negb (fst (fst res) =? SQLITE_OK))
  /\ (forall db g localZid accountInfo e rc db' g' zid msg,
        readLocalZid db g localZid accountInfo e
        = Some (rc, db', g', zid, msg) ->
        is_some msg = e && negb (rc =? SQLITE_OK))
  /\ (forall db now remoteZid localZid accountInfo zidName e,
        let res :=
          insertZidNameRecord db now remoteZid localZid accountInfo zidName e
        in
        is_some (snd res) = e && negb (fst (fst res) =? SQLITE_OK))
  /\ (forall db now remoteZid localZid accountInfo zidName e,
        let res :=
          updateZidNameRecord db now remoteZid localZid accountInfo zidName e
        in
        is_some (snd res) = e && negb (fst (fst res) =? SQLITE_OK))
  /\ (forall db remoteZid localZid accountInfo out e rc out' msg,
        readZidNameRecord db remoteZid localZid accountInfo out e
        = Some (rc, out', msg) ->
        is_some msg = e && negb (rc =? SQLITE_OK))
  /\ (forall db e,
        let res := prepareReadAllZid db e in
        is_some (snd res) = e && negb (is_some (fst res))).
Proof.
  repeat match goal with |- _ /\ _ => split end.
  - intros [[own|] [remote|] [names|]] e; cbn; now rewrite andb_false_r.
  - intros [[own|] [remote|] [names|]] [|] [|]; reflexivity.
  - intros db remoteZid localZid r e. unfold insertRemoteZidRecord.
    cbn [SQLITE_PREPARE]. destruct (zrtpIdRemote db), e; reflexivity.
  - intros db remoteZid localZid r e. unfold updateRemoteZidRecord.
    cbn [SQLITE_PREPARE]. destruct (zrtpIdRemote db), e; reflexivity.
  - intros db remoteZid localZid r e. unfold readRemoteZidRecord.
    cbn [SQLITE_PREPARE].
    destruct (zrtpIdRemote db) as [rows|] eqn:E;
      [|destruct e; reflexivity].
    cbn [is_some]. change (negb (SQLITE_OK =? SQLITE_OK)) with false.
    cbv iota.
    destruct (scan_remoteZidRecord _ r) as [remZid found].
    destruct (found =? 0); [cbn; now rewrite andb_false_r|].
    destruct (1 <? found); [destruct e; reflexivity|].
    cbn; now rewrite andb_false_r.
  - intros db g localZid accountInfo e rc db' g' zid msg.
    rewrite readLocalZid_own_key. cbv zeta. cbn [SQLITE_PREPARE].
    destruct (zrtpIdOwn db) as [rows|] eqn:E.
    + cbn [is_some]. change (negb (SQLITE_OK =? SQLITE_OK)) with false.
      cbv iota.
      destruct (scan_localZid _ localZid) as [[zid0 found]|]; [|discriminate].
      destruct (found =? 0).
      * destruct (randomZRTP g IDENTIFIER_LEN) as [rnd g1].
        destruct (store rnd zid0) as [z|]; [|discriminate].
        cbn [SQLITE_PREPARE step_insertZrtpIdOwn]. rewrite ?E.
        cbn [is_some].
        change (negb (SQLITE_OK =? SQLITE_OK)) with false.
        change (negb (SQLITE_DONE =? SQLITE_DONE)) with false. cbv iota.
        intros H. injection H as <- _ _ _ <-. cbn.
        now rewrite andb_false_r.
      * destruct (1 <? found); intros H; injection H as <- _ _ _ <-.
        -- destruct e; reflexivity.
        -- cbn. now rewrite andb_false_r.
    + cbn. intros H. injection H as <- _ _ _ <-. destruct e; reflexivity.
  - intros db now remoteZid localZid accountInfo zidName e.
    unfold insertZidNameRecord. cbn [SQLITE_PREPARE].
    destruct (zrtpNames db), e; reflexivity.
  - intros db now remoteZid localZid accountInfo zidName e.
    unfold updateZidNameRecord. cbn [SQLITE_PREPARE].
    destruct (zrtpNames db), e; reflexivity.
  - intros db remoteZid localZid accountInfo out e rc out' msg.
    unfold readZidNameRecord. cbn [SQLITE_PREPARE].
    destruct (zrtpNames db) as [rows|] eqn:E.
    + cbn [is_some]. change (negb (SQLITE_OK =? SQLITE_OK)) with false.
      cbv iota.
      destruct (scan_zidNameRecord _ out 0) as [[z found]|]; [|discriminate].
      destruct (found =? 0).
      * intros H. injection H as <- _ <-. cbn. now rewrite andb_false_r.
      * destruct (1 <? found); intros H; injection H as <- _ <-.
        -- destruct e; reflexivity.
        -- cbn. now rewrite andb_false_r.
    + cbn. intros H. injection H as <- _ <-. destruct e; reflexivity.
  - intros db e. unfold prepareReadAllZid. cbn [SQLITE_PREPARE].
    destruct (zrtpIdRemote db), e; reflexivity.
Qed.

(* ------------------------------------------------------------------ *)
(** ** Peer-secret store: every timestamp, other keys, row counts *)

Lemma column_strftime_read_back (s : Z) :
  sqlite3_column_int64
    (strftime_s_unixepoch (strftime_s_unixepoch (Some s))) = read_back s.
Proof.
  unfold read_back. destruct (unixepoch_valid s) eqn:E.
  - now apply column_strftime_strftime.
  - now apply column_strftime_invalid.
Qed.

Lemma column_bind_read_back (k1 k2 : string) (r out : remoteZidRecord_t) :
  wf_remoteZidRecord r = true ->
  column_remoteZidRecord (bind_remoteZidRecord k1 k2 r) out
  = with_identifier (read_back_record r) (identifier out).
Proof.
  intros Hwf.
  apply wf_remoteZidRecord_spec in Hwf as (Hf & Hp & H1 & H2 & Hm).
  unfold column_remoteZidRecord, bind_remoteZidRecord, values_zrtpIdRemote,
    with_identifier, read_back_record.
  cbn [col_flags col_rs1 col_rs1LastUsed col_rs1TimeToLive col_rs2
       col_rs2LastUsed col_rs2TimeToLive col_mitmKey col_mitmLastUsed
       col_secureSince col_preshCounter
       identifier flags rs1 rs1LastUse rs1Ttl rs2 rs2LastUse rs2Ttl mitmKey
       mitmLastUse secureSince preshCounter].
  rewrite !to_uint32_column_int by assumption.
  rewrite !memcpy_firstn by assumption.
  rewrite !column_strftime_read_back.
  reflexivity.
Qed.

(** X6: what a read returns after an insert, for every record the C type
    can hold.  Flags, counter and the three secrets come back as written;
    each of the six timestamps comes back as written when it lies in the
    range of dates the engine covers, and as 0 when it does not, each
    field on its own.  The identifier bytes of the caller's record are
    not written. *)
Theorem insert_then_read_any_timestamp
    (db : sqlite3) (remoteZid localZid : list byte)
    (r remZid : remoteZidRecord_t) (e e' : bool) :
  is_some (zrtpIdRemote db) = true ->
  matching db remoteZid localZid = [] ->
  wf_remoteZidRecord r = true ->
  let ins := insertRemoteZidRecord db remoteZid localZid r e in
  fst (fst ins) = SQLITE_OK
  /\ readRemoteZidRecord (snd (fst ins)) remoteZid localZid remZid e'
     = (SQLITE_OK, with_identifier (read_back_record r) (identifier remZid),
        None).
Proof.
  intros H Hm Hwf ins. subst ins. split.
  - now rewrite insertRemoteZidRecord_ok.
  - rewrite (readRemoteZidRecord_one _ _ _
               (bind_remoteZidRecord (b64Encode remoteZid IDENTIFIER_LEN)
                  (b64Encode localZid IDENTIFIER_LEN) r)).
    + now rewrite column_bind_read_back.
    + now apply insert_keeps_table.
    + rewrite matching_insert_same by exact H. now rewrite Hm.
Qed.

Lemma insert_then_read_any_timestamp_witness :
  let ins :=
    insertRemoteZidRecord empty_cache zid_alice zid_local
      record_never_expires true in
  (is_some (zrtpIdRemote empty_cache) = true
   /\ matching empty_cache zid_alice zid_local = []
   /\ wf_remoteZidRecord record_never_expires = true)
  /\ fst (fst ins) = SQLITE_OK
  /\ readRemoteZidRecord (snd (fst ins)) zid_alice zid_local
       (sample_record 0 0) true
     = (SQLITE_OK,
        with_identifier (read_back_record record_never_expires)
          (identifier (sample_record 0 0)),
        None)
  /\ rs1LastUse (read_back_record record_never_expires) = 1700000000
  /\ rs1Ttl (read_back_record record_never_expires) = 0
  /\ secureSince (read_back_record record_never_expires) = 0.
Proof.
  cbv zeta. split; [repeat split; reflexivity|].
  destruct (insert_then_read_any_timestamp empty_cache zid_alice zid_local
              record_never_expires (sample_record 0 0) true true
              eq_refl eq_refl eq_refl) as (H1 & H2).
  split; [exact H1|]. split; [exact H2|].
  repeat split; reflexivity.
Defined.

Lemma remote_key_other_key remoteZid localZid rz lz r :
  List.length remoteZid = IDENTIFIER_LEN ->
  List.length localZid = IDENTIFIER_LEN ->
  List.length rz = IDENTIFIER_LEN ->
  List.length lz = IDENTIFIER_LEN ->
  (rz, lz) <> (remoteZid, localZid) ->
  remote_key (b64Encode rz IDENTIFIER_LEN) (b64Encode lz IDENTIFIER_LEN)
    (bind_remoteZidRecord (b64Encode remoteZid IDENTIFIER_LEN)
       (b64Encode localZid IDENTIFIER_LEN) r) = false.
Proof.
  intros L1 L2 L3 L4 Hne.
  apply (remote_key_other (remoteZid, localZid, r) rz lz); cbn [fst snd];
    try assumption.
  congruence.
Qed.

(** X7: an insert under one key is not seen under any other key: for
    every other pair of 12-byte identifiers the read returns after the
    insert exactly what it returned before.  The insert leaves the
    own-identity table and the name table as they are. *)
Theorem insertRemoteZidRecord_frame
    (db : sqlite3) (remoteZid localZid rz lz : list byte)
    (r remZid : remoteZidRecord_t) (e e' : bool) :
  List.length remoteZid = IDENTIFIER_LEN ->
  List.length localZid = IDENTIFIER_LEN ->
  List.length rz = IDENTIFIER_LEN ->
  List.length lz = IDENTIFIER_LEN ->
  (rz, lz) <> (remoteZid, localZid) ->
  let db' := snd (fst (insertRemoteZidRecord db remoteZid localZid r e)) in
  readRemoteZidRecord db' rz lz remZid e'
  = readRemoteZidRecord db rz lz remZid e'
  /\ zrtpIdOwn db' = zrtpIdOwn db /\ zrtpNames db' = zrtpNames db.
Proof.
  intros L1 L2 L3 L4 Hne db'. subst db'.
  destruct (zrtpIdRemote db) as [rows|] eqn:E.
  - assert (H : is_some (zrtpIdRemote db) = true) by now rewrite E.
    split.
    + apply readRemoteZidRecord_ext.
      * now rewrite insert_keeps_table.
      * rewrite matching_insert by exact H. cbn [filter].
        rewrite remote_key_other_key by assumption. apply app_nil_r.
    + rewrite insertRemoteZidRecord_ok by exact H. split; reflexivity.
  - unfold insertRemoteZidRecord. cbn [SQLITE_PREPARE]. rewrite E.
    repeat split; reflexivity.
Qed.

Lemma insertRemoteZidRecord_frame_witness :
  let db' :=
    snd (fst (insertRemoteZidRecord cache_alice_bob zid_carol zid_local
                (sample_record 9 1700000900) true)) in
  (List.length zid_carol = IDENTIFIER_LEN
   /\ List.length zid_local = IDENTIFIER_LEN
   /\ List.length zid_alice = IDENTIFIER_LEN
   /\ (zid_alice, zid_local) <> (zid_carol, zid_local))
  /\ readRemoteZidRecord db' zid_alice zid_local (sample_record 0 0) true
     = readRemoteZidRecord cache_alice_bob zid_alice zid_local
         (sample_record 0 0) true
  /\ zrtpIdOwn db' = zrtpIdOwn cache_alice_bob
  /\ zrtpNames db' = zrtpNames cache_alice_bob.
Proof.
  cbv zeta.
  assert (Hne : (zid_alice, zid_local) <> (zid_carol, zid_local))
    by discriminate.
  split; [repeat split; try reflexivity; exact Hne|].
  exact (insertRemoteZidRecord_frame cache_alice_bob zid_carol zid_local
           zid_alice zid_local (sample_record 9 1700000900)
           (sample_record 0 0) true true eq_refl eq_refl eq_refl eq_refl Hne).
Defined.

Lemma scan_remoteZidRecord_count rows out :
  snd (scan_remoteZidRecord rows out) = Z.of_nat (List.length rows)
  /\ identifier (fst (scan_remoteZidRecord rows out)) = identifier out.
Proof.
  destruct (scan_remoteZidRecord_acc rows (out, 0)) as [Hid Hn].
  cbv zeta in Hid, Hn. cbn [fst snd] in Hid, Hn.
  unfold scan_remoteZidRecord. split; [rewrite Hn; lia|exact Hid].
Qed.

(** The result code of a read is decided by the presence of the table
    and the number of rows the key selects. *)
Lemma readRemoteZidRecord_code db rz lz out e :
  fst (fst (readRemoteZidRecord db rz lz out e))
  = if is_some (zrtpIdRemote db)
    then if 1 <? Z.of_nat (List.length (matching db rz lz))
         then 1 else SQLITE_OK
    else SQLITE_ERROR.
Proof.
  unfold readRemoteZidRecord. fold (matching db rz lz).
  cbn [SQLITE_PREPARE].
  destruct (zrtpIdRemote db) as [rows|] eqn:E; [|reflexivity].
  cbn [is_some]. change (negb (SQLITE_OK =? SQLITE_OK)) with false. cbv iota.
  destruct (scan_remoteZidRecord_count (matching db rz lz) out) as [Hn _].
  destruct (scan_remoteZidRecord (matching db rz lz) out) as [remZid found].
  cbn [snd] in Hn. subst found.
  destruct (Z.eqb_spec (Z.of_nat (List.length (matching db rz lz))) 0)
    as [E0|E0].
  - rewrite E0. reflexivity.
  - destruct (1 <? Z.of_nat (List.length (matching db rz lz))); reflexivity.
Qed.

(** X8: an update changes rows in place: it adds no row and removes
    none, under any key, and touches neither the own-identity table nor
    the name table.  So the result code of a read under any key is the
    same after the update as before: an update never makes a consistent
    key inconsistent, and never repairs an inconsistent one. *)
Theorem updateRemoteZidRecord_keeps_row_counts
    (db : sqlite3) (remoteZid localZid : list byte) (r : remoteZidRecord_t)
    (e : bool) :
  let db' := snd (fst (updateRemoteZidRecord db remoteZid localZid r e)) in
  (forall rz lz,
      List.length (matching db' rz lz) = List.length (matching db rz lz))
  /\ (forall rz lz remZid e',
        fst (fst (readRemoteZidRecord db' rz lz remZid e'))
        = fst (fst (readRemoteZidRecord db rz lz remZid e')))
  /\ zrtpIdOwn db' = zrtpIdOwn db /\ zrtpNames db' = zrtpNames db.
Proof.
  intros db'.
  assert (Hlen : forall rz lz,
             List.length (matching db' rz lz)
             = List.length (matching db rz lz)).
  { intros rz lz. subst db'. rewrite matching_update. apply length_map. }
  split; [exact Hlen|]. split.
  - intros rz lz remZid e'. rewrite !readRemoteZidRecord_code, Hlen.
    subst db'. now rewrite update_keeps_table.
  - subst db'. unfold updateRemoteZidRecord. cbn [SQLITE_PREPARE].
    destruct (zrtpIdRemote db); split; reflexivity.
Qed.

Lemma map_set_absent (new : zrtpIdRemote_row) rows :
  filter (remote_key (col_remoteZid new) (col_localZid new)) rows = [] ->
  map (set_zrtpIdRemote new) rows = rows.
Proof.
  induction rows as [|row rows IH]; [reflexivity|].
  cbn [filter map]. unfold set_zrtpIdRemote at 1.
  destruct (remote_key (col_remoteZid new) (col_localZid new) row);
    [discriminate|].
  intros H. now rewrite IH.
Qed.

(** X9: an update under a key that selects no row is not an error: it
    returns [SQLITE_OK], writes no message and leaves the whole database
    exactly as it was.  No row is created for the key. *)
Theorem updateRemoteZidRecord_absent_key
    (db : sqlite3) (remoteZid localZid : list byte) (r : remoteZidRecord_t)
    (e : bool) :
  is_some (zrtpIdRemote db) = true ->
  matching db remoteZid localZid = [] ->
  updateRemoteZidRecord db remoteZid localZid r e = (SQLITE_OK, db, None).
Proof.
  intros H Hm. rewrite updateRemoteZidRecord_ok by exact H.
  unfold step_updateZrtpIdRemote. cbn [snd].
  rewrite map_set_absent by exact Hm.
  destruct db as [own [rows|] names]; [reflexivity|discriminate].
Qed.

Lemma updateRemoteZidRecord_absent_key_witness :
  (is_some (zrtpIdRemote cache_alice_bob) = true
   /\ matching cache_alice_bob zid_carol zid_local = [])
  /\ updateRemoteZidRecord cache_alice_bob zid_carol zid_local
       (sample_record 9 1700000900) true
     = (SQLITE_OK, cache_alice_bob, None).
Proof.
  split; [split; reflexivity|].
  exact (updateRemoteZidRecord_absent_key cache_alice_bob zid_carol zid_local
           (sample_record 9 1700000900) true eq_refl eq_refl).
Defined.

(** X10: a keyed read never writes the identifier field of the caller's
    record, whatever it finds and whatever it returns.  When the key
    selects a row, every other field is overwritten from the stored row,
    so the result does not depend on what the record held before the
    call. *)
Theorem readRemoteZidRecord_output_fields
    (db : sqlite3) (remoteZid localZid : list byte)
    (remZid : remoteZidRecord_t) (e : bool) :
  identifier (snd (fst (readRemoteZidRecord db remoteZid localZid remZid e)))
  = identifier remZid
  /\ (forall remZid',
        matching db remoteZid localZid <> [] ->
        identifier remZid' = identifier remZid ->
        readRemoteZidRecord db remoteZid localZid remZid' e
        = readRemoteZidRecord db remoteZid localZid remZid e).
Proof.
  split.
  - unfold readRemoteZidRecord.
    fold (matching db remoteZid localZid). cbn [SQLITE_PREPARE].
    destruct (zrtpIdRemote db) as [rows|] eqn:E; [|reflexivity].
    cbn [is_some]. change (negb (SQLITE_OK =? SQLITE_OK)) with false.
    cbv iota.
    destruct (scan_remoteZidRecord_count (matching db remoteZid localZid)
                remZid) as [_ Hid].
    destruct (scan_remoteZidRecord (matching db remoteZid localZid) remZid)
      as [out found].
    cbn [fst] in Hid.
    destruct (found =? 0); [exact Hid|].
    destruct (1 <? found); exact Hid.
  - intros remZid' Hne Hid.
    destruct (exists_last Hne) as (rows & row & Hm).
    assert (H : is_some (zrtpIdRemote db) = true).
    { destruct (zrtpIdRemote db) eqn:E; [reflexivity|].
      unfold matching, step_selectZrtpIdRemoteAll in Hm. rewrite E in Hm.
      destruct rows; discriminate. }
    rewrite !readRemoteZidRecord_scan by exact H.
    rewrite Hm, !scan_remoteZidRecord_last.
    now rewrite (column_buffer row remZid' remZid Hid).
Qed.

(* ------------------------------------------------------------------ *)
(** ** Peer-secret store: many keys *)

Lemma entry_wf_spec (en : entry) :
  entry_wf en = true ->
  List.length (fst (fst en)) = IDENTIFIER_LEN
  /\ List.length (snd (fst en)) = IDENTIFIER_LEN
  /\ wf_remoteZidRecord (snd en) = true.
Proof.
  destruct en as [[rz lz] r]. unfold entry_wf. intros H. cbn [fst snd].
  apply andb_true_iff in H as [H Hw]. apply andb_true_iff in H as [H1 H2].
  apply Nat.eqb_eq in H1, H2. auto.
Qed.

Lemma filter_key_absent (l : list entry) remoteZid localZid :
  List.length remoteZid = IDENTIFIER_LEN ->
  List.length localZid = IDENTIFIER_LEN ->
  Forall (fun en => entry_wf en = true) l ->
  ~ In (remoteZid, localZid) (map fst l) ->
  filter (remote_key (b64Encode remoteZid IDENTIFIER_LEN)
                     (b64Encode localZid IDENTIFIER_LEN))
    (map entry_row l) = [].
Proof.
  intros L1 L2 Hok Hnotin. apply other_keys_match_nothing; try assumption.
  rewrite Forall_forall in *. intros en Hin.
  destruct (entry_wf_spec en (Hok en Hin)) as (L3 & L4 & _).
  split; [exact L3|]. split; [exact L4|].
  intros E. apply Hnotin. rewrite <- E. now apply in_map.
Qed.

Lemma filter_key_once (l : list entry) (en : entry) :
  Forall (fun en => entry_wf en = true) l ->
  NoDup (map fst l) ->
  In en l ->
  filter (remote_key (b64Encode (fst (fst en)) IDENTIFIER_LEN)
                     (b64Encode (snd (fst en)) IDENTIFIER_LEN))
    (map entry_row l) = [entry_row en].
Proof.
  induction l as [|en' l IH]; intros Hok Hnd Hin; [contradiction|].
  inversion Hok as [|? ? Hen' Hl]; subst.
  cbn [map] in Hnd. inversion Hnd as [|? ? Hnotin Hnd']; subst.
  assert (Hwf : entry_wf en = true)
    by (rewrite Forall_forall in Hok; now apply Hok).
  destruct (entry_wf_spec en Hwf) as (L1 & L2 & _).
  destruct (entry_wf_spec en' Hen') as (L3 & L4 & _).
  cbn [map filter]. destruct Hin as [->|Hin].
  - destruct en as [[rz lz] r]. cbn [fst snd] in *.
    unfold entry_row at 1. rewrite remote_key_bind.
    now rewrite filter_key_absent.
  - assert (Hne : fst en' <> (fst (fst en), snd (fst en))).
    { intros E. apply Hnotin. rewrite E.
      replace (fst (fst en), snd (fst en)) with (fst en)
        by (destruct en as [[? ?] ?]; reflexivity).
      now apply in_map. }
    rewrite remote_key_other by assumption. now apply IH.
Qed.

(** X11: on distinct keys the peer-secret store is a finite map.  After
    any number of inserts under pairwise distinct keys into an empty
    cache, the read under each of these keys returns [SQLITE_OK] and the
    record inserted under it (timestamps the engine's dates do not cover
    read 0), whatever was inserted before or after it. *)
Theorem insertAll_then_read
    (l : list entry) (remoteZid localZid : list byte)
    (r remZid : remoteZidRecord_t) (e : bool) :
  Forall (fun en => entry_wf en = true) l ->
  NoDup (map fst l) ->
  In (remoteZid, localZid, r) l ->
  readRemoteZidRecord (insertAll empty_cache l) remoteZid localZid remZid e
  = (SQLITE_OK, with_identifier (read_back_record r) (identifier remZid),
     None).
Proof.
  intros Hok Hnd Hin.
  assert (Hwf : entry_wf (remoteZid, localZid, r) = true)
    by (rewrite Forall_forall in Hok; now apply Hok).
  destruct (entry_wf_spec _ Hwf) as (_ & _ & Hr). cbn [snd] in Hr.
  rewrite (readRemoteZidRecord_one _ _ _
             (entry_row (remoteZid, localZid, r))).
  - unfold entry_row. now rewrite column_bind_read_back.
  - now rewrite insertAll_table.
  - rewrite matching_insertAll by reflexivity.
    change (matching empty_cache remoteZid localZid) with
      (@nil zrtpIdRemote_row).
    cbn [app].
    exact (filter_key_once l (remoteZid, localZid, r) Hok Hnd Hin).
Qed.

Lemma insertAll_then_read_witness :
  let l := [entry_alice; entry_far; entry_bob] in
  (Forall (fun en => entry_wf en = true) l
   /\ NoDup (map fst l)
   /\ In entry_far l)
  /\ readRemoteZidRecord (insertAll empty_cache l) zid_carol zid_local
       (sample_record 0 0) true
     = (SQLITE_OK,
        with_identifier (read_back_record (sample_record 3 253402300800))
          (identifier (sample_record 0 0)),
        None).
Proof.
  cbv zeta.
  assert (Hok : Forall (fun en => entry_wf en = true)
                  [entry_alice; entry_far; entry_bob])
    by (repeat constructor).
  assert (Hnd : NoDup (map fst [entry_alice; entry_far; entry_bob])).
  { repeat constructor; cbn; intuition discriminate. }
  assert (Hin : In entry_far [entry_alice; entry_far; entry_bob])
    by (right; left; reflexivity).
  split; [split; [exact Hok|split; [exact Hnd|exact Hin]]|].
  exact (insertAll_then_read [entry_alice; entry_far; entry_bob]
           zid_carol zid_local (sample_record 3 253402300800)
           (sample_record 0 0) true Hok Hnd Hin).
Defined.

(* ------------------------------------------------------------------ *)
(** ** Own-identity store: inconsistency and effects *)

Lemma scan_localZid_counts rows : forall zid found,
  0 < found ->
  fold_left
    (fun (st : option (list byte * Z)) zidBase64Text =>
       match st with
       | None => None
       | Some (localZid, found) =>
           if found =? 0 then
             match b64Decode zidBase64Text with
             | Some bin =>
                 match store bin localZid with
                 | Some localZid => Some (localZid, found + 1)
                 | None => None
                 end
             | None => None
             end
           else Some (localZid, found + 1)
       end)
    rows (Some (zid, found))
  = Some (zid, found + Z.of_nat (List.length rows)).
Proof.
  induction rows as [|row rows IH]; intros zid found Hpos.
  - cbn. now rewrite Z.add_0_r.
  - cbn [fold_left]. destruct (Z.eqb_spec found 0) as [E|_]; [lia|].
    rewrite IH by lia. cbn [List.length]. f_equal. f_equal. lia.
Qed.

Lemma scan_localZid_overrun rows :
  fold_left
    (fun (st : option (list byte * Z)) zidBase64Text =>
       match st with
       | None => None
       | Some (localZid, found) =>
           if found =? 0 then
             match b64Decode zidBase64Text with
             | Some bin =>
                 match store bin localZid with
                 | Some localZid => Some (localZid, found + 1)
                 | None => None
                 end
             | None => None
             end
           else Some (localZid, found + 1)
       end)
    rows None
  = None.
Proof. induction rows as [|row rows IH]; [reflexivity|exact IH]. Qed.

(** The loop on a first row that decodes to [bin]: the bytes are written
    to the start of the buffer when it can take them. *)
Lemma scan_localZid_first t rows bin buf :
  b64Decode t = Some bin ->
  scan_localZid (t :: rows) buf
  = if (List.length bin <=? List.length buf)%nat
    then Some (bin ++ skipn (List.length bin) buf,
               Z.of_nat (List.length (t :: rows)))
    else None.
Proof.
  intros Hd. unfold scan_localZid. cbn [fold_left].
  change (0 =? 0) with true. cbv iota. rewrite Hd. unfold store.
  destruct (List.length bin <=? List.length buf)%nat.
  - rewrite scan_localZid_counts by lia. cbn [List.length]. f_equal. f_equal.
    lia.
  - apply scan_localZid_overrun.
Qed.

(** X12: when more than one identifier is stored for a label and the
    first one decodes to no more bytes than the caller's buffer has, the
    lookup returns 1 and, into an error buffer, the message that names
    the number of rows and the normalised label ("_STANDARD_" for a null
    label).  It draws no random bytes and stores nothing, and the start
    of the caller's buffer already holds the decoded identifier of the
    first row.  When the first one decodes to more bytes than the buffer
    has, the decoder writes past its end and the call has no defined
    result. *)
Theorem readLocalZid_inconsistent
    (db : sqlite3) (g : random_state) (localZid : list byte)
    (accountInfo : option string) (e : bool)
    (t1 t2 : string) (rest : list string) (bin : list byte) :
  is_some (zrtpIdOwn db) = true ->
  own_matching db accountInfo = t1 :: t2 :: rest ->
  b64Decode t1 = Some bin ->
  readLocalZid db g localZid accountInfo e
  = if (List.length bin <=? List.length localZid)%nat
    then Some (1, db, g, bin ++ skipn (List.length bin) localZid,
               if e
               then Some (Matching_local_ZID
                            (Z.of_nat (List.length (t1 :: t2 :: rest)))
                            (fst (own_key accountInfo)))
               else None)
    else None.
Proof.
  intros H Hm Hd. rewrite readLocalZid_own_key. cbv zeta.
  cbn [SQLITE_PREPARE]. rewrite H.
  change (negb (SQLITE_OK =? SQLITE_OK)) with false. cbv iota.
  rewrite Hm, (scan_localZid_first t1 (t2 :: rest) bin) by exact Hd.
  destruct (List.length bin <=? List.length localZid)%nat; [|reflexivity].
  set (n := Z.of_nat (List.length (t1 :: t2 :: rest))).
  assert (Hn : 1 < n) by (subst n; cbn [List.length]; lia).
  destruct (Z.eqb_spec n 0); [lia|].
  destruct (Z.ltb_spec 1 n); [|lia].
  destruct e; reflexivity.
Qed.

Lemma readLocalZid_inconsistent_witness :
  (is_some (zrtpIdOwn cache_two_identities) = true
   /\ own_matching cache_two_identities None
      = [b64Encode zid_alice IDENTIFIER_LEN; b64Encode zid_bob IDENTIFIER_LEN]
   /\ b64Decode (b64Encode zid_alice IDENTIFIER_LEN) = Some zid_alice)
  /\ readLocalZid cache_two_identities counting_generator zid_local None true
     = Some (1, cache_two_identities, counting_generator, zid_alice,
             Some (Matching_local_ZID 2 "_STANDARD_"%string))
  /\ readLocalZid cache_two_identities counting_generator
       (firstn 8 zid_local) None true
     = None.
Proof.
  split; [repeat split; reflexivity|].
  split.
  - exact (readLocalZid_inconsistent cache_two_identities counting_generator
             zid_local None true
             (b64Encode zid_alice IDENTIFIER_LEN)
             (b64Encode zid_bob IDENTIFIER_LEN) [] zid_alice
             eq_refl eq_refl eq_refl).
  - exact (readLocalZid_inconsistent cache_two_identities counting_generator
             (firstn 8 zid_local) None true
             (b64Encode zid_alice IDENTIFIER_LEN)
             (b64Encode zid_bob IDENTIFIER_LEN) [] zid_alice
             eq_refl eq_refl eq_refl).
Defined.

Lemma store_firstn (rnd buf out : list byte) (n : nat) :
  List.length rnd = n -> store rnd buf = Some out -> firstn n out = rnd.
Proof.
  intros H. unfold store.
  destruct (List.length rnd <=? List.length buf)%nat; [|discriminate].
  intros E. injection E as <-.
  rewrite firstn_app, H, Nat.sub_diag.
  cbn [firstn]. rewrite app_nil_r. rewrite <- H. apply firstn_all.
Qed.

(** X13: what a lookup does to the cache and to the generator, for every
    call that returns.  It never touches the two peer tables and never
    changes what is stored for another label.  Either it stores nothing
    and draws nothing; or no identifier was stored for the label, and
    then it returns [SQLITE_OK], has drawn exactly the next
    [IDENTIFIER_LEN] random bytes into the buffer and has appended one
    row, which holds the text of these bytes under the normalised
    label. *)
Theorem readLocalZid_effects
    (db : sqlite3) (g : random_state) (localZid : list byte)
    (accountInfo : option string) (e : bool)
    (rc : Z) (db' : sqlite3) (g' : random_state) (zid : list byte)
    (msg : option message) :
  readLocalZid db g localZid accountInfo e = Some (rc, db', g', zid, msg) ->
  zrtpIdRemote db' = zrtpIdRemote db
  /\ zrtpNames db' = zrtpNames db
  /\ (forall b, own_key b <> own_key accountInfo ->
                own_matching db' b = own_matching db b)
  /\ ((db' = db /\ g' = g)
      \/ (own_matching db accountInfo = []
          /\ rc = SQLITE_OK
          /\ g' = snd (randomZRTP g IDENTIFIER_LEN)
          /\ firstn IDENTIFIER_LEN zid = next_draw g
          /\ db' = with_localZid db accountInfo (next_draw g))).
Proof.
  rewrite readLocalZid_own_key. cbv zeta. cbn [SQLITE_PREPARE].
  destruct (zrtpIdOwn db) as [rows|] eqn:E.
  - cbn [is_some]. change (negb (SQLITE_OK =? SQLITE_OK)) with false.
    cbv iota.
    destruct (scan_localZid (own_matching db accountInfo) localZid)
      as [[zid0 found]|] eqn:Hscan; [|discriminate].
    destruct (Z.eqb_spec found 0) as [E0|E0].
    + (* no row: draw and store *)
      assert (Hm : own_matching db accountInfo = []).
      { unfold scan_localZid in Hscan.
        apply scan_localZid_count in Hscan as (z0 & f0 & Hst & Hf).
        injection Hst as <- <-.
        destruct (own_matching db accountInfo); [reflexivity|].
        cbn [List.length] in Hf. lia. }
      rewrite Hm in Hscan. cbn in Hscan. injection Hscan as <- _.
      destruct (randomZRTP g IDENTIFIER_LEN) as [rnd g1] eqn:ER.
      assert (Hrnd : rnd = next_draw g) by (unfold next_draw; now rewrite ER).
      destruct (store rnd localZid) as [out|] eqn:Hstore; [|discriminate].
      cbn [SQLITE_PREPARE step_insertZrtpIdOwn snd]. rewrite ?E.
      cbn [is_some].
      change (negb (SQLITE_OK =? SQLITE_OK)) with false.
      change (negb (SQLITE_DONE =? SQLITE_DONE)) with false. cbv iota.
      assert (Hz : firstn IDENTIFIER_LEN out = next_draw g).
      { rewrite <- Hrnd. apply (store_firstn rnd localZid); [|exact Hstore].
        rewrite Hrnd. apply next_draw_length. }
      assert (Ht : b64Encode out IDENTIFIER_LEN
                   = b64Encode (next_draw g) IDENTIFIER_LEN).
      { unfold b64Encode. rewrite Hz.
        now rewrite firstn_all2
          by (rewrite next_draw_length; apply Nat.le_refl). }
      rewrite Ht.
      intros H. injection H as Hrc Hdb Hg Hzid Hmsg.
      assert (Hdb' : db' = with_localZid db accountInfo (next_draw g)).
      { rewrite <- Hdb. unfold with_localZid, step_insertZrtpIdOwn.
        cbn [snd]. rewrite E. reflexivity. }
      rewrite Hdb'.
      split; [reflexivity|]. split; [reflexivity|]. split.
      * intros b Hb. apply own_matching_stored_other. congruence.
      * right. split; [exact Hm|]. split; [now symmetry|].
        split; [rewrite <- Hg; reflexivity|].
        split; [now rewrite <- Hzid|reflexivity].
    + destruct (1 <? found); intros H; injection H as <- <- <- <- <-;
        (split; [reflexivity|]; split; [reflexivity|];
         split; [reflexivity|]; left; split; reflexivity).
  - cbn. intros H. injection H as <- <- <- <- <-.
    split; [reflexivity|]. split; [reflexivity|].
    split; [reflexivity|]. left. split; reflexivity.
Qed.

Lemma readLocalZid_effects_witness :
  let res := (SQLITE_OK, with_localZid empty_cache (Some "work"%string)
                           (next_draw counting_generator),
              snd (randomZRTP counting_generator IDENTIFIER_LEN),
              next_draw counting_generator, @None message) in
  readLocalZid empty_cache counting_generator zid_local
    (Some "work"%string) true = Some res
  /\ zrtpIdRemote (snd (fst (fst (fst res)))) = zrtpIdRemote empty_cache
  /\ zrtpNames (snd (fst (fst (fst res)))) = zrtpNames empty_cache
  /\ own_matching (snd (fst (fst (fst res)))) None
     = own_matching empty_cache None.
Proof.
  cbv zeta.
  assert (H : readLocalZid empty_cache counting_generator zid_local
                (Some "work"%string) true
              = Some (SQLITE_OK,
                      with_localZid empty_cache (Some "work"%string)
                        (next_draw counting_generator),
                      snd (randomZRTP counting_generator IDENTIFIER_LEN),
                      next_draw counting_generator, None))
    by reflexivity.
  split; [exact H|].
  destruct (readLocalZid_effects _ _ _ _ _ _ _ _ _ _ H)
    as (H1 & H2 & H3 & _).
  cbn [fst snd]. split; [exact H1|]. split; [exact H2|].
  apply H3. discriminate.
Defined.

(* ------------------------------------------------------------------ *)
(** ** Peer-name store: reading *)

Lemma strncpy_fits (dst : list ascii) (src : string) (n : Z) :
  0 <= n <= Z.of_nat (List.length dst) ->
  exists mem,
    strncpy dst src n = Some mem
    /\ mem = firstn (Z.to_nat n)
               (c_str (list_ascii_of_string src) ++ repeat zero (Z.to_nat n))
             ++ skipn (Z.to_nat n) dst
    /\ List.length mem = List.length dst.
Proof.
  intros Hn. unfold strncpy.
  destruct (Z.leb_spec 0 n); [|lia].
  destruct (Z.leb_spec n (Z.of_nat (List.length dst))); [|lia].
  cbn [andb]. eexists. split; [reflexivity|]. split; [reflexivity|].
  rewrite length_app, length_firstn, length_skipn, length_app, repeat_length.
  lia.
Qed.

Lemma strncpy_overrun (dst : list ascii) (src : string) (n : Z) :
  Z.of_nat (List.length dst) < n -> strncpy dst src n = None.
Proof.
  intros Hn. unfold strncpy.
  destruct (Z.leb_spec n (Z.of_nat (List.length dst))); [lia|].
  now rewrite andb_false_r.
Qed.

Lemma string_length_list (s : string) :
  List.length (list_ascii_of_string s) = String.length s.
Proof. induction s as [|c s IH]; cbn; [reflexivity|now rewrite IH]. Qed.

Lemma c_str_app_zero (l rest : list ascii) :
  c_str l = l -> c_str (l ++ zero :: rest) = l.
Proof.
  induction l as [|c l IH]; cbn [c_str app].
  - reflexivity.
  - destruct (Ascii.eqb c zero); [discriminate|].
    intros H. injection H as H. now rewrite IH.
Qed.

Section ReadName.

Variables (db : sqlite3) (remoteZid localZid : list byte).
Variable accountInfo : option string.

Lemma readZidNameRecord_scan out e :
  is_some (zrtpNames db) = true ->
  readZidNameRecord db remoteZid localZid accountInfo out e
  = match scan_zidNameRecord
            (names_matching db remoteZid localZid accountInfo) out 0 with
    | None => None
    | Some (zidName, found) =>
        if found =? 0 then
          Some (SQLITE_OK,
                {| out_name := out_name zidName;
                   out_nameLength := out_nameLength zidName;
                   out_flags := 0 |},
                None)
        else if 1 <? found then
          Some (1, zidName, snprintf e (More_than_one_ZID_name found))
        else Some (SQLITE_OK, zidName, None)
    end.
Proof.
  intros H. unfold readZidNameRecord. cbn [SQLITE_PREPARE]. rewrite H.
  reflexivity.
Qed.

(** One matching row: what the single pass of the loop leaves. *)
Lemma readZidNameRecord_one row out e :
  is_some (zrtpNames db) = true ->
  names_matching db remoteZid localZid accountInfo = [row] ->
  0 <= out_nameLength out <= Z.of_nat (List.length (out_name out)) ->
  readZidNameRecord db remoteZid localZid accountInfo out e
  = Some (SQLITE_OK,
          {| out_name :=
               firstn (Z.to_nat (out_nameLength out))
                 (c_str (list_ascii_of_string (nm_name row))
                  ++ repeat zero (Z.to_nat (out_nameLength out)))
               ++ skipn (Z.to_nat (out_nameLength out)) (out_name out);
             out_nameLength := Z.of_nat (String.length (nm_name row));
             out_flags := to_uint32 (sqlite3_column_int (nm_flags row)) |},
          None).
Proof.
  intros H Hm Hn. rewrite readZidNameRecord_scan by exact H. rewrite Hm.
  cbn [scan_zidNameRecord]. cbv zeta.
  destruct (strncpy_fits (out_name out) (nm_name row) (out_nameLength out) Hn)
    as (mem & -> & -> & _).
  reflexivity.
Qed.

End ReadName.

(** X14: a name read under a key that selects no row is not an error:
    it returns [SQLITE_OK], writes no message and sets the flags of the
    caller's record to 0; the caller's name array and [nameLength] are
    left as they were. *)
Theorem readZidNameRecord_absent
    (db : sqlite3) (remoteZid localZid : list byte)
    (accountInfo : option string) (out : zidNameRecord_out) (e : bool) :
  is_some (zrtpNames db) = true ->
  names_matching db remoteZid localZid accountInfo = [] ->
  readZidNameRecord db remoteZid localZid accountInfo out e
  = Some (SQLITE_OK,
          {| out_name := out_name out;
             out_nameLength := out_nameLength out;
             out_flags := 0 |},
          None).
Proof.
  intros H Hm. rewrite readZidNameRecord_scan by exact H. now rewrite Hm.
Qed.

Lemma readZidNameRecord_absent_witness :
  (is_some (zrtpNames cache_with_name) = true
   /\ names_matching cache_with_name zid_bob zid_local None = [])
  /\ readZidNameRecord cache_with_name zid_bob zid_local None
       (name_buffer 8) true
     = Some (SQLITE_OK, name_buffer 8, None).
Proof.
  split; [split; reflexivity|].
  exact (readZidNameRecord_absent cache_with_name zid_bob zid_local None
           (name_buffer 8) true eq_refl eq_refl).
Defined.

Lemma firstn_repeat_le {A} (x : A) (m k : nat) :
  (m <= k)%nat -> firstn m (repeat x k) = repeat x m.
Proof.
  revert k. induction m as [|m IH]; intros k Hk; [reflexivity|].
  destruct k as [|k]; [lia|]. cbn. f_equal. apply IH. lia.
Qed.

Lemma firstn_app_repeat {A} (x : A) (l : list A) (k : nat) :
  (List.length l <= k)%nat ->
  firstn k (l ++ repeat x k) = l ++ repeat x (k - List.length l).
Proof.
  intros H. rewrite firstn_app, firstn_all2 by exact H.
  now rewrite firstn_repeat_le by lia.
Qed.

Lemma firstn_app_short {A} (l r : list A) (k : nat) :
  (k <= List.length l)%nat -> firstn k (l ++ r) = firstn k l.
Proof.
  intros H. rewrite firstn_app.
  replace (k - List.length l)%nat with O by lia. cbn [firstn].
  apply app_nil_r.
Qed.

Section StoreName.

Variables (db : sqlite3) (now : Z) (remoteZid localZid : list byte).
Variables (accountInfo : option string) (zidName : zidNameRecord_t).

Lemma insertZidNameRecord_row e :
  is_some (zrtpNames db) = true ->
  insertZidNameRecord db now remoteZid localZid accountInfo zidName e
  = (SQLITE_OK,
     {| zrtpIdOwn := zrtpIdOwn db;
        zrtpIdRemote := zrtpIdRemote db;
        zrtpNames :=
          Some (table (zrtpNames db)
                ++ [bind_zidNameRecord (b64Encode remoteZid IDENTIFIER_LEN)
                      (b64Encode localZid IDENTIFIER_LEN)
                      (names_account accountInfo) zidName now]) |},
     None).
Proof.
  intros H. unfold insertZidNameRecord. cbn [SQLITE_PREPARE]. rewrite H.
  reflexivity.
Qed.

Lemma updateZidNameRecord_rows e :
  is_some (zrtpNames db) = true ->
  updateZidNameRecord db now remoteZid localZid accountInfo zidName e
  = (SQLITE_OK,
     {| zrtpIdOwn := zrtpIdOwn db;
        zrtpIdRemote := zrtpIdRemote db;
        zrtpNames :=
          Some (map (set_zrtpNames
                       (bind_zidNameRecord
                          (b64Encode remoteZid IDENTIFIER_LEN)
                          (b64Encode localZid IDENTIFIER_LEN)
                          (names_account accountInfo) zidName now))
                  (table (zrtpNames db))) |},
     None).
Proof.
  intros H. unfold updateZidNameRecord. cbn [SQLITE_PREPARE]. rewrite H.
  reflexivity.
Qed.

Lemma names_key_bind :
  names_key (b64Encode remoteZid IDENTIFIER_LEN)
    (b64Encode localZid IDENTIFIER_LEN) (names_account accountInfo)
    (bind_zidNameRecord (b64Encode remoteZid IDENTIFIER_LEN)
       (b64Encode localZid IDENTIFIER_LEN) (names_account accountInfo)
       zidName now) = true.
Proof.
  unfold names_key. cbn. now rewrite !String.eqb_refl.
Qed.

Lemma names_matching_insert_same e :
  is_some (zrtpNames db) = true ->
  names_matching
    (snd (fst (insertZidNameRecord db now remoteZid localZid accountInfo
                 zidName e)))
    remoteZid localZid accountInfo
  = names_matching db remoteZid localZid accountInfo
    ++ [bind_zidNameRecord (b64Encode remoteZid IDENTIFIER_LEN)
          (b64Encode localZid IDENTIFIER_LEN) (names_account accountInfo)
          zidName now].
Proof.
  intros H. rewrite insertZidNameRecord_row by exact H.
  unfold names_matching. cbn [fst snd zrtpNames table].
  rewrite filter_app. cbn [filter].
  fold (names_account accountInfo). now rewrite names_key_bind.
Qed.

End StoreName.

(** X15: a name written by an insert is read back under its key when the
    caller's array has room for it and its terminator.  The flags come
    back as written; the array holds the name, then NUL chars up to the
    [nameLength] the caller passed, then its old bytes; and [nameLength]
    is the length of the name.  The name of a record whose name pointer
    is null reads back as "_NO_NAME_". *)
Theorem insert_then_readZidNameRecord
    (db : sqlite3) (now : Z) (remoteZid localZid : list byte)
    (accountInfo : option string) (zidName : zidNameRecord_t)
    (out : zidNameRecord_out) (e e' : bool) :
  is_some (zrtpNames db) = true ->
  names_matching db remoteZid localZid accountInfo = [] ->
  uint32_range (nameFlags zidName) = true ->
  c_str (list_ascii_of_string (name_text zidName))
  = list_ascii_of_string (name_text zidName) ->
  Z.of_nat (String.length (name_text zidName)) < out_nameLength out ->
  out_nameLength out <= Z.of_nat (List.length (out_name out)) ->
  let ins :=
    insertZidNameRecord db now remoteZid localZid accountInfo zidName e in
  let mem :=
    list_ascii_of_string (name_text zidName)
    ++ repeat zero
         (Z.to_nat (out_nameLength out) - String.length (name_text zidName))
    ++ skipn (Z.to_nat (out_nameLength out)) (out_name out) in
  fst (fst ins) = SQLITE_OK
  /\ readZidNameRecord (snd (fst ins)) remoteZid localZid accountInfo out e'
     = Some (SQLITE_OK,
             {| out_name := mem;
                out_nameLength :=
                  Z.of_nat (String.length (name_text zidName));
                out_flags := nameFlags zidName |},
             None)
  /\ c_str mem = list_ascii_of_string (name_text zidName)
  /\ List.length mem = List.length (out_name out).
Proof.
  intros H Hm Hf Hc Hlen Hcap ins mem.
  assert (Hk : (String.length (name_text zidName)
                < Z.to_nat (out_nameLength out))%nat) by lia.
  split; [subst ins; now rewrite insertZidNameRecord_row|].
  split; [|split].
  - subst ins.
    rewrite (readZidNameRecord_one _ _ _ _
               (bind_zidNameRecord (b64Encode remoteZid IDENTIFIER_LEN)
                  (b64Encode localZid IDENTIFIER_LEN)
                  (names_account accountInfo) zidName now)).
    + unfold bind_zidNameRecord, values_zrtpNames. cbn [nm_name nm_flags].
      fold (name_text zidName).
      rewrite to_uint32_column_int by exact Hf. rewrite Hc.
      rewrite firstn_app_repeat by (rewrite string_length_list; lia).
      rewrite string_length_list, <- app_assoc. reflexivity.
    + now rewrite insertZidNameRecord_row.
    + rewrite names_matching_insert_same by exact H. now rewrite Hm.
    + lia.
  - subst mem.
    destruct (Z.to_nat (out_nameLength out)
              - String.length (name_text zidName))%nat as [|k] eqn:Ek;
      [lia|].
    cbn [repeat app]. now apply c_str_app_zero.
  - subst mem. rewrite !length_app, repeat_length, length_skipn.
    rewrite string_length_list. lia.
Qed.

Lemma insert_then_readZidNameRecord_witness :
  let ins :=
    insertZidNameRecord empty_cache 1700000000 zid_alice zid_local None
      sample_no_name true in
  (is_some (zrtpNames empty_cache) = true
   /\ names_matching empty_cache zid_alice zid_local None = []
   /\ uint32_range (nameFlags sample_no_name) = true
   /\ Z.of_nat (String.length (name_text sample_no_name))
      < out_nameLength (name_buffer 12)
   /\ out_nameLength (name_buffer 12)
      <= Z.of_nat (List.length (out_name (name_buffer 12))))
  /\ fst (fst ins) = SQLITE_OK
  /\ readZidNameRecord (snd (fst ins)) zid_alice zid_local None
       (name_buffer 12) true
     = Some (SQLITE_OK,
             {| out_name :=
                  list_ascii_of_string "_NO_NAME_" ++ [zero; zero; zero];
                out_nameLength := 9;
                out_flags := 0 |},
             None).
Proof.
  cbv zeta.
  assert (H1 : Z.of_nat (String.length (name_text sample_no_name))
               < out_nameLength (name_buffer 12)) by reflexivity.
  assert (H2 : out_nameLength (name_buffer 12)
               <= Z.of_nat (List.length (out_name (name_buffer 12))))
    by discriminate.
  split; [repeat split; try reflexivity; assumption|].
  destruct (insert_then_readZidNameRecord empty_cache 1700000000 zid_alice
              zid_local None sample_no_name (name_buffer 12) true true
              eq_refl eq_refl eq_refl eq_refl H1 H2) as (Hi & Hr & _).
  split; [exact Hi|exact Hr].
Defined.

(** X16: a stored name that does not fit is cut, and the cut is visible
    only in [nameLength].  When the key selects one row whose name has
    at least as many characters as the [nameLength] the caller passed,
    the call returns [SQLITE_OK]; the array holds the first [nameLength]
    characters of the name, followed by its old bytes and no terminator
    from this call; and [nameLength] is set to the full length of the
    stored name, which is not smaller than the value passed. *)
Theorem readZidNameRecord_truncates
    (db : sqlite3) (remoteZid localZid : list byte)
    (accountInfo : option string) (row : zrtpNames_row)
    (out : zidNameRecord_out) (e : bool) :
  is_some (zrtpNames db) = true ->
  names_matching db remoteZid localZid accountInfo = [row] ->
  c_str (list_ascii_of_string (nm_name row))
  = list_ascii_of_string (nm_name row) ->
  0 <= out_nameLength out <= Z.of_nat (List.length (out_name out)) ->
  out_nameLength out <= Z.of_nat (String.length (nm_name row)) ->
  readZidNameRecord db remoteZid localZid accountInfo out e
  = Some (SQLITE_OK,
          {| out_name :=
               firstn (Z.to_nat (out_nameLength out))
                 (list_ascii_of_string (nm_name row))
               ++ skipn (Z.to_nat (out_nameLength out)) (out_name out);
             out_nameLength := Z.of_nat (String.length (nm_name row));
             out_flags := to_uint32 (sqlite3_column_int (nm_flags row)) |},
          None).
Proof.
  intros H Hm Hc Hn Hlen.
  rewrite (readZidNameRecord_one _ _ _ _ row) by assumption.
  rewrite Hc, firstn_app_short by (rewrite string_length_list; lia).
  reflexivity.
Qed.

Lemma readZidNameRecord_truncates_witness :
  (is_some (zrtpNames cache_with_name) = true
   /\ 0 <= out_nameLength (name_buffer 3)
      <= Z.of_nat (List.length (out_name (name_buffer 3)))
   /\ out_nameLength (name_buffer 3) <= Z.of_nat (String.length "Alice"))
  /\ readZidNameRecord cache_with_name zid_alice zid_local None
       (name_buffer 3) true
     = Some (SQLITE_OK,
             {| out_name := list_ascii_of_string "Ali";
                out_nameLength := 5;
                out_flags := 1 |},
             None).
Proof.
  assert (H1 : 0 <= out_nameLength (name_buffer 3)
               <= Z.of_nat (List.length (out_name (name_buffer 3))))
    by (split; discriminate).
  assert (H2 : out_nameLength (name_buffer 3)
               <= Z.of_nat (String.length "Alice")) by discriminate.
  split; [repeat split; try reflexivity; try apply H1; exact H2|].
  exact (readZidNameRecord_truncates cache_with_name zid_alice zid_local None
           (bind_zidNameRecord (b64Encode zid_alice IDENTIFIER_LEN)
              (b64Encode zid_local IDENTIFIER_LEN) defaultAccountString
              sample_name 1700000000)
           (name_buffer 3) true eq_refl eq_refl eq_refl H1 H2).
Defined.

(** The loop over rows whose names the array can take. *)
Lemma scan_zidNameRecord_fits rows : forall z found,
  Forall (fun row =>
            Z.of_nat (String.length (nm_name row))
            <= Z.of_nat (List.length (out_name z))) rows ->
  0 <= out_nameLength z <= Z.of_nat (List.length (out_name z)) ->
  exists z',
    scan_zidNameRecord rows z found
    = Some (z', found + Z.of_nat (List.length rows))
    /\ List.length (out_name z') = List.length (out_name z).
Proof.
  induction rows as [|row rows IH]; intros z found Hall Hn.
  - exists z. cbn. split; [now rewrite Z.add_0_r|reflexivity].
  - inversion Hall as [|? ? Hrow Hrows]; subst.
    cbn [scan_zidNameRecord]. cbv zeta.
    destruct (strncpy_fits (out_name z) (nm_name row) (out_nameLength z) Hn)
      as (mem & -> & _ & Hmem).
    destruct (IH {| out_name := mem;
                    out_nameLength := sqlite3_column_bytes (nm_name row);
                    out_flags :=
                      to_uint32 (sqlite3_column_int (nm_flags row)) |}
                 (found + 1)) as (z' & Hz' & Hlen).
    + cbn [out_name]. rewrite Hmem. exact Hrows.
    + cbn [out_name out_nameLength]. unfold sqlite3_column_bytes.
      rewrite Hmem. lia.
    + exists z'. rewrite Hz'. cbn [out_name] in Hlen. rewrite Hlen, Hmem.
      split; [|reflexivity]. cbn [List.length]. f_equal. f_equal. lia.
Qed.

(** X17: when the key selects more than one name row, and the caller's
    array can take each of the stored names, the read returns 1 and the
    message that carries the number of rows; the caller's record has been
    overwritten by then. *)
Theorem readZidNameRecord_inconsistent
    (db : sqlite3) (remoteZid localZid : list byte)
    (accountInfo : option string) (out : zidNameRecord_out) (e : bool)
    (r1 r2 : zrtpNames_row) (rest : list zrtpNames_row) :
  is_some (zrtpNames db) = true ->
  names_matching db remoteZid localZid accountInfo = r1 :: r2 :: rest ->
  0 <= out_nameLength out <= Z.of_nat (List.length (out_name out)) ->
  Forall (fun row =>
            Z.of_nat (String.length (nm_name row))
            <= Z.of_nat (List.length (out_name out))) (r1 :: r2 :: rest) ->
  exists out',
    readZidNameRecord db remoteZid localZid accountInfo out e
    = Some (1, out',
            snprintf e
              (More_than_one_ZID_name
                 (Z.of_nat (List.length (r1 :: r2 :: rest))))).
Proof.
  intros H Hm Hn Hall. rewrite readZidNameRecord_scan by exact H. rewrite Hm.
  destruct (scan_zidNameRecord_fits (r1 :: r2 :: rest) out 0 Hall Hn)
    as (z' & -> & _).
  exists z'. rewrite Z.add_0_l.
  set (n := Z.of_nat (List.length (r1 :: r2 :: rest))).
  assert (Hn1 : 1 < n) by (subst n; cbn [List.length]; lia).
  destruct (Z.eqb_spec n 0); [lia|].
  destruct (Z.ltb_spec 1 n); [reflexivity|lia].
Qed.

Lemma readZidNameRecord_inconsistent_witness :
  (is_some (zrtpNames cache_with_two_names) = true
   /\ List.length (names_matching cache_with_two_names zid_alice zid_local
                     None) = 2%nat
   /\ 0 <= out_nameLength (name_buffer 16)
      <= Z.of_nat (List.length (out_name (name_buffer 16))))
  /\ exists out',
       readZidNameRecord cache_with_two_names zid_alice zid_local None
         (name_buffer 16) true
       = Some (1, out', Some (More_than_one_ZID_name 2)).
Proof.
  assert (Hn : 0 <= out_nameLength (name_buffer 16)
               <= Z.of_nat (List.length (out_name (name_buffer 16))))
    by (split; discriminate).
  split; [repeat split; try reflexivity; apply Hn|].
  apply (readZidNameRecord_inconsistent cache_with_two_names zid_alice
           zid_local None (name_buffer 16) true
           (bind_zidNameRecord (b64Encode zid_alice IDENTIFIER_LEN)
              (b64Encode zid_local IDENTIFIER_LEN) defaultAccountString
              sample_name 1700000000)
           (bind_zidNameRecord (b64Encode zid_alice IDENTIFIER_LEN)
              (b64Encode zid_local IDENTIFIER_LEN) defaultAccountString
              {| name := Some "Alice Liddell"%string; nameLength := 13;
                 nameFlags := 2 |} 1700000100)
           [] eq_refl eq_refl Hn).
  repeat constructor; discriminate.
Defined.

(** X18: the loop passes the length of the name it has just read as the
    count of the next copy.  So when the key selects more than one row
    and the name of the first row is longer than the caller's array, the
    copy for the second row is asked to write that many chars into the
    array and goes past its end; the call has no defined result. *)
Theorem readZidNameRecord_overrun
    (db : sqlite3) (remoteZid localZid : list byte)
    (accountInfo : option string) (out : zidNameRecord_out) (e : bool)
    (r1 r2 : zrtpNames_row) (rest : list zrtpNames_row) :
  is_some (zrtpNames db) = true ->
  names_matching db remoteZid localZid accountInfo = r1 :: r2 :: rest ->
  0 <= out_nameLength out <= Z.of_nat (List.length (out_name out)) ->
  Z.of_nat (List.length (out_name out))
  < Z.of_nat (String.length (nm_name r1)) ->
  readZidNameRecord db remoteZid localZid accountInfo out e = None.
Proof.
  intros H Hm Hn Hlong. rewrite readZidNameRecord_scan by exact H.
  rewrite Hm. cbn [scan_zidNameRecord]. cbv zeta.
  destruct (strncpy_fits (out_name out) (nm_name r1) (out_nameLength out) Hn)
    as (mem & -> & _ & Hmem).
  cbn [out_name out_nameLength].
  now rewrite strncpy_overrun
    by (unfold sqlite3_column_bytes; rewrite Hmem; exact Hlong).
Qed.

Lemma readZidNameRecord_overrun_witness :
  (is_some (zrtpNames cache_with_two_names) = true
   /\ map nm_name
        (names_matching cache_with_two_names zid_alice zid_local None)
      = ["Alice"%string; "Alice Liddell"%string]
   /\ 0 <= out_nameLength (name_buffer 4)
      <= Z.of_nat (List.length (out_name (name_buffer 4)))
   /\ Z.of_nat (List.length (out_name (name_buffer 4)))
      < Z.of_nat (String.length "Alice"))
  /\ readZidNameRecord cache_with_two_names zid_alice zid_local None
       (name_buffer 4) true = None.
Proof.
  assert (Hn : 0 <= out_nameLength (name_buffer 4)
               <= Z.of_nat (List.length (out_name (name_buffer 4))))
    by (split; discriminate).
  assert (Hlong : Z.of_nat (List.length (out_name (name_buffer 4)))
                  < Z.of_nat (String.length "Alice")) by reflexivity.
  split; [repeat split; try reflexivity; try apply Hn; exact Hlong|].
  exact (readZidNameRecord_overrun cache_with_two_names zid_alice
           zid_local None (name_buffer 4) true
           (bind_zidNameRecord (b64Encode zid_alice IDENTIFIER_LEN)
              (b64Encode zid_local IDENTIFIER_LEN) defaultAccountString
              sample_name 1700000000)
           (bind_zidNameRecord (b64Encode zid_alice IDENTIFIER_LEN)
              (b64Encode zid_local IDENTIFIER_LEN) defaultAccountString
              {| name := Some "Alice Liddell"%string; nameLength := 13;
                 nameFlags := 2 |} 1700000100)
           [] eq_refl eq_refl Hn Hlong).
Defined.

(* ------------------------------------------------------------------ *)
(** ** Peer-name store: update and other keys *)

Lemma map_set_names_absent (new : zrtpNames_row) rows :
  filter (names_key (nm_remoteZid new) (nm_localZid new)
            (nm_accountInfo new)) rows = [] ->
  map (set_zrtpNames new) rows = rows.
Proof.
  induction rows as [|row rows IH]; [reflexivity|].
  cbn [filter map]. unfold set_zrtpNames at 1.
  destruct (names_key (nm_remoteZid new) (nm_localZid new)
              (nm_accountInfo new) row); [discriminate|].
  intros H. now rewrite IH.
Qed.

Lemma filter_map_set_names (new : zrtpNames_row) p1 p2 p3 rows :
  filter (names_key p1 p2 p3) (map (set_zrtpNames new) rows)
  = map (set_zrtpNames new) (filter (names_key p1 p2 p3) rows).
Proof.
  induction rows as [|row rows IH]; [reflexivity|].
  cbn [map filter]. rewrite set_names_keeps_key.
  destruct (names_key p1 p2 p3 row); cbn [map]; now rewrite IH.
Qed.

Lemma names_matching_update db now rz lz a zidName e rz' lz' a' :
  names_matching
    (snd (fst (updateZidNameRecord db now rz lz a zidName e))) rz' lz' a'
  = map (set_zrtpNames
           (bind_zidNameRecord (b64Encode rz IDENTIFIER_LEN)
              (b64Encode lz IDENTIFIER_LEN) (names_account a) zidName now))
      (names_matching db rz' lz' a').
Proof.
  destruct (zrtpNames db) as [rows|] eqn:E.
  - rewrite updateZidNameRecord_rows by (rewrite E; reflexivity).
    unfold names_matching. cbn [fst snd zrtpNames]. rewrite E. cbn [table].
    apply filter_map_set_names.
  - unfold updateZidNameRecord, names_matching. cbn [SQLITE_PREPARE].
    rewrite E. cbn [is_some].
    change (negb (SQLITE_ERROR =? SQLITE_OK)) with true.
    cbn [fst snd]. rewrite ?E. reflexivity.
Qed.

(** X19: an update of a name under a key that selects no row is not an
    error: it returns [SQLITE_OK], writes no message and leaves the whole
    database exactly as it was.  No row is created for the key. *)
Theorem updateZidNameRecord_absent_key
    (db : sqlite3) (now : Z) (remoteZid localZid : list byte)
    (accountInfo : option string) (zidName : zidNameRecord_t) (e : bool) :
  is_some (zrtpNames db) = true ->
  names_matching db remoteZid localZid accountInfo = [] ->
  updateZidNameRecord db now remoteZid localZid accountInfo zidName e
  = (SQLITE_OK, db, None).
Proof.
  intros H Hm. rewrite updateZidNameRecord_rows by exact H.
  rewrite map_set_names_absent by exact Hm.
  destruct db as [own remote [rows|]]; [reflexivity|discriminate].
Qed.

Lemma updateZidNameRecord_absent_key_witness :
  (is_some (zrtpNames cache_with_name) = true
   /\ names_matching cache_with_name zid_bob zid_local None = [])
  /\ updateZidNameRecord cache_with_name 1700000500 zid_bob zid_local None
       sample_name true
     = (SQLITE_OK, cache_with_name, None).
Proof.
  split; [split; reflexivity|].
  exact (updateZidNameRecord_absent_key cache_with_name 1700000500 zid_bob
           zid_local None sample_name true eq_refl eq_refl).
Defined.

(** X20: after an update under a key that selects one row, the read
    under that key returns the new flags and the new name (or
    "_NO_NAME_" for a null name pointer), when the caller's array has
    room for the name and its terminator; [nameLength] is the length of
    the new name. *)
Theorem update_then_readZidNameRecord
    (db : sqlite3) (now : Z) (remoteZid localZid : list byte)
    (accountInfo : option string) (zidName : zidNameRecord_t)
    (row : zrtpNames_row) (out : zidNameRecord_out) (e e' : bool) :
  is_some (zrtpNames db) = true ->
  names_matching db remoteZid localZid accountInfo = [row] ->
  uint32_range (nameFlags zidName) = true ->
  c_str (list_ascii_of_string (name_text zidName))
  = list_ascii_of_string (name_text zidName) ->
  Z.of_nat (String.length (name_text zidName)) < out_nameLength out ->
  out_nameLength out <= Z.of_nat (List.length (out_name out)) ->
  let upd :=
    updateZidNameRecord db now remoteZid localZid accountInfo zidName e in
  fst (fst upd) = SQLITE_OK
  /\ readZidNameRecord (snd (fst upd)) remoteZid localZid accountInfo out e'
     = Some (SQLITE_OK,
             {| out_name :=
                  list_ascii_of_string (name_text zidName)
                  ++ repeat zero
                       (Z.to_nat (out_nameLength out)
                        - String.length (name_text zidName))
                  ++ skipn (Z.to_nat (out_nameLength out)) (out_name out);
                out_nameLength :=
                  Z.of_nat (String.length (name_text zidName));
                out_flags := nameFlags zidName |},
             None).
Proof.
  intros H Hm Hf Hc Hlen Hcap upd.
  assert (Hk : names_key (b64Encode remoteZid IDENTIFIER_LEN)
                 (b64Encode localZid IDENTIFIER_LEN)
                 (names_account accountInfo) row = true).
  { assert (Hin : In row (names_matching db remoteZid localZid accountInfo))
      by (rewrite Hm; now left).
    unfold names_matching in Hin. apply filter_In in Hin as [_ Hk].
    exact Hk. }
  split; [subst upd; now rewrite updateZidNameRecord_rows|].
  subst upd.
  rewrite (readZidNameRecord_one _ _ _ _
             (set_zrtpNames
                (bind_zidNameRecord (b64Encode remoteZid IDENTIFIER_LEN)
                   (b64Encode localZid IDENTIFIER_LEN)
                   (names_account accountInfo) zidName now) row)).
  - unfold set_zrtpNames, bind_zidNameRecord, values_zrtpNames.
    cbn [nm_remoteZid nm_localZid nm_accountInfo]. rewrite Hk.
    cbn [nm_name nm_flags]. fold (name_text zidName).
    rewrite to_uint32_column_int by exact Hf. rewrite Hc.
    rewrite firstn_app_repeat by (rewrite string_length_list; lia).
    rewrite string_length_list, <- app_assoc. reflexivity.
  - now rewrite updateZidNameRecord_rows.
  - rewrite names_matching_update, Hm. reflexivity.
  - lia.
Qed.

Lemma update_then_readZidNameRecord_witness :
  let upd :=
    updateZidNameRecord cache_with_name 1700000500 zid_alice zid_local None
      {| name := Some "Al"%string; nameLength := 2; nameFlags := 7 |} true in
  (is_some (zrtpNames cache_with_name) = true
   /\ List.length (names_matching cache_with_name zid_alice zid_local None)
      = 1%nat)
  /\ fst (fst upd) = SQLITE_OK
  /\ readZidNameRecord (snd (fst upd)) zid_alice zid_local None
       (name_buffer 4) true
     = Some (SQLITE_OK,
             {| out_name := list_ascii_of_string "Al" ++ [zero; zero];
                out_nameLength := 2;
                out_flags := 7 |},
             None).
Proof.
  cbv zeta. split; [split; reflexivity|].
  assert (H1 : Z.of_nat (String.length "Al") < out_nameLength (name_buffer 4))
    by reflexivity.
  assert (H2 : out_nameLength (name_buffer 4)
               <= Z.of_nat (List.length (out_name (name_buffer 4))))
    by discriminate.
  exact (update_then_readZidNameRecord cache_with_name 1700000500 zid_alice
           zid_local None
           {| name := Some "Al"%string; nameLength := 2; nameFlags := 7 |}
           (bind_zidNameRecord (b64Encode zid_alice IDENTIFIER_LEN)
              (b64Encode zid_local IDENTIFIER_LEN) defaultAccountString
              sample_name 1700000000)
           (name_buffer 4) true true eq_refl eq_refl eq_refl eq_refl H1 H2).
Defined.

Lemma readZidNameRecord_ext db db' rz lz a out e :
  is_some (zrtpNames db') = is_some (zrtpNames db) ->
  names_matching db' rz lz a = names_matching db rz lz a ->
  readZidNameRecord db' rz lz a out e = readZidNameRecord db rz lz a out e.
Proof.
  intros Ht Hm. unfold readZidNameRecord, step_selectZrtpNames.
  fold (names_matching db' rz lz a). fold (names_matching db rz lz a).
  rewrite Hm. cbn [SQLITE_PREPARE]. rewrite Ht. reflexivity.
Qed.

Lemma names_key_other remoteZid localZid a rz lz a' zidName now :
  List.length remoteZid = IDENTIFIER_LEN ->
  List.length localZid = IDENTIFIER_LEN ->
  List.length rz = IDENTIFIER_LEN ->
  List.length lz = IDENTIFIER_LEN ->
  (rz, lz, names_account a') <> (remoteZid, localZid, names_account a) ->
  (b64Encode rz IDENTIFIER_LEN, b64Encode lz IDENTIFIER_LEN,
   names_account a')
  <> (nm_remoteZid
        (bind_zidNameRecord (b64Encode remoteZid IDENTIFIER_LEN)
           (b64Encode localZid IDENTIFIER_LEN) (names_account a) zidName now),
      nm_localZid
        (bind_zidNameRecord (b64Encode remoteZid IDENTIFIER_LEN)
           (b64Encode localZid IDENTIFIER_LEN) (names_account a) zidName now),
      nm_accountInfo
        (bind_zidNameRecord (b64Encode remoteZid IDENTIFIER_LEN)
           (b64Encode localZid IDENTIFIER_LEN) (names_account a) zidName
           now)).
Proof.
  intros L1 L2 L3 L4 Hne E. apply Hne. cbn in E. injection E as E1 E2 E3.
  apply b64Encode_inj in E1, E2; try assumption. congruence.
Qed.

Lemma names_key_differs (new row : zrtpNames_row) p1 p2 p3 :
  (p1, p2, p3) <> (nm_remoteZid new, nm_localZid new, nm_accountInfo new) ->
  names_key p1 p2 p3 row = true ->
  names_key (nm_remoteZid new) (nm_localZid new) (nm_accountInfo new) row
  = false.
Proof.
  intros Hne Hk.
  destruct (names_key (nm_remoteZid new) (nm_localZid new)
              (nm_accountInfo new) row) eqn:Hk'; [|reflexivity].
  exfalso. apply Hne. unfold names_key in *.
  apply andb_true_iff in Hk as [Hk C]. apply andb_true_iff in Hk as [A B].
  apply andb_true_iff in Hk' as [Hk' C']. apply andb_true_iff in Hk' as [A' B'].
  apply String.eqb_eq in A, B, C, A', B', C'. congruence.
Qed.

Lemma map_set_names_other (new : zrtpNames_row) p1 p2 p3 rows :
  (p1, p2, p3) <> (nm_remoteZid new, nm_localZid new, nm_accountInfo new) ->
  map (set_zrtpNames new) (filter (names_key p1 p2 p3) rows)
  = filter (names_key p1 p2 p3) rows.
Proof.
  intros Hne. induction rows as [|row rows IH]; [reflexivity|].
  cbn [filter]. destruct (names_key p1 p2 p3 row) eqn:Hk; [|exact IH].
  cbn [map]. rewrite IH. f_equal. unfold set_zrtpNames.
  now rewrite (names_key_differs new row p1 p2 p3).
Qed.

(** X21: names are keyed by the two identifiers and the account label,
    a null label standing for "_STANDARD_".  An insert or an update
    under one key is not seen under any other key: for every other key
    of 12-byte identifiers the read returns afterwards exactly what it
    returned before. *)
Theorem name_store_frame
    (db : sqlite3) (now : Z) (remoteZid localZid rz lz : list byte)
    (accountInfo a : option string) (zidName : zidNameRecord_t)
    (out : zidNameRecord_out) (e e' : bool) :
  List.length remoteZid = IDENTIFIER_LEN ->
  List.length localZid = IDENTIFIER_LEN ->
  List.length rz = IDENTIFIER_LEN ->
  List.length lz = IDENTIFIER_LEN ->
  (rz, lz, names_account a)
  <> (remoteZid, localZid, names_account accountInfo) ->
  readZidNameRecord
    (snd (fst (insertZidNameRecord db now remoteZid localZid accountInfo
                 zidName e)))
    rz lz a out e'
  = readZidNameRecord db rz lz a out e'
  /\ readZidNameRecord
       (snd (fst (updateZidNameRecord db now remoteZid localZid accountInfo
                    zidName e)))
       rz lz a out e'
     = readZidNameRecord db rz lz a out e'.
Proof.
  intros L1 L2 L3 L4 Hne.
  pose proof (names_key_other remoteZid localZid accountInfo rz lz a zidName
                now L1 L2 L3 L4 Hne) as Hkey.
  destruct (zrtpNames db) as [rows|] eqn:E.
  - assert (H : is_some (zrtpNames db) = true) by now rewrite E.
    split; apply readZidNameRecord_ext.
    + rewrite insertZidNameRecord_row by exact H. now rewrite H.
    + rewrite insertZidNameRecord_row by exact H.
      unfold names_matching. cbn [fst snd zrtpNames table].
      rewrite filter_app. cbn [filter]. fold (names_account a).
      destruct (names_key (b64Encode rz IDENTIFIER_LEN)
                  (b64Encode lz IDENTIFIER_LEN) (names_account a)
                  (bind_zidNameRecord (b64Encode remoteZid IDENTIFIER_LEN)
                     (b64Encode localZid IDENTIFIER_LEN)
                     (names_account accountInfo) zidName now)) eqn:Hk;
        [|apply app_nil_r].
      exfalso. apply Hkey. unfold names_key in Hk.
      apply andb_true_iff in Hk as [Hk C]. apply andb_true_iff in Hk as [A B].
      apply String.eqb_eq in A, B, C. congruence.
    + rewrite updateZidNameRecord_rows by exact H. now rewrite H.
    + rewrite names_matching_update. unfold names_matching.
      fold (names_account a). now apply map_set_names_other.
  - unfold insertZidNameRecord, updateZidNameRecord. cbn [SQLITE_PREPARE].
    rewrite E. split; reflexivity.
Qed.

Lemma name_store_frame_witness :
  (List.length zid_bob = IDENTIFIER_LEN
   /\ List.length zid_local = IDENTIFIER_LEN
   /\ List.length zid_alice = IDENTIFIER_LEN
   /\ (zid_alice, zid_local, names_account None)
      <> (zid_alice, zid_local, names_account (Some "work"%string)))
  /\ readZidNameRecord
       (snd (fst (insertZidNameRecord cache_with_name 1700000500 zid_alice
                    zid_local (Some "work"%string) sample_no_name true)))
       zid_alice zid_local None (name_buffer 8) true
     = readZidNameRecord cache_with_name zid_alice zid_local None
         (name_buffer 8) true
  /\ readZidNameRecord
       (snd (fst (updateZidNameRecord cache_with_name 1700000500 zid_alice
                    zid_local (Some "work"%string) sample_no_name true)))
       zid_alice zid_local None (name_buffer 8) true
     = readZidNameRecord cache_with_name zid_alice zid_local None
         (name_buffer 8) true.
Proof.
  assert (Hne : (zid_alice, zid_local, names_account None)
                <> (zid_alice, zid_local, names_account (Some "work"%string)))
    by discriminate.
  split; [repeat split; try reflexivity; exact Hne|].
  exact (name_store_frame cache_with_name 1700000500 zid_alice zid_local
           zid_alice zid_local (Some "work"%string) None sample_no_name
           (name_buffer 8) true true eq_refl eq_refl eq_refl eq_refl Hne).
Defined.

(* ------------------------------------------------------------------ *)
(** ** Enumeration cursor: every timestamp *)

Lemma readNextZidRecord_any_row db (en : entry) rest out e :
  entry_wf en = true ->
  List.length (identifier out) = IDENTIFIER_LEN ->
  readNextZidRecord db (Some {| pending := Some (entry_row en :: rest) |})
    out e
  = Some (Some {| pending := Some rest |}, entry_read_back en, None).
Proof.
  intros Hok Hid. apply entry_wf_spec in Hok as (L1 & _ & Hwf).
  destruct en as [[rz lz] r]. cbn [fst snd] in *.
  unfold readNextZidRecord, step_selectZrtpIdRemoteAllNoCondition.
  cbn [pending entry_row]. rewrite column_bind_read_back by assumption.
  unfold bind_remoteZidRecord, values_zrtpIdRemote. cbn [col_remoteZid].
  unfold b64Decode. rewrite b64Encode_full by exact L1.
  rewrite Base64Facts.base64_roundtrip.
  cbn [with_identifier identifier flags rs1 rs1LastUse rs1Ttl rs2 rs2LastUse
       rs2Ttl mitmKey mitmLastUse secureSince preshCounter].
  rewrite store_identifier by assumption. reflexivity.
Qed.

Lemma readAllZid_any_rows db (es : list entry) : forall fuel out,
  Forall (fun en => entry_wf en = true) es ->
  List.length (identifier out) = IDENTIFIER_LEN ->
  (List.length es < fuel)%nat ->
  readAllZid fuel db (Some {| pending := Some (map entry_row es) |}) out
  = Some (map entry_read_back es).
Proof.
  induction es as [|en es IH]; intros fuel out Hok Hid Hfuel.
  - destruct fuel as [|fuel]; [cbn in Hfuel; lia|]. reflexivity.
  - destruct fuel as [|fuel]; [cbn in Hfuel; lia|].
    inversion Hok as [|? ? Hen Hes]; subst.
    cbn [readAllZid map]. rewrite readNextZidRecord_any_row by assumption.
    rewrite IH; [reflexivity|assumption| |cbn in Hfuel; lia].
    apply entry_wf_spec in Hen as (L1 & _).
    destruct en as [[rz lz] r]. exact L1.
Qed.

Lemma sorts_before_cursor_order (a b : entry) :
  sorts_before (entry_row a) (entry_row b) -> cursor_order a b.
Proof.
  destruct a as [[rza lza] ra], b as [[rzb lzb] rb].
  unfold sorts_before, cursor_order, entry_row, bind_remoteZidRecord,
    values_zrtpIdRemote.
  cbn [col_secureSince snd strftime_s_unixepoch].
  destruct (unixepoch_valid (secureSince ra)),
           (unixepoch_valid (secureSince rb)); cbn [secureSince_le];
    intros H; try reflexivity; try discriminate; try exact I.
  now apply Z.leb_le.
Qed.

Lemma sorted_rows_cursor_order (es : list entry) :
  StronglySorted sorts_before (map entry_row es) ->
  StronglySorted cursor_order es.
Proof.
  induction es as [|en es IH]; intros Hs; [constructor|].
  cbn [map] in Hs. inversion Hs as [|? ? Hs' Hall]; subst.
  constructor; [now apply IH|].
  rewrite Forall_map in Hall. eapply Forall_impl; [|exact Hall].
  intros b Hb. now apply sorts_before_cursor_order.
Qed.

(** X22: the enumeration over a cache filled by inserts, for records
    with any timestamps.  Draining the cursor yields one record for each
    insert, with the remote identifier in its identifier field and each
    timestamp as a keyed read returns it (0 when the engine's dates do
    not cover it).  The records whose secure-since timestamp the dates
    cover come first, in descending order of it; those whose timestamp
    they do not cover come after all of them. *)
Theorem cursor_any_timestamp
    (l : list entry) (fuel : nat) (remZid : remoteZidRecord_t) (e : bool) :
  Forall (fun en => entry_wf en = true) l ->
  List.length (identifier remZid) = IDENTIFIER_LEN ->
  (List.length l < fuel)%nat ->
  let db := insertAll empty_cache l in
  exists l',
    Permutation l' l
    /\ readAllZid fuel db (fst (prepareReadAllZid db e)) remZid
       = Some (map entry_read_back l')
    /\ StronglySorted cursor_order l'.
Proof.
  intros Hok Hid Hfuel db.
  assert (Ht : zrtpIdRemote db = Some (map entry_row l)).
  { subst db. now rewrite insertAll_table. }
  destruct (Permutation_map_inv entry_row l (ORDER_BY_perm (map entry_row l)))
    as (l' & Hl' & Hperm).
  assert (Hok' : Forall (fun en => entry_wf en = true) l')
    by now rewrite <- Hperm.
  exists l'. split; [now symmetry|].
  rewrite prepareReadAllZid_ok by now rewrite Ht.
  cbn [fst]. rewrite (readAllZid_first db (map entry_row l)) by exact Ht.
  rewrite Hl'. split.
  - apply readAllZid_any_rows; try assumption.
    now rewrite <- (Permutation_length Hperm).
  - apply sorted_rows_cursor_order. rewrite <- Hl'. apply ORDER_BY_sorted.
Qed.

Lemma cursor_any_timestamp_witness :
  let l := [entry_far; entry_alice; entry_bob] in
  let db := insertAll empty_cache l in
  (Forall (fun en => entry_wf en = true) l
   /\ List.length (identifier (sample_record 0 0)) = IDENTIFIER_LEN
   /\ (List.length l < 4)%nat)
  /\ (exists l',
        Permutation l' l
        /\ readAllZid 4 db (fst (prepareReadAllZid db true))
             (sample_record 0 0)
           = Some (map entry_read_back l')
        /\ StronglySorted cursor_order l')
  /\ readAllZid 4 db (fst (prepareReadAllZid db true)) (sample_record 0 0)
     = Some (map entry_read_back [entry_bob; entry_alice; entry_far])
  /\ secureSince (entry_read_back entry_far) = 0.
Proof.
  cbv zeta.
  assert (Hok : Forall (fun en => entry_wf en = true)
                  [entry_far; entry_alice; entry_bob])
    by (repeat constructor).
  assert (Hfuel : (List.length [entry_far; entry_alice; entry_bob] < 4)%nat)
    by (cbn; lia).
  split; [split; [exact Hok|split; [reflexivity|exact Hfuel]]|].
  split.
  - exact (cursor_any_timestamp [entry_far; entry_alice; entry_bob] 4
             (sample_record 0 0) true Hok eq_refl Hfuel).
  - split; reflexivity.
Defined.

(* ------------------------------------------------------------------ *)
(** ** The text of an identifier *)

Lemma lookup_base64_char_not_NUL x :
  (x < 64)%N -> Ascii.eqb (Base64.lookup_base64_char x) zero = false.
Proof.
  intros Hx.
  apply (Base64Facts.all_below_spec 64
           (fun x => negb (Ascii.eqb (Base64.lookup_base64_char x) zero)))
    in Hx; [|vm_compute; reflexivity].
  now apply negb_true_iff in Hx.
Qed.

Lemma base64_encode_not_NUL (l : list byte) :
  Forall (fun c => Ascii.eqb c zero = false)
    (list_ascii_of_string (Base64.base64_encode l)).
Proof.
  pattern l. apply Base64Facts.list_ind3; clear l;
    [ | intros a | intros a b | intros a b c l IH ].
  - constructor.
  - pose proof (Base64Facts.sextets_bounded _ 0 0 (Base64Facts.to_N_lt a)
                  eq_refl eq_refl) as Hb.
    cbn [Base64.base64_encode]. unfold Base64.sextets in *.
    destruct Hb as (B0 & B1 & _ & _).
    cbn [list_ascii_of_string].
    repeat constructor; now apply lookup_base64_char_not_NUL.
  - pose proof (Base64Facts.sextets_bounded _ _ 0 (Base64Facts.to_N_lt a)
                  (Base64Facts.to_N_lt b) eq_refl) as Hb.
    cbn [Base64.base64_encode]. unfold Base64.sextets in *.
    destruct Hb as (B0 & B1 & B2 & _).
    cbn [list_ascii_of_string].
    repeat constructor; now apply lookup_base64_char_not_NUL.
  - pose proof (Base64Facts.sextets_bounded _ _ _ (Base64Facts.to_N_lt a)
                  (Base64Facts.to_N_lt b) (Base64Facts.to_N_lt c)) as Hb.
    cbn [Base64.base64_encode]. unfold Base64.sextets in *.
    destruct Hb as (B0 & B1 & B2 & B3).
    cbn [list_ascii_of_string].
    repeat (constructor; [now apply lookup_base64_char_not_NUL|]).
    exact IH.
Qed.

Lemma c_str_no_NUL (l : list ascii) :
  Forall (fun c => Ascii.eqb c zero = false) l -> c_str l = l.
Proof.
  induction 1 as [|c l Hc _ IH]; [reflexivity|].
  cbn [c_str]. now rewrite Hc, IH.
Qed.

Lemma base64_encode_length (l : list byte) :
  String.length (Base64.base64_encode l)
  = (4 * ((List.length l + 2) / 3))%nat.
Proof.
  pattern l. apply Base64Facts.list_ind3; clear l;
    [ | intros a | intros a b | intros a b c l IH ]; try reflexivity.
  cbn [Base64.base64_encode]. unfold Base64.sextets.
  cbn [String.length List.length]. rewrite IH.
  replace (S (S (S (List.length l))) + 2)%nat
    with (List.length l + 2 + 1 * 3)%nat by lia.
  rewrite Nat.div_add by lia.
  generalize ((List.length l + 2) / 3)%nat. clear. intros n.
  rewrite Nat.mul_add_distr_l, Nat.add_comm. reflexivity.
Qed.

(** X23: the text [b64Encode] writes for an identifier.  Only the first
    [IDENTIFIER_LEN] bytes behind the pointer are encoded; the text has
    16 characters, so it fits the zeroed buffers of [IDENTIFIER_LEN*2]
    chars together with its terminator; none of its characters is NUL,
    so the [strlen] the callers bind it with covers all of it; and
    decoding it gives the [IDENTIFIER_LEN] bytes back. *)
Theorem b64Encode_identifier_text (zid : list byte) :
  (IDENTIFIER_LEN <= List.length zid)%nat ->
  let text := b64Encode zid IDENTIFIER_LEN in
  String.length text = 16%nat
  /\ (String.length text < IDENTIFIER_LEN * 2)%nat
  /\ c_str (list_ascii_of_string text) = list_ascii_of_string text
  /\ b64Decode text = Some (firstn IDENTIFIER_LEN zid).
Proof.
  intros Hlen text. subst text. unfold b64Encode, b64Decode.
  assert (L : List.length (firstn IDENTIFIER_LEN zid) = IDENTIFIER_LEN)
    by (rewrite length_firstn; lia).
  assert (E : String.length (Base64.base64_encode (firstn IDENTIFIER_LEN zid))
              = 16%nat)
    by (rewrite base64_encode_length, L; reflexivity).
  split; [exact E|]. split; [rewrite E; cbn; lia|]. split.
  - apply c_str_no_NUL, base64_encode_not_NUL.
  - apply Base64Facts.base64_roundtrip.
Qed.

Lemma b64Encode_identifier_text_witness :
  (IDENTIFIER_LEN <= List.length (zid_alice ++ [x7f; x7f]))%nat
  /\ b64Encode (zid_alice ++ [x7f; x7f]) IDENTIFIER_LEN
     = "AAECA//+ECAwQFBh"%string
  /\ String.length (b64Encode (zid_alice ++ [x7f; x7f]) IDENTIFIER_LEN)
     = 16%nat
  /\ b64Decode (b64Encode (zid_alice ++ [x7f; x7f]) IDENTIFIER_LEN)
     = Some zid_alice.
Proof.
  assert (H : (IDENTIFIER_LEN <= List.length (zid_alice ++ [x7f; x7f]))%nat)
    by (unfold IDENTIFIER_LEN; cbn; lia).
  split; [exact H|]. split; [reflexivity|].
  destruct (b64Encode_identifier_text (zid_alice ++ [x7f; x7f]) H)
    as (H1 & _ & _ & H4).
  split; [exact H1|exact H4].
Defined.

(* ------------------------------------------------------------------ *)
(** ** Reset: names, enumeration and active statements *)

(** A cursor that has returned a row is an active statement. *)
Lemma readNextZidRecord_busy db vstmt remZid e stmt' r m :
  readNextZidRecord db vstmt remZid e = Some (Some stmt', r, m) ->
  sqlite3_stmt_busy (Some stmt') = true.
Proof.
  unfold readNextZidRecord, step_selectZrtpIdRemoteAllNoCondition.
  destruct vstmt as [stmt|]; [|discriminate].
  destruct (pending stmt) as [[|row rest]|].
  - discriminate.
  - destruct (match b64Decode (col_remoteZid row) with
              | Some bin =>
                  store bin (identifier (column_remoteZidRecord row remZid))
              | None => None
              end); [|discriminate].
    intros H. injection H as <- _ _. reflexivity.
  - destruct (zrtpIdRemote db) as [rows|]; [|discriminate].
    destruct (ORDER_BY_secureSince_DESC rows) as [|row rest]; [discriminate|].
    destruct (match b64Decode (col_remoteZid row) with
              | Some bin =>
                  store bin (identifier (column_remoteZidRecord row remZid))
              | None => None
              end); [|discriminate].
    intros H. injection H as <- _ _. reflexivity.
Qed.

(** X24: a reset also forgets the names and empties the enumeration,
    when it succeeds.  With no statement of the connection active
    [clearCache] returns [SQLITE_OK] on every database.  After a
    [clearCache] that returned [SQLITE_OK], a name read under any key
    returns [SQLITE_OK] with flags 0 and leaves the caller's array and
    [nameLength] as they were, and the first call of a new cursor
    reports the end of the sequence without touching the caller's
    record.  While a statement is active -- such as a cursor that has
    returned a row and was neither drained nor closed -- the reset of a
    cache that has its own-identity table returns [SQLITE_ERROR] with
    its message and keeps every row. *)
Theorem clearCache_forgets_names
    (db : sqlite3) (busy : bool) (remoteZid localZid : list byte)
    (accountInfo : option string) (out : zidNameRecord_out)
    (remZid : remoteZidRecord_t) (e e1 e2 : bool) :
  (busy = false -> fst (fst (clearCache db busy e)) = SQLITE_OK)
  /\ (fst (fst (clearCache db busy e)) = SQLITE_OK ->
      readZidNameRecord (snd (fst (clearCache db busy e))) remoteZid localZid
        accountInfo out e1
      = Some (SQLITE_OK,
              {| out_name := out_name out;
                 out_nameLength := out_nameLength out;
                 out_flags := 0 |},
              None)
      /\ readNextZidRecord (snd (fst (clearCache db busy e)))
           (fst (prepareReadAllZid (snd (fst (clearCache db busy e))) e1))
           remZid e2
         = Some (None, remZid, None))
  /\ (forall vstmt stmt' r m,
        is_some (zrtpIdOwn db) = true ->
        readNextZidRecord db vstmt remZid e2 = Some (Some stmt', r, m) ->
        clearCache db (sqlite3_stmt_busy (Some stmt')) e
        = (SQLITE_ERROR, db, if e then Some (SQLite3_error SQLITE_ERROR)
                             else None)).
Proof.
  split; [|split].
  - intros ->. now rewrite clearCache_empties.
  - intros Hok. rewrite clearCache_succeeds by exact Hok. cbn [fst snd].
    split; reflexivity.
  - intros vstmt stmt' r m Hown Hnext.
    rewrite (readNextZidRecord_busy _ _ _ _ _ _ _ Hnext).
    rewrite clearCache_busy by exact Hown. destruct e; reflexivity.
Qed.

Lemma clearCache_forgets_names_witness :
  let db := cache_peers_and_name in
  let before :=
    readZidNameRecord db zid_alice zid_local None (name_buffer 8) true in
  let cursor := readNextZidRecord db (fst (prepareReadAllZid db true))
                  (sample_record 0 0) true in
  (* before the reset the name is there *)
  before
  = Some (SQLITE_OK,
          {| out_name := list_ascii_of_string "Alice" ++ [zero; zero; zero];
             out_nameLength := 5; out_flags := 1 |},
          None)
  (* a reset with no statement active *)
  /\ fst (fst (clearCache db false true)) = SQLITE_OK
  /\ readZidNameRecord (snd (fst (clearCache db false true))) zid_alice
       zid_local None (name_buffer 8) true
     = Some (SQLITE_OK, name_buffer 8, None)
  (* a reset while the cursor is open *)
  /\ (exists stmt' r,
        cursor = Some (Some stmt', r, None)
        /\ clearCache db (sqlite3_stmt_busy (Some stmt')) true
           = (SQLITE_ERROR, db, Some (SQLite3_error SQLITE_ERROR))).
Proof.
  cbv zeta.
  destruct (clearCache_forgets_names cache_peers_and_name false zid_alice
              zid_local None (name_buffer 8) (sample_record 0 0) true true
              true) as (Hok & Hafter & Hbusy).
  split; [reflexivity|].
  split; [exact (Hok eq_refl)|].
  split; [exact (proj1 (Hafter (Hok eq_refl)))|].
  destruct (readNextZidRecord cache_peers_and_name
              (fst (prepareReadAllZid cache_peers_and_name true))
              (sample_record 0 0) true)
    as [[[[stmt'|] r] [m|]]|] eqn:Hnext; try discriminate Hnext.
  exists stmt', r. split; [reflexivity|].
  exact (Hbusy _ _ _ _ eq_refl Hnext).
Defined.
